(** * vaemof.experiments: data loading, identity registry, filtering and
      batched inference

    A shallow embedding of [src/vaemof/experiments.py].  Data frames are
    modelled as a list of column labels together with a list of labelled
    rows; Python dictionaries are finite maps; exceptions and the messages
    written with [print] are threaded through a small error-and-log monad.

    Scope of the model.  Two cells are the same value (for
    [drop_duplicates] and as dictionary keys) when they are the same scalar
    of the same type.  [sort_values] is modelled by a stable insertion
    sort.  The random choice of [df.sample] and the collaborators
    ([SCScorer], the trainer and the model) are arguments of the functions
    that use them.  Where versions of pandas differ, the behaviour of
    current pandas (2.x) is taken: a row label that [df.loc] does not find
    is a [KeyError]. *)

From Stdlib Require Import ZArith String List Bool Lia.
From Stdlib Require Import Floats.SpecFloat.
From stdpp Require Import base option list strings gmap.

Local Open Scope string_scope.
Local Open Scope Z_scope.
Local Open Scope list_scope.

(** ** Cell values *)

(** The scalar held by one cell of a frame read by [pd.read_csv]: a string
    (object column), an integer, a boolean or a binary64 float.  Floats are
    the IEEE 754 values of [SpecFloat]; a missing field reads as NaN. *)
Inductive cell : Type :=
  | VStr (s : string)
  | VInt (z : Z)
  | VBool (b : bool)
  | VFloat (f : spec_float).

Definition nan : cell := VFloat S754_nan.

#[global] Instance spec_float_eq_dec : EqDecision spec_float.
Proof. solve_decision. Defined.

#[global] Instance cell_eq_dec : EqDecision cell.
Proof. solve_decision. Defined.

Definition spec_float_enc (f : spec_float) : bool + bool + unit + bool * positive * Z :=
  match f with
  | S754_zero s => inl (inl (inl s))
  | S754_infinity s => inl (inl (inr s))
  | S754_nan => inl (inr tt)
  | S754_finite s m e => inr (s, m, e)
  end.

Definition spec_float_dec (x : bool + bool + unit + bool * positive * Z) : spec_float :=
  match x with
  | inl (inl (inl s)) => S754_zero s
  | inl (inl (inr s)) => S754_infinity s
  | inl (inr _) => S754_nan
  | inr (s, m, e) => S754_finite s m e
  end.

#[global] Instance spec_float_countable : Countable spec_float.
Proof.
  apply (inj_countable' spec_float_enc spec_float_dec).
  intros []; reflexivity.
Defined.

Definition cell_enc (c : cell) : string + Z + bool + spec_float :=
  match c with
  | VStr s => inl (inl (inl s))
  | VInt z => inl (inl (inr z))
  | VBool b => inl (inr b)
  | VFloat f => inr f
  end.

Definition cell_dec (x : string + Z + bool + spec_float) : cell :=
  match x with
  | inl (inl (inl s)) => VStr s
  | inl (inl (inr z)) => VInt z
  | inl (inr b) => VBool b
  | inr f => VFloat f
  end.

#[global] Instance cell_countable : Countable cell.
Proof.
  apply (inj_countable' cell_enc cell_dec).
  intros []; reflexivity.
Defined.

(** A MOF identity: the tuple [(metal_node, organic_core, topology)]. *)
Abbreviation mof := (cell * cell * cell)%type.

(** ** Exceptions, log and the monad *)

(** The exceptions the module can raise.  A Python [KeyError] comes from a
    missing column label, from a missing row label or from a missing
    dictionary key; the three are kept apart by their payload. *)
Inductive exn : Type :=
  | KeyError_column (label : string)
  | KeyError_label (label : cell)
  | KeyError_dict (key : mof)
  | ValueError (msg : string)
  | AssertionError (msg : string)
  | TypeError (msg : string)
  | UndefinedVariableError (name : string)
  | ZeroDivisionError.

(** What the functions write with [print]. *)
Inductive event : Type :=
  | Header (title : string)
  | Shape (n_rows n_cols : Z)
  | Columns (labels : list string)
  | FoundMofs (n : Z)
  | RemovedMask (n : Z)
  | RemovedMof (n : Z)
  | RemovedSelectivity (n : Z).

Inductive result (A : Type) : Type :=
  | Ok (a : A)
  | Raise (e : exn).
Arguments Ok {A} a.
Arguments Raise {A} e.

#[global] Instance exn_eq_dec : EqDecision exn.
Proof. solve_decision. Defined.

#[global] Instance result_eq_dec {A : Type} `{EqDecision A} : EqDecision (result A).
Proof. solve_decision. Defined.

#[global] Instance result_ret : MRet result := λ A a, Ok a.
#[global] Instance result_bind : MBind result := λ A B f m,
  match m with Ok a => f a | Raise e => Raise e end.

(** A computation that may raise and that appends to the printed log. *)
Definition M (A : Type) : Type := list event → result (A * list event).

#[global] Instance M_ret : MRet M := λ A a log, Ok (a, log).
#[global] Instance M_bind : MBind M := λ A B f m log,
  match m log with
  | Ok (a, log') => f a log'
  | Raise e => Raise e
  end.

Definition print (e : event) : M unit := λ log, Ok (tt, log ++ [e]).
Definition raise {A} (e : exn) : M A := λ _, Raise e.
Definition lift {A} (r : result A) : M A := λ log,
  match r with Ok a => Ok (a, log) | Raise e => Raise e end.

(** Running a computation from an empty log. *)
Definition run {A} (m : M A) : result (A * list event) := m [].

(** ** Data frames *)

(** A frame: the column labels in order, and the rows in order, each with
    its index label and its cells (cell [i] belongs to column [i]). *)
Record DataFrame : Type := mkDF {
  columns : list string;
  rows : list (Z * list cell)
}.

(** A column taken out of a frame: index label and value of every row. *)
Abbreviation Series := (list (Z * cell)).

(** [len(df)] *)
Definition len (df : DataFrame) : Z := Z.of_nat (length (rows df)).

(** [df.index] *)
Definition index (df : DataFrame) : list Z := (rows df).*1.

(** Position of the first column carrying a label. *)
Fixpoint col_pos (c : string) (cols : list string) : option nat :=
  match cols with
  | [] => None
  | c' :: cols' => if decide (c = c') then Some 0%nat else S <$> col_pos c cols'
  end.

(** The cell of a row at a position; a field the row lacks reads as NaN. *)
Definition at_pos (i : nat) (r : list cell) : cell := default nan (r !! i).

(** A row brought to the width of the frame. *)
Definition fit (n : nat) (r : list cell) : list cell := take n (r ++ replicate n nan).

(** [df[c]] for one label: the column, or [KeyError]. *)
Definition getitem (df : DataFrame) (c : string) : result Series :=
  match col_pos c (columns df) with
  | None => Raise (KeyError_column c)
  | Some i => Ok (map (λ r, (r.1, at_pos i r.2)) (rows df))
  end.

(** The cell a row of the frame holds under a label. *)
Definition row_get (cols : list string) (c : string) (r : list cell) : result cell :=
  match col_pos c cols with
  | None => Raise (KeyError_column c)
  | Some i => Ok (at_pos i r)
  end.

(** A file as [pd.read_csv] parses it: the header line and the records. *)
Record csv : Type := mkCsv {
  header : list string;
  records : list (list cell)
}.

(** [pd.read_csv(csv_file)]: the rows get the labels 0, 1, 2, ... *)
Definition read_csv (f : csv) : DataFrame :=
  mkDF (header f) (imap (λ i r, (Z.of_nat i, r)) (records f)).

(** [df.rename(columns={old: new})]: labels other than [old] are kept, and
    a mapping whose key is no label of the frame changes nothing. *)
Definition rename (df : DataFrame) (old new : string) : DataFrame :=
  mkDF (map (λ c, if decide (c = old) then new else c) (columns df)) (rows df).

(** [df.reset_index(drop=True)] *)
Definition reset_index_drop (df : DataFrame) : DataFrame :=
  mkDF (columns df) (imap (λ i r, (Z.of_nat i, r.2)) (rows df)).

(** [df.reset_index()]: the old labels become the first column, called
    [index], or [level_0] when [index] is taken. *)
Definition reset_index (df : DataFrame) : result DataFrame :=
  let insert_as (name : string) :=
    mkDF (name :: columns df)
         (imap (λ i r, (Z.of_nat i, VInt r.1 :: r.2)) (rows df)) in
  if decide ("index" ∈ columns df) then
    if decide ("level_0" ∈ columns df)
    then Raise (ValueError "cannot insert level_0, already exists")
    else Ok (insert_as "level_0")
  else Ok (insert_as "index").

(** The elements whose key was not seen before, in order: what
    [drop_duplicates] keeps (the first occurrence of every value). *)
Fixpoint first_occurrences {A K : Type} `{EqDecision K}
    (key : A → K) (seen : list K) (l : list A) : list A :=
  match l with
  | [] => []
  | x :: l' =>
      if decide (key x ∈ seen) then first_occurrences key seen l'
      else x :: first_occurrences key (key x :: seen) l'
  end.

(** [s.drop_duplicates()] on a column. *)
Definition series_drop_duplicates (s : Series) : Series :=
  first_occurrences snd [] s.

(** [df.drop_duplicates(subset=c)] *)
Definition drop_duplicates (df : DataFrame) (c : string) : result DataFrame :=
  match col_pos c (columns df) with
  | None => Raise (KeyError_column c)
  | Some i => Ok (mkDF (columns df) (first_occurrences (λ r, at_pos i r.2) [] (rows df)))
  end.

(** [df.loc[labels]]: for every label in turn, the rows that carry it.  The
    callers pass labels of the frame itself, or check them first, so the
    [KeyError] of an unknown label is theirs to raise. *)
Definition loc (df : DataFrame) (labels : list Z) : DataFrame :=
  mkDF (columns df)
       (labels ≫= (λ l, filter (λ r, r.1 = l) (rows df))).

(** The elements of a list at which a mask of the same length is true. *)
Fixpoint select {A : Type} (l : list A) (m : list bool) : list A :=
  match l, m with
  | x :: l', b :: m' => if b then x :: select l' m' else select l' m'
  | _, _ => []
  end.

(** [df[mask]] and [df.loc[mask]] for a boolean column [mask] of the frame
    itself: the rows at which the mask is true.  A boolean column selects
    rows also when it is empty. *)
Definition bool_index (df : DataFrame) (m : list bool) : DataFrame :=
  mkDF (columns df) (select (rows df) m).

(** [df[m]] for a Python list [m] with one boolean per row.  A list that
    is not empty is a row mask.  The empty list, which is what a frame
    without rows gives, is read as an empty list of column labels: the
    result keeps the (no) rows and has no column at all. *)
Definition getitem_bools (df : DataFrame) (m : list bool) : DataFrame :=
  match m with
  | [] => mkDF [] (map (λ r, (r.1, [])) (rows df))
  | _ :: _ => bool_index df m
  end.

(** [df[c] = values]: overwrite column [c], or append it as a new last
    column. *)
Definition set_col (df : DataFrame) (c : string) (values : list cell) : DataFrame :=
  let n := length (columns df) in
  match col_pos c (columns df) with
  | Some i =>
      mkDF (columns df)
           (zip_with (λ r v, (r.1, <[i:=v]> (fit n r.2))) (rows df) values)
  | None =>
      mkDF (columns df ++ [c])
           (zip_with (λ r v, (r.1, fit n r.2 ++ [v])) (rows df) values)
  end.

(** ** Ordering of cells, for [sort_values] *)

(** Floats in sorting order: NaN goes last. *)
Definition float_compare (x y : spec_float) : comparison :=
  match x, y with
  | S754_nan, S754_nan => Eq
  | S754_nan, _ => Gt
  | _, S754_nan => Lt
  | _, _ => default Eq (SFcompare x y)
  end.

(** Two cells of one type compare; cells of different types do not. *)
Definition cell_compare (a b : cell) : option comparison :=
  match a, b with
  | VStr x, VStr y => Some (String.compare x y)
  | VInt x, VInt y => Some (Z.compare x y)
  | VBool x, VBool y => Some (Bool.compare x y)
  | VFloat x, VFloat y => Some (float_compare x y)
  | _, _ => None
  end.

Definition cell_leb (a b : cell) : bool :=
  match cell_compare a b with
  | Some Gt => false
  | _ => true
  end.

Definition comparable (a b : cell) : bool := bool_decide (is_Some (cell_compare a b)).

Fixpoint insert_sorted {A : Type} (key : A → cell) (x : A) (l : list A) : list A :=
  match l with
  | [] => [x]
  | y :: l' =>
      if cell_leb (key x) (key y) then x :: y :: l'
      else y :: insert_sorted key x l'
  end.

(** Ascending order of the key; rows with equal keys keep their order. *)
Definition sort_by {A : Type} (key : A → cell) (l : list A) : list A :=
  foldr (insert_sorted key) [] l.

(** [df.sort_values(by=c)].  Only the cells of one type are ordered here: a
    column that mixes types gets the [TypeError] Python raises for a string
    next to a number.  (Python does order an integer against a float; such
    a column is not what [pd.read_csv] yields and is left out.) *)
Definition sort_values (df : DataFrame) (c : string) : result DataFrame :=
  match col_pos c (columns df) with
  | None => Raise (KeyError_column c)
  | Some i =>
      let key := λ r : Z * list cell, at_pos i r.2 in
      match rows df with
      | [] => Ok df
      | r0 :: _ =>
          if forallb (λ r, comparable (key r0) (key r)) (rows df)
          then Ok (mkDF (columns df) (sort_by key (rows df)))
          else Raise (TypeError "'<' not supported between instances")
      end
  end.

(** ** [get_generator_df] *)

(** Lines 119-120: make sure the SMILES column carries the requested
    label. *)
Definition ensure_smiles_column (df : DataFrame) (smiles_column : string) : DataFrame :=
  if decide (smiles_column ∈ columns df) then df
  else rename df "SMILES" smiles_column.

(** Lines 118-123: the frame as loaded, renamed and, unless duplicates are
    wanted, reduced to the first row of every SMILES string. *)
Definition load_generator_df (csv_file : csv) (smiles_column : string)
    (use_duplicates : bool) : result DataFrame :=
  let df := read_csv csv_file in
  let df := ensure_smiles_column df smiles_column in
  if use_duplicates then Ok df
  else drop_duplicates df smiles_column.

Definition get_generator_df (csv_file : csv) (smiles_column : string)
    (use_duplicates testing : bool) : M DataFrame :=
  df ← lift (load_generator_df csv_file smiles_column use_duplicates);
  df ← (if testing then
          s ← lift (getitem df "id2mof");
          let index := (series_drop_duplicates s).*1 in
          df ← lift (reset_index (loc df index));
          print (Header "Testing");;
          mret df
        else
          print (Header "Real run");;
          mret df);
  print (Shape (len df) (Z.of_nat (length (columns df))));;
  print (Columns (columns df));;
  mret df.

(** ** [get_mofdict] *)

(** The column set reported for a mode selector. *)
Definition mof_columns_of (mof_type : string) : result (list string) :=
  if decide (mof_type = "id") then Ok ["id2mof"]
  else if decide (mof_type = "cats") then Ok ["metal_node"; "organic_core"; "topology"]
  else if decide (mof_type = "all") then
    Ok ["metal_node"; "organic_core"; "topology"; "id2mof"]
  else Raise (ValueError (mof_type ++ " not understood!")%string).

(** One turn of the loop over [sub_df.iterrows()]. *)
Definition registry_step (cols : list string)
    (acc : gmap cell mof * gmap mof cell) (row : Z * list cell)
    : result (gmap cell mof * gmap mof cell) :=
  metal ← row_get cols "metal_node" row.2;
  core ← row_get cols "organic_core" row.2;
  topo ← row_get cols "topology" row.2;
  let mof := (metal, core, topo) in
  id ← row_get cols "id2mof" row.2;
  Ok (<[id := mof]> acc.1, <[mof := id]> acc.2).

Fixpoint registry_loop (cols : list string)
    (acc : gmap cell mof * gmap mof cell) (l : list (Z * list cell))
    : result (gmap cell mof * gmap mof cell) :=
  match l with
  | [] => Ok acc
  | row :: l' => acc' ← registry_step cols acc row; registry_loop cols acc' l'
  end.

Definition get_mofdict (df : DataFrame) (mof_type : string)
    : M (gmap cell mof * gmap mof cell * list string) :=
  mof_columns ← lift (mof_columns_of mof_type);
  s ← lift (getitem df "id2mof");
  let index := (series_drop_duplicates s).*1 in
  sub_df ← lift (sort_values (loc df index) "id2mof");
  maps ← lift (registry_loop (columns sub_df) (∅, ∅) (rows sub_df));
  let '(ids2mof, mof2ids) := maps in
  print (FoundMofs (Z.of_nat (size mof2ids)));;
  mret (ids2mof, mof2ids, mof_columns).

(** ** [get_prop_df] *)

(** [mapM] for computations that may raise: stops at the first exception. *)
Fixpoint traverse {A B : Type} (f : A → result B) (l : list A) : result (list B) :=
  match l with
  | [] => Ok []
  | x :: l' => y ← f x; ys ← traverse f l'; Ok (y :: ys)
  end.

(** [df.sample(n=n)]: [drawn] holds the row positions the sampler picked. *)
Definition sample (df : DataFrame) (n : Z) (drawn : list nat) : result DataFrame :=
  if len df <? n
  then Raise (ValueError "Cannot take a larger sample than population when 'replace=False'")
  else Ok (mkDF (columns df) (omap (λ i, rows df !! i) drawn)).

Definition is_bool (c : cell) : bool :=
  match c with
  | VBool _ => true
  | _ => false
  end.

Definition is_nan (c : cell) : bool :=
  match c with
  | VFloat S754_nan => true
  | _ => false
  end.

(** The integer a float is equal to, if there is one. *)
Definition float_label (f : spec_float) : option Z :=
  match f with
  | S754_zero _ => Some 0
  | S754_finite s m e =>
      let magnitude :=
        if 0 <=? e then Some (Z.pos m * 2 ^ e)
        else if Z.pos m mod 2 ^ (- e) =? 0 then Some (Z.pos m / 2 ^ (- e))
        else None in
      (λ z, if s then - z else z) <$> magnitude
  | S754_infinity _ | S754_nan => None
  end.

(** The row label a value stands for when it is looked up in an index of
    integers: numbers are compared by value, so that [1], [1.0] and [True]
    all find the label 1; a string, a NaN and a fraction find nothing. *)
Definition label_of (c : cell) : option Z :=
  match c with
  | VInt z => Some z
  | VBool b => Some (Z.b2z b)
  | VFloat f => float_label f
  | VStr _ => None
  end.

(** One value of a list of labels given to [df.loc]. *)
Definition row_label (idx : list Z) (c : cell) : result Z :=
  match label_of c with
  | Some l => if decide (l ∈ idx) then Ok l else Raise (KeyError_label c)
  | None => Raise (KeyError_label c)
  end.

(** [df.query('mask')].  The expression is the name of a column, and the
    result is [df.loc[df['mask']]]; what [loc] does depends on what the
    column holds:
    - booleans only (dtype [bool]): the column is a row mask;
    - booleans next to missing values (dtype [object]): [ValueError];
    - anything else (integers, floats, strings): the column is a list of
      row labels, each of which is looked up in the index, and a value
      that is no label of the frame is a [KeyError]. *)
Definition query_mask (df : DataFrame) : result DataFrame :=
  match col_pos "mask" (columns df) with
  | None => Raise (UndefinedVariableError "mask")
  | Some i =>
      let s := map (λ r, at_pos i r.2) (rows df) in
      if forallb is_bool s then
        Ok (bool_index df (map (λ c, bool_decide (c = VBool true)) s))
      else if forallb (λ c, is_bool c || is_nan c) s && existsb is_bool s then
        Raise (ValueError "Cannot mask with non-boolean array containing NA / NaN values")
      else
        labels ← traverse (row_label (index df)) s;
        Ok (loc df labels)
  end.

(** [df[mof_cols]] read row by row as tuples. *)
Definition get_mofs (df : DataFrame) : result (list mof) :=
  match col_pos "metal_node" (columns df),
        col_pos "organic_core" (columns df),
        col_pos "topology" (columns df) with
  | Some i, Some j, Some k =>
      Ok (map (λ r, (at_pos i r.2, at_pos j r.2, at_pos k r.2)) (rows df))
  | None, _, _ => Raise (KeyError_column "metal_node")
  | _, None, _ => Raise (KeyError_column "organic_core")
  | _, _, None => Raise (KeyError_column "topology")
  end.

(** [tuple(x) in mof2ids.keys()] *)
Definition valid_mof (mof2ids : gmap mof cell) (x : mof) : bool :=
  bool_decide (x ∈ dom mof2ids).

(** [mof2ids[tuple(x)]] *)
Definition lookup_id (mof2ids : gmap mof cell) (x : mof) : result cell :=
  match mof2ids !! x with
  | Some id => Ok id
  | None => Raise (KeyError_dict x)
  end.

(** [sum] of a list of booleans. *)
Definition sum_bools (l : list bool) : Z := foldl (λ acc b, acc + Z.b2z b) 0 l.

(** The float 200.0. *)
Definition bound : spec_float := S754_finite false 7036874417766400 (-45).

(** [x < 200.0] on one cell of a numeric column. *)
Definition lt_bound (c : cell) : result bool :=
  match c with
  | VFloat f => Ok (SFltb f bound)
  | VInt z => Ok (z <? 200)
  | VBool _ => Ok true
  | VStr _ => Raise (TypeError "'<' not supported between instances of 'str' and 'float'")
  end.

(** [df[df[c] < 200.0]] *)
Definition keep_below_bound (df : DataFrame) (c : string) : result DataFrame :=
  s ← getitem df c;
  m ← traverse (λ x : Z * cell, lt_bound x.2) s;
  Ok (bool_index df m).

(** Lines 164-169: load, and in test mode sample 1000 rows. *)
Definition load_stage (csv_file : csv) (testing : bool) (drawn : list nat) : M DataFrame :=
  let df := read_csv csv_file in
  if testing then
    df ← lift (sample df 1000 drawn);
    let df := reset_index_drop df in
    print (Header "Testing");;
    mret df
  else
    print (Header "Real run");;
    mret df.

(** Lines 171-174: attach the score of every SMILES string. *)
Definition scscore_stage (get_score : cell → cell) (smiles_column : string)
    (compute_scscore : bool) (df : DataFrame) : M DataFrame :=
  if compute_scscore then
    s ← lift (getitem df smiles_column);
    mret (set_col df "scscore" (map (λ x : Z * cell, get_score x.2) s))
  else mret df.

(** Line 176: every target is a column. *)
Definition assert_targets (targets : list string) (df : DataFrame) : M unit :=
  if forallb (λ t, bool_decide (t ∈ columns df)) targets then mret tt
  else raise (AssertionError "targets not in df!").

(** Lines 178-180: the mask filter. *)
Definition mask_stage (df : DataFrame) : M DataFrame :=
  masked ← lift (query_mask df);
  let n_remove := len df - len masked in
  print (RemovedMask n_remove);;
  masked ← lift (query_mask df);
  mret (reset_index_drop masked).

(** What [df[mof_cols].apply(f, axis=1)] gives for a function [f] that
    returns a scalar: a column with one value per row or, on a frame
    without rows when [f] fails, the frame itself. *)
Inductive applied : Type :=
  | AppliedColumn (values : list cell)
  | AppliedFrame.

(** [df[mof_cols].apply(lambda x: mof2ids[tuple(x)], axis=1)], given the
    tuples of the rows.  On a frame without rows [apply] calls the function
    once, on a row of NaN, to see what kind of value it returns.  No key of
    a dictionary is equal to that tuple (a NaN is not equal to a NaN), so
    the lookup raises [KeyError]; [apply] swallows the exception and
    returns a copy of the frame. *)
Definition apply_lookup (mof2ids : gmap mof cell) (mofs : list mof) : result applied :=
  match mofs with
  | [] => Ok AppliedFrame
  | _ :: _ => ids ← traverse (lookup_id mof2ids) mofs; Ok (AppliedColumn ids)
  end.

(** [df[c] = value] for what [apply] returned: a column is stored, a frame
    of three columns cannot be stored under one label. *)
Definition setitem (df : DataFrame) (c : string) (value : applied) : result DataFrame :=
  match value with
  | AppliedColumn values => Ok (set_col df c values)
  | AppliedFrame =>
      Raise (ValueError "Cannot set a DataFrame with multiple columns to the single column")
  end.

(** Lines 182-187: the identity filter and the canonical id column.  On a
    frame without rows [valid_mofs_list] is empty, [df[valid_mofs_list]]
    has no columns and the second [df[mof_cols]] raises [KeyError]. *)
Definition identity_stage (mof2ids : gmap mof cell) (df : DataFrame) : M DataFrame :=
  mofs ← lift (get_mofs df);
  let valid_mofs_list := map (valid_mof mof2ids) mofs in
  let n_remove := len df - sum_bools valid_mofs_list in
  let df := reset_index_drop (getitem_bools df valid_mofs_list) in
  mofs ← lift (get_mofs df);
  ids ← lift (apply_lookup mof2ids mofs);
  df ← lift (setitem df "id2mof" ids);
  print (RemovedMof n_remove);;
  mret df.

(** Lines 194-199: the outlier filter on the two selectivities. *)
Definition outlier_stage (df : DataFrame) : M DataFrame :=
  let n_remove := len df in
  df ← lift (keep_below_bound df "co2n2_selectivity");
  df ← lift (keep_below_bound df "co2ch4_selectivity");
  let df := reset_index_drop df in
  let n_remove := n_remove - len df in
  print (RemovedSelectivity n_remove);;
  mret df.

(** [drawn] stands for the random choice of [df.sample], [get_score] for
    the restored [SCScorer]. *)
Definition get_prop_df (drawn : list nat) (get_score : cell → cell)
    (csv_file : csv) (targets : list string) (mof2ids : gmap mof cell)
    (testing : bool) (smiles_column : string) (compute_scscore : bool)
    : M DataFrame :=
  df ← load_stage csv_file testing drawn;
  df ← scscore_stage get_score smiles_column compute_scscore df;
  assert_targets targets df;;
  df ← mask_stage df;
  df ← identity_stage mof2ids df;
  outlier_stage df.

(** ** [predict_properties] *)

(** Modelled from the spec: [utils.chunks] is not among the sources at
    hand.  The spec has it partition the input sequence into contiguous
    chunks of [batch_size], the last chunk possibly smaller: chunk [k] is
    the slice [l[k*n : k*n + n]], for [k*n] ranging below [len(l)]. *)
Definition chunks {A : Type} (l : list A) (n : nat) : list (list A) :=
  map (λ k, take n (drop (k * n) l)) (seq 0 ((length l + n - 1) / n)).

(** [np.stack] of a list of rows of one shape: the list must not be empty. *)
Definition np_stack {Row : Type} (l : list Row) : result (list Row) :=
  match l with
  | [] => Raise (ValueError "need at least one array to stack")
  | _ => Ok l
  end.

Section predict.
(** The collaborators: examples, the tensors of a batch, and the rows of
    a two-dimensional array of targets. *)
Context {Example XT MT ZT Row : Type}.

(** [trainer.get_collate_fn(model)]: [x_tensor], [mof_tensor], [y_tensor]. *)
Variable collate_fn : list Example → XT * MT * list Row.
(** [model.forward_encoder], second component. *)
Variable forward_encoder : XT → MT → ZT.
(** [model.z_to_y] *)
Variable z_to_y : ZT → list Row.
(** [model.y_scaler.inverse_transform] *)
Variable inverse_transform : list Row → list Row.

(** The body of the loop: both lists are extended by the rows of the
    chunk. *)
Definition predict_step (acc : list Row * list Row) (chunk : list Example)
    : list Row * list Row :=
  let '(y_true, y_pred) := acc in
  let '(x_tensor, mof_tensor, y_tensor) := collate_fn chunk in
  let z_tensor := forward_encoder x_tensor mof_tensor in
  let y_pred_tensor := z_to_y z_tensor in
  let y_pred_scaled := inverse_transform y_pred_tensor in
  let y_pred := y_pred ++ y_pred_scaled in
  let y_true_scaled := inverse_transform y_tensor in
  let y_true := y_true ++ y_true_scaled in
  (y_true, y_pred).

(** [n_loops] only sizes the progress bar. *)
Definition predict_properties (data : list Example) (batch_size : Z)
    : result (list Row * list Row) :=
  let n := Z.of_nat (length data) in
  if decide (batch_size = 0) then Raise ZeroDivisionError
  else
    let n_loops := - ((- n) / batch_size) in
    let '(y_true, y_pred) :=
      foldl predict_step ([], []) (chunks data (Z.to_nat batch_size)) in
    y_pred ← np_stack y_pred;
    y_true ← np_stack y_true;
    Ok (y_pred, y_true).
End predict.

(** ** Reading one row *)

(** The identity tuple of a row. *)
Definition row_mof (cols : list string) (r : list cell) : result mof :=
  metal ← row_get cols "metal_node" r;
  core ← row_get cols "organic_core" r;
  topo ← row_get cols "topology" r;
  Ok (metal, core, topo).

(** The identity tuple of the row is a key of the registry. *)
Definition has_valid_mof (mof2ids : gmap mof cell) (cols : list string)
    (r : list cell) : bool :=
  match row_mof cols r with
  | Ok t => valid_mof mof2ids t
  | Raise _ => false
  end.

(** The row holds, under label [c], a value strictly below 200.0. *)
Definition below_bound (cols : list string) (c : string) (r : list cell) : bool :=
  bool_decide (row_get cols c r ≫= lt_bound = Ok true).

(** No identity tuple occurs in the frame with two different ids. *)
Definition triple_determines_id (df : DataFrame) : Prop :=
  ∀ r r' t id id',
    r ∈ rows df → r' ∈ rows df →
    row_mof (columns df) r.2 = Ok t → row_mof (columns df) r'.2 = Ok t →
    row_get (columns df) "id2mof" r.2 = Ok id →
    row_get (columns df) "id2mof" r'.2 = Ok id' →
    id = id'.

(** ** [get_y_true] *)

Section y_true.
(** An example, and the component [t[2]] that holds its targets. *)
Context {Example Row : Type}.
Variable item2 : Example → Row.
(** [model.y_scaler.inverse_transform] *)
Variable inverse_transform : list Row → list Row.

Definition get_y_true (data : list Example) : result (list Row) :=
  y_true ← np_stack (map item2 data);
  Ok (inverse_transform y_true).
End y_true.

(** ** [regression_statistics] *)

(** An [OrderedDict] with string keys, as the list of its items in
    insertion order: [d[k] = v] replaces the value of a key that is there
    and appends a new key. *)
Fixpoint od_set {V : Type} (k : string) (v : V) (d : list (string * V))
    : list (string * V) :=
  match d with
  | [] => [(k, v)]
  | (k', v') :: d' =>
      if decide (k = k') then (k, v) :: d' else (k', v') :: od_set k v d'
  end.

(** [d[k]], if the key is there. *)
Fixpoint od_get {V : Type} (k : string) (d : list (string * V)) : option V :=
  match d with
  | [] => None
  | (k', v') :: d' => if decide (k = k') then Some v' else od_get k d'
  end.

(** [pd.DataFrame(records)] for a list of dictionaries: the columns are the
    keys in the order they first appear, the rows are labelled 0, 1, 2, ...
    and a key a record lacks reads as NaN. *)
Definition frame_of_records (records : list (list (string * cell))) : DataFrame :=
  let cols := first_occurrences (λ k : string, k) [] (records ≫= (λ d, d.*1)) in
  mkDF cols
       (imap (λ i d, (Z.of_nat i, map (λ c, default nan (od_get c d)) cols)) records).

Section regression.
(** The metrics of [sklearn.metrics], on two columns of binary64 floats. *)
Variable r2_score mean_absolute_error mean_squared_error :
  list spec_float → list spec_float → spec_float.

(** The body of the loop.  The two arrays are held by columns, so that
    [y[:, index]] is the lookup of column [index]; [None] stands for the
    [IndexError] of a column the array does not have. *)
Definition statistics_of (y_true y_pred : list (list spec_float)) (prefix : string)
    (index : nat) (col : string) : option (list (string * cell)) :=
  let result := [("label", VStr col)] in
  t ← y_true !! index; p ← y_pred !! index;
  let result := od_set (prefix ++ "R2")%string (VFloat (r2_score t p)) result in
  t ← y_true !! index; p ← y_pred !! index;
  let result := od_set (prefix ++ "MAE")%string (VFloat (mean_absolute_error t p)) result in
  t ← y_true !! index; p ← y_pred !! index;
  let result :=
    od_set (prefix ++ "RMSE")%string
      (VFloat (SFsqrt 53 1024 (mean_squared_error t p))) result in
  Some result.

(** The dictionary of one target, written out. *)
Definition statistics_row (t p : list spec_float) (prefix col : string)
    : list (string * cell) :=
  [ ("label", VStr col);
    ((prefix ++ "R2")%string, VFloat (r2_score t p));
    ((prefix ++ "MAE")%string, VFloat (mean_absolute_error t p));
    ((prefix ++ "RMSE")%string, VFloat (SFsqrt 53 1024 (mean_squared_error t p))) ].

Definition regression_statistics (y_true y_pred : list (list spec_float))
    (targets : list string) (prefix : string) : option DataFrame :=
  results ← mapM (λ ic : nat * string, statistics_of y_true y_pred prefix ic.1 ic.2)
               (imap (λ index col, (index, col)) targets);
  Some (frame_of_records results).
End regression.

(** ** What [get_prop_df] keeps *)

(** The postcondition on a selectivity in the words of the specification:
    the cell holds a number that is strictly less than 200.0 (a boolean
    counts as 0 or 1, a string is no number). *)
Definition strictly_below_200 (c : cell) : Prop :=
  match c with
  | VFloat f => SFltb f bound = true
  | VInt z => z < 200
  | VBool _ => True
  | VStr _ => False
  end.

(** The row passes the three filters of [get_prop_df]. *)
Definition survives (mof2ids : gmap mof cell) (cols : list string) (r : list cell) : bool :=
  bool_decide (row_get cols "mask" r = Ok (VBool true))
  && has_valid_mof mof2ids cols r
  && below_bound cols "co2n2_selectivity" r
  && below_bound cols "co2ch4_selectivity" r.

(** Lines 164-174 of [get_prop_df]: the frame the filters start from. *)
Definition loaded_frame (drawn : list nat) (get_score : cell → cell)
    (csv_file : csv) (testing : bool) (smiles_column : string)
    (compute_scscore : bool) : M DataFrame :=
  df ← load_stage csv_file testing drawn;
  scscore_stage get_score smiles_column compute_scscore df.

(** ** Auxiliary definitions for the proofs *)

(** The rows the identity filter keeps, renumbered. *)
Definition kept_by_identity (mof2ids : gmap mof cell) (df : DataFrame) : DataFrame :=
  reset_index_drop
    (mkDF (columns df)
       (filter (λ r, has_valid_mof mof2ids (columns df) r.2 = true) (rows df))).

(** The exception is the missing-key [KeyError] of a dictionary. *)
Definition is_dict_error (e : exn) : bool :=
  match e with
  | KeyError_dict _ => true
  | _ => false
  end.

(** The dictionaries after a run of the loop over the pairs (id, tuple). *)
Definition registry_of (kvs : list (cell * mof)) : gmap cell mof * gmap mof cell :=
  foldl (λ acc kv, (<[kv.1 := kv.2]> acc.1, <[kv.2 := kv.1]> acc.2)) (∅, ∅) kvs.

(** ** Sample inputs *)

(** The float 1.0. *)
Definition one : spec_float := S754_finite false 4503599627370496 (-52).

(** A file of four rows whose first is the only one to pass all filters. *)
Definition sample_file : csv :=
  mkCsv ["SMILES"; "metal_node"; "organic_core"; "topology"; "mask";
         "co2n2_selectivity"; "co2ch4_selectivity"]
    [ [VStr "C"; VStr "Zn"; VStr "c1"; VStr "pcu"; VBool true; VInt 3; VInt 5];
      [VStr "CC"; VStr "Zn"; VStr "c1"; VStr "pcu"; VBool true; VFloat bound; VInt 5];
      [VStr "CO"; VStr "Zn"; VStr "c1"; VStr "pcu"; VBool false; VInt 3; VInt 5];
      [VStr "CN"; VStr "Cu"; VStr "c1"; VStr "pcu"; VBool true; VInt 3; VInt 5] ].

(** A file whose mask column holds the integers 1, 0, 1 instead of
    booleans. *)
Definition integer_mask_file : csv :=
  mkCsv ["SMILES"; "metal_node"; "organic_core"; "topology"; "mask";
         "co2n2_selectivity"; "co2ch4_selectivity"]
    [ [VStr "C"; VStr "Zn"; VStr "c1"; VStr "pcu"; VInt 1; VInt 3; VInt 5];
      [VStr "CC"; VStr "Zn"; VStr "c1"; VStr "pcu"; VInt 0; VInt 3; VInt 5];
      [VStr "CO"; VStr "Zn"; VStr "c1"; VStr "pcu"; VInt 1; VInt 3; VInt 5] ].

(** A file whose only row has an identity the sample registry lacks, and a
    file whose only row is masked out. *)
Definition unknown_mof_file : csv :=
  mkCsv ["SMILES"; "metal_node"; "organic_core"; "topology"; "mask";
         "co2n2_selectivity"; "co2ch4_selectivity"]
    [ [VStr "CN"; VStr "Cu"; VStr "c1"; VStr "pcu"; VBool true; VInt 3; VInt 5] ].

Definition masked_out_file : csv :=
  mkCsv ["SMILES"; "metal_node"; "organic_core"; "topology"; "mask";
         "co2n2_selectivity"; "co2ch4_selectivity"]
    [ [VStr "C"; VStr "Zn"; VStr "c1"; VStr "pcu"; VBool false; VInt 3; VInt 5] ].

(** A registry that knows one identity. *)
Definition sample_registry : gmap mof cell :=
  {[ (VStr "Zn", VStr "c1", VStr "pcu") := VInt 7 ]}.

(** What [get_prop_df] returns for [sample_file] and [sample_registry]. *)
Definition sample_result : DataFrame :=
  mkDF ["SMILES"; "metal_node"; "organic_core"; "topology"; "mask";
        "co2n2_selectivity"; "co2ch4_selectivity"; "id2mof"]
    [ (0, [VStr "C"; VStr "Zn"; VStr "c1"; VStr "pcu"; VBool true; VInt 3; VInt 5; VInt 7]) ].

(** A frame whose first row sits exactly on the bound. *)
Definition boundary_frame : DataFrame :=
  mkDF ["co2n2_selectivity"; "co2ch4_selectivity"]
    [ (0, [VFloat bound; VFloat one]); (1, [VFloat one; VFloat one]) ].

(** A reference table in which ids and tuples correspond one to one. *)
Definition sample_reference : DataFrame :=
  mkDF ["metal_node"; "organic_core"; "topology"; "id2mof"]
    [ (0, [VStr "Zn"; VStr "c1"; VStr "pcu"; VInt 2]);
      (1, [VStr "Cu"; VStr "c1"; VStr "pcu"; VInt 1]);
      (2, [VStr "Zn"; VStr "c1"; VStr "pcu"; VInt 2]) ].

(** The two dictionaries [get_mofdict] builds from [sample_reference]. *)
Definition sample_ids2mof : gmap cell mof :=
  <[VInt 1 := (VStr "Cu", VStr "c1", VStr "pcu")]>
    (<[VInt 2 := (VStr "Zn", VStr "c1", VStr "pcu")]> ∅).

Definition sample_mof2ids : gmap mof cell :=
  <[(VStr "Cu", VStr "c1", VStr "pcu") := VInt 1]>
    (<[(VStr "Zn", VStr "c1", VStr "pcu") := VInt 2]> ∅).

(** A reference table in which one tuple comes with two ids. *)
Definition shared_tuple_reference : DataFrame :=
  mkDF ["metal_node"; "organic_core"; "topology"; "id2mof"]
    [ (0, [VStr "Zn"; VStr "c1"; VStr "pcu"; VInt 1]);
      (1, [VStr "Zn"; VStr "c1"; VStr "pcu"; VInt 2]) ].

(** A frame whose two rows carry the same index label. *)
Definition repeated_label_reference : DataFrame :=
  mkDF ["metal_node"; "organic_core"; "topology"; "id2mof"]
    [ (0, [VStr "Zn"; VStr "c1"; VStr "pcu"; VInt 1]);
      (0, [VStr "Cu"; VStr "c1"; VStr "pcu"; VInt 1]) ].

(** A file in which two rows share a SMILES string but not the id. *)
Definition shared_smiles_file : csv :=
  mkCsv ["SMILES"; "id2mof"]
    [ [VStr "C"; VInt 1]; [VStr "C"; VInt 2]; [VStr "CC"; VInt 1] ].

(** Stand-ins for the trainer and the model: an example is its own feature
    and target, the decoder doubles, the scaler adds one. *)
Definition toy_collate (chunk : list Z) : list Z * list Z * list Z := (chunk, chunk, chunk).
Definition toy_encoder (x mof : list Z) : list Z := x.
Definition toy_decoder (z : list Z) : list Z := map (Z.mul 2) z.
Definition toy_scaler (y : list Z) : list Z := map Z.succ y.

(** A stand-in for a metric of [sklearn.metrics]: the first true value. *)
Definition toy_metric (t p : list spec_float) : spec_float := default S754_nan (head t).

(** * Properties *)

Ltac in_list := first [left | right; in_list].

(** ** Reasoning about the monad *)

Lemma result_bind_Ok {A B : Type} (m : result A) (f : A → result B) (b : B) :
  m ≫= f = Ok b → ∃ a, m = Ok a ∧ f a = Ok b.
Proof. destruct m as [a|e]; [eauto | discriminate]. Qed.

Lemma result_bind_Raise {A B : Type} (m : result A) (f : A → result B) (e : exn) :
  m ≫= f = Raise e → m = Raise e ∨ ∃ a, m = Ok a ∧ f a = Raise e.
Proof. destruct m as [a|e']; simpl; intros H; [right; eauto | left; congruence]. Qed.

Lemma M_bind_Ok {A B : Type} (m : M A) (f : A → M B) log (b : B) log' :
  (m ≫= f) log = Ok (b, log') →
  ∃ a log1, m log = Ok (a, log1) ∧ f a log1 = Ok (b, log').
Proof.
  unfold mbind, M_bind. destruct (m log) as [[a log1]|e]; [eauto | discriminate].
Qed.

Lemma M_bind_Raise {A B : Type} (m : M A) (f : A → M B) log (e : exn) :
  (m ≫= f) log = Raise e →
  m log = Raise e ∨ ∃ a log1, m log = Ok (a, log1) ∧ f a log1 = Raise e.
Proof.
  unfold mbind, M_bind. destruct (m log) as [[a log1]|e']; intros H; [right; eauto | left; congruence].
Qed.

Lemma lift_Ok {A : Type} (r : result A) log (a : A) log' :
  lift r log = Ok (a, log') → r = Ok a ∧ log' = log.
Proof. destruct r; simpl; intros [=]; subst; auto. Qed.

Lemma lift_Raise {A : Type} (r : result A) log (e : exn) :
  lift r log = Raise e → r = Raise e.
Proof. destruct r; simpl; intros [=]; subst; auto. Qed.

Lemma print_Ok (ev : event) log (u : unit) log' :
  print ev log = Ok (u, log') → log' = log ++ [ev].
Proof. unfold print. intros [=]; auto. Qed.

Lemma mret_Ok {A : Type} (a : A) log (b : A) log' :
  (mret a : M A) log = Ok (b, log') → b = a ∧ log' = log.
Proof. unfold mret, M_ret. intros [=]; auto. Qed.

(** Splits a successful run along its binds, lifts and prints. *)
Ltac inv_run :=
  repeat match goal with
  | H : (_ ≫= _) _ = Ok (_, _) |- _ =>
      apply M_bind_Ok in H; destruct H as (? & ? & ? & H)
  | H : lift _ _ = Ok (_, _) |- _ => apply lift_Ok in H; destruct H as [H ?]; subst
  | H : print _ _ = Ok (_, _) |- _ => apply print_Ok in H; subst
  | H : mret _ _ = Ok (_, _) |- _ => apply mret_Ok in H; destruct H as [? ?]; subst
  | H : _ ≫= _ = Ok _ |- _ =>
      apply result_bind_Ok in H; destruct H as (? & ? & H)
  | H : Ok _ = Ok _ |- _ => injection H as ?; subst
  end.

(** ** Columns and cells *)

Lemma col_pos_Some c cols i : col_pos c cols = Some i → cols !! i = Some c.
Proof.
  revert i. induction cols as [|c' cols IH]; intros i; simpl; [discriminate|].
  case_decide; [intros [= <-]; subst; reflexivity|].
  destruct (col_pos c cols) as [j|]; simpl; [|discriminate].
  intros [= <-]. simpl. auto.
Qed.

Lemma col_pos_None c cols : col_pos c cols = None ↔ c ∉ cols.
Proof.
  induction cols as [|c' cols IH]; simpl.
  - split; [intros _; apply not_elem_of_nil | reflexivity].
  - case_decide; subst.
    + split; [discriminate | intros []; left].
    + rewrite not_elem_of_cons. destruct (col_pos c cols); simpl.
      * split; [discriminate|]. intros [_ Hn]. apply IH in Hn. discriminate.
      * split; [|reflexivity]. intros _. split; [assumption | apply IH; reflexivity].
Qed.

Lemma col_pos_is_Some c cols : c ∈ cols → is_Some (col_pos c cols).
Proof.
  intros Hin. destruct (col_pos c cols) eqn:E; [eauto|].
  apply col_pos_None in E. contradiction.
Qed.

Lemma col_pos_lt c cols i : col_pos c cols = Some i → (i < length cols)%nat.
Proof. intros H. apply col_pos_Some in H. eapply lookup_lt_Some; eauto. Qed.

Lemma col_pos_app_ne c c' cols : c ≠ c' → col_pos c (cols ++ [c']) = col_pos c cols.
Proof.
  intros Hne. induction cols as [|d cols IH]; simpl.
  - case_decide; [contradiction | reflexivity].
  - case_decide; [reflexivity|]. rewrite IH. reflexivity.
Qed.

Lemma at_pos_fit n i r : (i < n)%nat → at_pos i (fit n r) = at_pos i r.
Proof.
  intros Hi. unfold at_pos, fit. rewrite lookup_take_lt by assumption.
  destruct (decide (i < length r)%nat) as [Hl|Hl].
  - rewrite lookup_app_l by assumption. reflexivity.
  - rewrite lookup_app_r by lia. rewrite (lookup_ge_None_2 r) by lia.
    rewrite lookup_replicate_2 by lia. reflexivity.
Qed.

Lemma length_fit n r : length (fit n r) = n.
Proof. unfold fit. rewrite length_take, length_app, length_replicate. lia. Qed.

(** ** Which exceptions the frame operations raise *)

Lemma getitem_Raise df c e : getitem df c = Raise e → e = KeyError_column c.
Proof. unfold getitem. destruct (col_pos c (columns df)); intros [=]; auto. Qed.

Lemma row_get_Raise cols c r e : row_get cols c r = Raise e → e = KeyError_column c.
Proof. unfold row_get. destruct (col_pos c cols); intros [=]; auto. Qed.

Lemma sort_values_Raise df c e :
  sort_values df c = Raise e → e = KeyError_column c ∨ ∃ msg, e = TypeError msg.
Proof.
  unfold sort_values. destruct (col_pos c (columns df)); [|intros [=]; auto].
  destruct (rows df); [discriminate|].
  case_match; [discriminate|]. intros [=]; eauto.
Qed.

Lemma registry_step_Raise cols acc row e :
  registry_step cols acc row = Raise e → ∃ c, e = KeyError_column c.
Proof.
  unfold registry_step. intros H.
  repeat (apply result_bind_Raise in H;
          destruct H as [H|(? & _ & H)]; [apply row_get_Raise in H; eauto|]).
  discriminate.
Qed.

Lemma registry_loop_Raise cols acc l e :
  registry_loop cols acc l = Raise e → ∃ c, e = KeyError_column c.
Proof.
  revert acc. induction l as [|row l IH]; intros acc; simpl; [discriminate|].
  intros H. apply result_bind_Raise in H. destruct H as [H|(acc' & _ & H)].
  - eapply registry_step_Raise; eauto.
  - eapply IH; eauto.
Qed.

Lemma mof_columns_of_Raise mof_type e :
  mof_columns_of mof_type = Raise e ↔
  ((mof_type ∉ ["id"; "cats"; "all"]) ∧
   e = ValueError (mof_type ++ " not understood!")%string).
Proof.
  unfold mof_columns_of. rewrite !not_elem_of_cons.
  repeat case_decide; subst; split; try discriminate; try tauto.
  - intros [=]; subst. split; [|reflexivity]. repeat split; auto. apply not_elem_of_nil.
  - intros [_ ->]. reflexivity.
Qed.

(** ** [get_mofdict]: the mode selector *)

(** C6. [get_mofdict] raises [ValueError] exactly when the mode selector
    [mof_type] is none of ['id'], ['cats'] and ['all']: with one of these
    three values no step of the function raises that exception, and with
    any other value the function raises it at once. *)
Theorem get_mofdict_ValueError_iff (df : DataFrame) (mof_type : string) :
  (∃ msg, run (get_mofdict df mof_type) = Raise (ValueError msg)) ↔
  mof_type ∉ ["id"; "cats"; "all"].
Proof.
  unfold run, get_mofdict. split.
  - intros [msg H].
    apply M_bind_Raise in H. destruct H as [H|(cols & l1 & _ & H)].
    { apply lift_Raise, mof_columns_of_Raise in H. tauto. }
    apply M_bind_Raise in H. destruct H as [H|(s & l2 & _ & H)].
    { apply lift_Raise, getitem_Raise in H. discriminate. }
    apply M_bind_Raise in H. destruct H as [H|(sub_df & l3 & _ & H)].
    { apply lift_Raise, sort_values_Raise in H. destruct H as [H|[? H]]; discriminate. }
    apply M_bind_Raise in H. destruct H as [H|([i2m m2i] & l4 & _ & H)].
    { apply lift_Raise, registry_loop_Raise in H. destruct H as [? H]; discriminate. }
    apply M_bind_Raise in H. destruct H as [H|(? & ? & _ & H)]; discriminate.
  - intros Hn. exists (mof_type ++ " not understood!")%string.
    assert (mof_columns_of mof_type = Raise (ValueError (mof_type ++ " not understood!")%string)) as E
      by (apply mof_columns_of_Raise; auto).
    unfold mbind, M_bind. rewrite E. reflexivity.
Qed.

(** ** [get_generator_df]: the SMILES column *)

Lemma rename_absent df old new : old ∉ columns df → rename df old new = df.
Proof.
  intros Hn. destruct df as [cols rs]. unfold rename. simpl in *. f_equal.
  induction cols as [|c cols IH]; simpl; [reflexivity|].
  apply not_elem_of_cons in Hn. destruct Hn as [Hne Hn].
  case_decide; [congruence|]. rewrite IH by assumption. reflexivity.
Qed.





(** ** [predict_properties] *)

Lemma concat_chunks_take {A : Type} (l : list A) (n m : nat) :
  concat (map (λ k, take n (drop (k * n) l)) (seq 0 m)) = take (m * n) l.
Proof.
  induction m as [|m IH].
  - reflexivity.
  - rewrite seq_S, map_app, concat_app, IH. simpl.
    rewrite app_nil_r, take_take_drop. f_equal. lia.
Qed.

Lemma chunks_cover (len n : nat) : (0 < n)%nat → (len ≤ (len + n - 1) / n * n)%nat.
Proof.
  intros Hn.
  pose proof (Nat.div_mod_eq (len + n - 1) n) as E.
  pose proof (Nat.mod_upper_bound (len + n - 1) n ltac:(lia)) as Hm.
  nia.
Qed.

(** The chunks, put end to end, are the input. *)
Lemma concat_chunks {A : Type} (l : list A) (n : nat) :
  (0 < n)%nat → concat (chunks l n) = l.
Proof.
  intros Hn. unfold chunks. rewrite concat_chunks_take.
  apply take_ge. apply chunks_cover. assumption.
Qed.

Lemma chunks_nil {A : Type} (n : nat) : chunks (@nil A) n = [].
Proof.
  unfold chunks. simpl length.
  assert ((0 + n - 1) / n = 0)%nat as ->; [|reflexivity].
  destruct n as [|n]; [reflexivity|]. apply Nat.div_small. lia.
Qed.

(** When the length is no multiple of the chunk size, the last chunk holds
    the remainder. *)
Lemma last_chunk_length {A : Type} (l : list A) (n : nat) :
  (0 < n)%nat → (length l mod n ≠ 0)%nat →
  ∃ c, last (chunks l n) = Some c ∧ length c = (length l mod n)%nat.
Proof.
  intros Hn Hr. unfold chunks.
  pose proof (Nat.div_mod_eq (length l) n) as E.
  pose proof (Nat.mod_upper_bound (length l) n ltac:(lia)) as Hm.
  assert ((length l + n - 1) / n = S (length l / n))%nat as ->.
  { symmetry. apply (Nat.div_unique _ _ _ (length l mod n - 1)); lia. }
  rewrite seq_S, map_app. simpl. rewrite last_snoc.
  eexists; split; [reflexivity|].
  rewrite length_take, length_drop. nia.
Qed.

Section predict_facts.
Context {Example XT MT ZT Row : Type}.
Variable collate_fn : list Example → XT * MT * list Row.
Variable forward_encoder : XT → MT → ZT.
Variable z_to_y : ZT → list Row.
Variable inverse_transform : list Row → list Row.

(** C10. On an empty input sequence [predict_properties] returns no pair
    of empty arrays: no chunk is processed, both result lists stay empty,
    and [np.stack] of the empty list raises [ValueError] (with a batch
    size of zero the division raises before that). *)
Theorem predict_properties_empty (batch_size : Z) :
  predict_properties collate_fn forward_encoder z_to_y inverse_transform [] batch_size =
  if decide (batch_size = 0) then Raise ZeroDivisionError
  else Raise (ValueError "need at least one array to stack").
Proof.
  unfold predict_properties. case_decide; [reflexivity|].
  rewrite chunks_nil. reflexivity.
Qed.

(** Row by row: what the collaborators make of one example. *)
Variable pred_row true_row : Example → Row.

(** The collaborators turn example [i] of a batch into row [i] of their
    output. *)
Hypothesis pred_rowwise : ∀ chunk,
  inverse_transform
    (z_to_y (forward_encoder (collate_fn chunk).1.1 (collate_fn chunk).1.2))
  = map pred_row chunk.
Hypothesis true_rowwise : ∀ chunk,
  inverse_transform (collate_fn chunk).2 = map true_row chunk.

Lemma predict_loop (cs : list (list Example)) (y_true y_pred : list Row) :
  foldl (predict_step collate_fn forward_encoder z_to_y inverse_transform)
        (y_true, y_pred) cs
  = (y_true ++ map true_row (concat cs), y_pred ++ map pred_row (concat cs)).
Proof.
  revert y_true y_pred. induction cs as [|c cs IH]; intros y_true y_pred.
  - simpl. rewrite !app_nil_r. reflexivity.
  - assert (predict_step collate_fn forward_encoder z_to_y inverse_transform
              (y_true, y_pred) c
            = (y_true ++ map true_row c, y_pred ++ map pred_row c)) as E.
    { unfold predict_step.
      specialize (pred_rowwise c). specialize (true_rowwise c).
      destruct (collate_fn c) as [[x m] y]. simpl in *.
      rewrite pred_rowwise, true_rowwise. reflexivity. }
    cbn [foldl]. rewrite E, IH. cbn [concat].
    rewrite !map_app, !app_assoc. reflexivity.
Qed.

(** C5, amended. For a non-empty input of N examples and a batch size
    B > 0, [predict_properties] returns two arrays of exactly N rows
    each, row [i] of each made from example [i]; this holds whether or
    not B divides N, and when it does not the last chunk processed holds
    N mod B examples. *)
Theorem predict_properties_rows (data : list Example) (batch_size : Z) :
  0 < batch_size → data ≠ [] →
  ∃ y_pred y_true,
    predict_properties collate_fn forward_encoder z_to_y inverse_transform
      data batch_size = Ok (y_pred, y_true) ∧
    length y_pred = length data ∧
    length y_true = length data ∧
    (∀ i x, data !! i = Some x →
       y_pred !! i = Some (pred_row x) ∧ y_true !! i = Some (true_row x)) ∧
    (Z.of_nat (length data) mod batch_size ≠ 0 →
       ∃ c, last (chunks data (Z.to_nat batch_size)) = Some c ∧
            Z.of_nat (length c) = Z.of_nat (length data) mod batch_size).
Proof.
  intros HB Hne. exists (map pred_row data), (map true_row data).
  split; [|split; [|split; [|split]]].
  - unfold predict_properties. case_decide; [lia|].
    rewrite predict_loop, concat_chunks by lia. simpl.
    destruct data as [|x data]; [contradiction | reflexivity].
  - apply length_map.
  - apply length_map.
  - intros i x Hx. rewrite !list_lookup_fmap, Hx. auto.
  - intros Hr.
    destruct (last_chunk_length data (Z.to_nat batch_size)) as (c & Hc & Hl).
    + lia.
    + intros E. apply Hr.
      rewrite <- (Z2Nat.id batch_size) by lia.
      rewrite <- Nat2Z.inj_mod, E. reflexivity.
    + exists c. split; [assumption|]. rewrite Hl.
      rewrite Nat2Z.inj_mod, Z2Nat.id by lia. reflexivity.
Qed.
End predict_facts.

(** ** Masks, filters and renumbering *)

Lemma traverse_length {A B : Type} (f : A → result B) l m :
  traverse f l = Ok m → length m = length l.
Proof.
  revert m. induction l as [|x l IH]; intros m; simpl.
  - intros [= <-]. reflexivity.
  - intros H. apply result_bind_Ok in H as (y & _ & H).
    apply result_bind_Ok in H as (ys & Hys & [= <-]).
    simpl. f_equal. apply IH. assumption.
Qed.

Lemma traverse_map {A B : Type} (f : A → result B) (g : A → B) l :
  (∀ x, x ∈ l → f x = Ok (g x)) → traverse f l = Ok (map g l).
Proof.
  induction l as [|x l IH]; intros H; simpl; [reflexivity|].
  rewrite (H x) by left. simpl. rewrite IH; [reflexivity|].
  intros y Hy. apply H. right. assumption.
Qed.

(** A mask computed row by row picks the rows on which it is true. *)
Lemma select_traverse {A : Type} (f : A → result bool) l m :
  traverse f l = Ok m → select l m = filter (λ x, f x = Ok true) l.
Proof.
  revert m. induction l as [|x l IH]; intros m; simpl.
  - intros [= <-]. reflexivity.
  - intros H. apply result_bind_Ok in H as (b & Hb & H).
    apply result_bind_Ok in H as (bs & Hbs & [= <-]). simpl.
    destruct b.
    + rewrite filter_cons_True by assumption. f_equal. apply IH. assumption.
    + rewrite filter_cons_False by congruence. apply IH. assumption.
Qed.

Lemma select_map {A : Type} (f : A → bool) l :
  select l (map f l) = filter (λ x, f x = true) l.
Proof.
  induction l as [|x l IH]; simpl; [reflexivity|].
  destruct (f x) eqn:E.
  - rewrite filter_cons_True by assumption. f_equal. assumption.
  - rewrite filter_cons_False by congruence. assumption.
Qed.

Lemma sum_bools_from {A : Type} (l : list A) (m : list bool) (a : Z) :
  length m = length l →
  foldl (λ acc b, acc + Z.b2z b) a m = a + Z.of_nat (length (select l m)).
Proof.
  revert m a. induction l as [|x l IH]; intros [|b m] a; simpl; try discriminate.
  - intros _. lia.
  - intros [= Hl]. rewrite IH by assumption. destruct b; simpl; lia.
Qed.

Lemma sum_bools_select {A : Type} (l : list A) (m : list bool) :
  length m = length l → sum_bools m = Z.of_nat (length (select l m)).
Proof. intros H. unfold sum_bools. rewrite (sum_bools_from l) by assumption. lia. Qed.

Lemma imap_cells {A : Type} (g : nat → A) (l : list (A * list cell)) :
  (imap (λ i r, (g i, r.2)) l).*2 = l.*2.
Proof.
  revert g. induction l as [|r l IH]; intros g; [reflexivity|].
  rewrite imap_cons. simpl. f_equal. apply (IH (g ∘ S)).
Qed.

Lemma reset_index_drop_cells df : (rows (reset_index_drop df)).*2 = (rows df).*2.
Proof. unfold reset_index_drop. simpl. apply (imap_cells (λ i, Z.of_nat i)). Qed.

Lemma imap_labels {A : Type} (g : nat → Z) (l : list A) :
  imap (λ n _, g n) l = map g (seq 0 (length l)).
Proof.
  revert g. induction l as [|x l IH]; intros g; [reflexivity|].
  rewrite imap_cons. simpl. f_equal.
  rewrite <- seq_shift, map_map. exact (IH (g ∘ S)).
Qed.

Lemma reset_index_drop_index df :
  index (reset_index_drop df) =
  map Z.of_nat (seq 0 (length (rows (reset_index_drop df)))).
Proof.
  unfold index, reset_index_drop. simpl. rewrite length_imap, fmap_imap.
  apply (imap_labels Z.of_nat).
Qed.

Lemma reset_index_drop_len df : len (reset_index_drop df) = len df.
Proof. unfold len, reset_index_drop. simpl. rewrite length_imap. reflexivity. Qed.

Lemma len_cells df : len df = Z.of_nat (length (rows df).*2).
Proof. unfold len. rewrite length_fmap. reflexivity. Qed.

Lemma row_get_at cols c i r : col_pos c cols = Some i → row_get cols c r = Ok (at_pos i r).
Proof. unfold row_get. intros ->. reflexivity. Qed.

Lemma traverse_Forall2 {A B : Type} (f : A → result B) l k :
  traverse f l = Ok k → Forall2 (λ x y, f x = Ok y) l k.
Proof.
  revert k. induction l as [|x l IH]; intros k; simpl.
  - intros [= <-]. constructor.
  - intros H. apply result_bind_Ok in H as (y & Hy & H).
    apply result_bind_Ok in H as (ys & Hys & [= <-]).
    constructor; [exact Hy | apply IH; exact Hys].
Qed.

Lemma Forall2_elem_of_r {A B : Type} (R : A → B → Prop) l k y :
  Forall2 R l k → y ∈ k → ∃ x, x ∈ l ∧ R x y.
Proof.
  induction 1 as [|x0 y0 l k Hxy _ IH]; intros Hin.
  - apply elem_of_nil in Hin. contradiction.
  - apply elem_of_cons in Hin as [->|Hin].
    + exists x0. split; [left | exact Hxy].
    + destruct (IH Hin) as (x & Hx & HR). exists x. split; [right|]; assumption.
Qed.

Lemma loc_elem_of df labels r : r ∈ rows (loc df labels) → r ∈ rows df.
Proof.
  unfold loc. simpl. intros H. apply list_elem_of_bind in H as (l & H & _).
  apply list_elem_of_filter in H as [_ H]. exact H.
Qed.

Lemma traverse_Raise {A B : Type} (f : A → result B) l e :
  traverse f l = Raise e → ∃ x, x ∈ l ∧ f x = Raise e.
Proof.
  induction l as [|x l IH]; simpl; [discriminate|].
  intros H. apply result_bind_Raise in H as [H|(y & _ & H)].
  - exists x. split; [left | assumption].
  - apply result_bind_Raise in H as [H|(ys & _ & H)]; [|discriminate].
    destruct (IH H) as (x' & Hx' & Hf). exists x'. split; [right|]; assumption.
Qed.

Lemma select_elem_of {A : Type} (l : list A) (m : list bool) x :
  x ∈ select l m → x ∈ l.
Proof.
  revert m. induction l as [|y l IH]; intros [|b m]; simpl;
    try (intros H; apply elem_of_nil in H; contradiction).
  destruct b.
  - intros H. apply elem_of_cons in H as [->|H]; [left | right; eapply IH; eauto].
  - intros H. right. eapply IH; eauto.
Qed.

Lemma select_length {A : Type} (l : list A) (m : list bool) :
  (length (select l m) ≤ length l)%nat.
Proof.
  revert m. induction l as [|y l IH]; intros [|b m]; simpl; try lia.
  specialize (IH m). destruct b; simpl; lia.
Qed.

Lemma filter_unique_label (rs : list (Z * list cell)) r :
  NoDup rs.*1 → r ∈ rs → filter (λ r', r'.1 = r.1) rs = [r].
Proof.
  induction rs as [|r0 rs IH]; intros Hnd Hr.
  - apply elem_of_nil in Hr. contradiction.
  - rewrite fmap_cons in Hnd. apply NoDup_cons in Hnd as [Hn Hnd].
    apply elem_of_cons in Hr as [->|Hr].
    + rewrite filter_cons_True by reflexivity. f_equal.
      destruct (filter (λ r', r'.1 = r0.1) rs) as [|x l] eqn:E; [reflexivity|].
      assert (x ∈ filter (λ r', r'.1 = r0.1) rs) as Hx by (rewrite E; left).
      apply list_elem_of_filter in Hx as [Hx1 Hx2].
      exfalso. apply Hn. rewrite <- Hx1. apply list_elem_of_fmap_2. assumption.
    + rewrite filter_cons_False; [apply IH; assumption|].
      intros E. apply Hn. rewrite E. apply list_elem_of_fmap_2. assumption.
Qed.

Lemma read_csv_index f : NoDup (index (read_csv f)).
Proof.
  unfold index, read_csv. simpl. rewrite fmap_imap.
  change (imap (λ n : nat, fst ∘ (λ r : list cell, (Z.of_nat n, r))) (records f))
    with (imap (λ (n : nat) (_ : list cell), Z.of_nat n) (records f)).
  rewrite (imap_labels Z.of_nat).
  apply (NoDup_fmap_2 Z.of_nat). apply NoDup_seq.
Qed.

Lemma boolean_column df i :
  col_pos "mask" (columns df) = Some i →
  (∀ r, r ∈ rows df → ∃ b, row_get (columns df) "mask" r.2 = Ok (VBool b)) →
  forallb is_bool (map (λ r, at_pos i r.2) (rows df)) = true.
Proof.
  intros Ei Hb. apply forallb_forall. intros c Hc.
  apply list_elem_of_In, list_elem_of_fmap in Hc as (r & -> & Hr).
  destruct (Hb r Hr) as [b Hrb].
  rewrite (row_get_at _ _ i) in Hrb by assumption. injection Hrb as ->. reflexivity.
Qed.

(** On a boolean column [df.query('mask')] keeps exactly the rows whose
    mask is true. *)
Lemma query_mask_spec df masked :
  (∀ r, r ∈ rows df → ∃ b, row_get (columns df) "mask" r.2 = Ok (VBool b)) →
  query_mask df = Ok masked →
  masked = mkDF (columns df)
             (filter (λ r, row_get (columns df) "mask" r.2 = Ok (VBool true)) (rows df)).
Proof.
  intros Hb. unfold query_mask, bool_index.
  destruct (col_pos "mask" (columns df)) as [i|] eqn:Ei; [|discriminate].
  rewrite (boolean_column df i Ei Hb).
  intros [= <-]. f_equal. rewrite map_map, select_map.
  apply list_filter_iff. intros r. rewrite (row_get_at _ _ i) by assumption.
  rewrite bool_decide_eq_true. split; congruence.
Qed.

Lemma row_labels_found idx s labels :
  traverse (row_label idx) s = Ok labels →
  length labels = length s ∧ ∀ l, l ∈ labels → l ∈ idx.
Proof.
  intros H. split; [eapply traverse_length; eauto|].
  apply traverse_Forall2 in H. intros l Hl.
  destruct (Forall2_elem_of_r _ _ _ _ H Hl) as (c & _ & Hc).
  unfold row_label in Hc. destruct (label_of c); [|discriminate].
  case_decide; [|discriminate]. congruence.
Qed.

(** Whatever the column holds, the rows [df.query('mask')] returns are rows
    of the frame, under its columns. *)
Lemma query_mask_rows df masked :
  query_mask df = Ok masked →
  columns masked = columns df ∧ ∀ r, r ∈ rows masked → r ∈ rows df.
Proof.
  unfold query_mask.
  destruct (col_pos "mask" (columns df)) as [i|]; [|discriminate].
  case_match.
  - intros [= <-]. split; [reflexivity|]. intros r. apply select_elem_of.
  - case_match; [discriminate|].
    intros Hq. apply result_bind_Ok in Hq as (labels & _ & [= <-]).
    split; [reflexivity|]. intros r. apply loc_elem_of.
Qed.

Lemma loc_length df labels :
  NoDup (index df) → (∀ l, l ∈ labels → l ∈ index df) →
  length (rows (loc df labels)) = length labels.
Proof.
  intros Hnd. unfold loc. simpl.
  induction labels as [|l labels IH]; intros Hl; [reflexivity|].
  rewrite bind_cons, length_app, IH by (intros l' Hl'; apply Hl; right; exact Hl').
  destruct (proj1 (list_elem_of_fmap _ _ _) (Hl l ltac:(left))) as (r & -> & Hr).
  rewrite (filter_unique_label _ r Hnd Hr). reflexivity.
Qed.

(** With unique row labels [df.query('mask')] returns no more rows than the
    frame has. *)
Lemma query_mask_len df masked :
  NoDup (index df) → query_mask df = Ok masked → len masked ≤ len df.
Proof.
  intros Hnd. unfold query_mask, len.
  destruct (col_pos "mask" (columns df)) as [i|]; [|discriminate].
  case_match.
  - intros [= <-]. simpl. pose proof (select_length (rows df)
      (map (λ c, bool_decide (c = VBool true)) (map (λ r, at_pos i r.2) (rows df)))). lia.
  - case_match; [discriminate|].
    intros Hq. apply result_bind_Ok in Hq as (labels & Hl & [= <-]).
    apply row_labels_found in Hl as [Hlen Hin].
    rewrite loc_length by assumption. rewrite Hlen, length_map. lia.
Qed.

Lemma keep_below_bound_spec df c out :
  keep_below_bound df c = Ok out →
  out = mkDF (columns df) (filter (λ r, below_bound (columns df) c r.2 = true) (rows df)).
Proof.
  unfold keep_below_bound, bool_index, getitem.
  destruct (col_pos c (columns df)) as [i|] eqn:Ei; [|discriminate].
  intros H. apply result_bind_Ok in H as (s & [= <-] & H).
  apply result_bind_Ok in H as (m & Hm & [= <-]). f_equal.
  assert (traverse (λ r : Z * list cell, lt_bound (at_pos i r.2)) (rows df) = Ok m) as Hm'.
  { clear -Hm. revert m Hm. induction (rows df) as [|r l IH]; intros m; simpl; [auto|].
    intros H. apply result_bind_Ok in H as (b & Hb & H).
    apply result_bind_Ok in H as (bs & Hbs & [= <-]).
    rewrite Hb. simpl. erewrite IH by eassumption. reflexivity. }
  erewrite select_traverse by exact Hm'.
  apply list_filter_iff. intros r. unfold below_bound.
  rewrite (row_get_at _ _ i) by assumption. simpl.
  rewrite bool_decide_eq_true. reflexivity.
Qed.

Lemma below_bound_true cols c r :
  below_bound cols c r = true ↔ ∃ x, row_get cols c r = Ok x ∧ lt_bound x = Ok true.
Proof.
  unfold below_bound. rewrite bool_decide_eq_true. split.
  - intros H. apply result_bind_Ok in H. exact H.
  - intros (x & -> & Hx). exact Hx.
Qed.

Lemma get_mofs_spec df mofs :
  get_mofs df = Ok mofs →
  ∃ g : list cell → mof,
    (∀ r, row_mof (columns df) r = Ok (g r)) ∧ mofs = map (λ r, g r.2) (rows df).
Proof.
  unfold get_mofs.
  destruct (col_pos "metal_node" (columns df)) as [i|] eqn:Ei;
    destruct (col_pos "organic_core" (columns df)) as [j|] eqn:Ej;
    destruct (col_pos "topology" (columns df)) as [k|] eqn:Ek; try discriminate.
  intros [= <-]. exists (λ r, (at_pos i r, at_pos j r, at_pos k r)). split; [|reflexivity].
  intros r. unfold row_mof, row_get. rewrite Ei, Ej, Ek. reflexivity.
Qed.

Lemma get_mofs_same_columns df df' mofs :
  columns df' = columns df → get_mofs df = Ok mofs →
  ∃ mofs', get_mofs df' = Ok mofs'.
Proof.
  unfold get_mofs. intros ->.
  destruct (col_pos "metal_node" (columns df));
    destruct (col_pos "organic_core" (columns df));
    destruct (col_pos "topology" (columns df)); try discriminate.
  eauto.
Qed.

(** [df[c] = values] leaves the cells under every other label alone. *)
Lemma set_col_cells df c values r' :
  r' ∈ (rows (set_col df c values)).*2 →
  ∃ r, r ∈ (rows df).*2 ∧
       ∀ c', c' ≠ c → row_get (columns (set_col df c values)) c' r' = row_get (columns df) c' r.
Proof.
  unfold set_col. destruct (col_pos c (columns df)) as [i|] eqn:Ei; simpl.
  - intros H. apply list_elem_of_fmap in H as ([l cells] & -> & H).
    apply elem_of_zip_with in H as (r & v & [= -> ->] & Hr & _).
    exists r.2. split; [apply list_elem_of_fmap_2; assumption|].
    intros c' Hne. unfold row_get.
    destruct (col_pos c' (columns df)) as [j|] eqn:Ej; [|reflexivity].
    f_equal. simpl.
    assert (i ≠ j) as Hij.
    { intros ->. apply col_pos_Some in Ei, Ej. congruence. }
    unfold at_pos at 1. rewrite list_lookup_insert_ne by assumption.
    apply at_pos_fit. eapply col_pos_lt; eauto.
  - intros H. apply list_elem_of_fmap in H as ([l cells] & -> & H).
    apply elem_of_zip_with in H as (r & v & [= -> ->] & Hr & _).
    exists r.2. split; [apply list_elem_of_fmap_2; assumption|].
    intros c' Hne. unfold row_get. rewrite col_pos_app_ne by assumption.
    destruct (col_pos c' (columns df)) as [j|] eqn:Ej; [|reflexivity].
    f_equal. simpl. apply col_pos_lt in Ej.
    unfold at_pos at 1. rewrite lookup_app_l by (rewrite length_fit; assumption).
    apply at_pos_fit. assumption.
Qed.

Lemma set_col_len df c values :
  length values = length (rows df) → len (set_col df c values) = len df.
Proof.
  intros Hl. unfold len, set_col.
  destruct (col_pos c (columns df)); simpl; rewrite length_zip_with; lia.
Qed.

Lemma row_mof_ext cols cols' r r' :
  (∀ c, c ≠ "id2mof" → row_get cols' c r' = row_get cols c r) →
  row_mof cols' r' = row_mof cols r.
Proof. intros H. unfold row_mof. rewrite !H by discriminate. reflexivity. Qed.

(** ** The stages of [get_prop_df] *)

Lemma read_csv_cells f : (rows (read_csv f)).*2 = records f.
Proof.
  unfold read_csv. simpl. generalize Z.of_nat as g. intros g. revert g.
  induction (records f) as [|r l IH]; intros g; [reflexivity|].
  rewrite imap_cons. simpl. f_equal. apply (IH (g ∘ S)).
Qed.

Lemma load_stage_spec csv_file testing drawn log df log' :
  load_stage csv_file testing drawn log = Ok (df, log') →
  ∃ title, log' = log ++ [Header title].
Proof.
  unfold load_stage. destruct testing; intros H; inv_run; eauto.
Qed.

Lemma scscore_stage_spec get_score smiles_column compute_scscore df log out log' :
  scscore_stage get_score smiles_column compute_scscore df log = Ok (out, log') →
  len out = len df ∧ log' = log.
Proof.
  unfold scscore_stage. destruct compute_scscore; intros H.
  - apply M_bind_Ok in H as (s & log1 & Hs & H).
    apply lift_Ok in Hs as [Hs ->]. apply mret_Ok in H as [-> ->].
    split; [|reflexivity]. apply set_col_len.
    unfold getitem in Hs. destruct (col_pos smiles_column (columns df)); [|discriminate].
    injection Hs as <-. rewrite !length_map. reflexivity.
  - apply mret_Ok in H as [-> ->]. auto.
Qed.

Lemma load_stage_rows csv_file testing drawn log df log' :
  load_stage csv_file testing drawn log = Ok (df, log') →
  columns df = header csv_file ∧ ∀ r, r ∈ (rows df).*2 → r ∈ records csv_file.
Proof.
  unfold load_stage. destruct testing; intros H.
  - apply M_bind_Ok in H as (df0 & log0 & Hs & H). apply lift_Ok in Hs as [Hs ->].
    apply M_bind_Ok in H as (u & log1 & _ & H). apply mret_Ok in H as [-> _].
    unfold sample in Hs. case_match; [discriminate|]. injection Hs as <-.
    split; [reflexivity|]. intros r. rewrite reset_index_drop_cells. simpl.
    intros Hr. apply list_elem_of_fmap in Hr as (r0 & -> & Hr0).
    apply list_elem_of_omap in Hr0 as (i & _ & Hi).
    rewrite <- read_csv_cells. apply list_elem_of_fmap_2.
    eapply list_elem_of_lookup_2. exact Hi.
  - apply M_bind_Ok in H as (u & log1 & _ & H). apply mret_Ok in H as [-> _].
    split; [reflexivity|]. intros r. rewrite read_csv_cells. auto.
Qed.

Lemma load_stage_index csv_file testing drawn log df log' :
  load_stage csv_file testing drawn log = Ok (df, log') → NoDup (index df).
Proof.
  unfold load_stage. destruct testing; intros H.
  - apply M_bind_Ok in H as (df0 & log0 & _ & H).
    apply M_bind_Ok in H as (u & log1 & _ & H). apply mret_Ok in H as [-> _].
    rewrite reset_index_drop_index. apply (NoDup_fmap_2 Z.of_nat). apply NoDup_seq.
  - apply M_bind_Ok in H as (u & log1 & _ & H). apply mret_Ok in H as [-> _].
    apply read_csv_index.
Qed.

Lemma set_col_index df c values :
  length values = length (rows df) → index (set_col df c values) = index df.
Proof.
  unfold index, set_col. intros Hl.
  destruct (col_pos c (columns df)); simpl;
    revert values Hl; generalize (rows df); intros l;
    induction l as [|r l IH]; intros [|v values]; simpl; try discriminate;
    try reflexivity; intros [= Hl]; f_equal; apply IH; exact Hl.
Qed.

Lemma scscore_stage_index get_score smiles_column compute_scscore df log out log' :
  scscore_stage get_score smiles_column compute_scscore df log = Ok (out, log') →
  index out = index df.
Proof.
  unfold scscore_stage. destruct compute_scscore; intros H.
  - apply M_bind_Ok in H as (s & log1 & Hs & H).
    apply lift_Ok in Hs as [Hs ->]. apply mret_Ok in H as [-> _].
    apply set_col_index. unfold getitem in Hs.
    destruct (col_pos smiles_column (columns df)); [|discriminate].
    injection Hs as <-. rewrite !length_map. reflexivity.
  - apply mret_Ok in H as [-> _]. reflexivity.
Qed.

(** Scoring leaves the cells under every label but [scscore] alone. *)
Lemma scscore_stage_cells get_score smiles_column compute_scscore df log out log' r :
  scscore_stage get_score smiles_column compute_scscore df log = Ok (out, log') →
  r ∈ (rows out).*2 →
  ∃ r0, r0 ∈ (rows df).*2 ∧
        ∀ c, c ≠ "scscore" → row_get (columns out) c r = row_get (columns df) c r0.
Proof.
  unfold scscore_stage. destruct compute_scscore; intros H Hr.
  - apply M_bind_Ok in H as (s & log1 & _ & H). apply mret_Ok in H as [-> _].
    apply set_col_cells. exact Hr.
  - apply mret_Ok in H as [-> _]. eauto.
Qed.

(** A boolean mask column of the file is a boolean mask column of the frame
    the filters start from. *)
Lemma loaded_mask_bool csv_file testing drawn get_score smiles_column compute_scscore
    log df0 log0 df1 log1 :
  load_stage csv_file testing drawn log = Ok (df0, log0) →
  scscore_stage get_score smiles_column compute_scscore df0 log0 = Ok (df1, log1) →
  (∀ r0, r0 ∈ records csv_file → ∃ b, row_get (header csv_file) "mask" r0 = Ok (VBool b)) →
  ∀ r, r ∈ rows df1 → ∃ b, row_get (columns df1) "mask" r.2 = Ok (VBool b).
Proof.
  intros Hload Hsc Hb r Hr.
  destruct (scscore_stage_cells _ _ _ _ _ _ _ r.2 Hsc) as (r0 & Hr0 & Hsame);
    [apply list_elem_of_fmap_2; exact Hr|].
  apply load_stage_rows in Hload as [Hcols Hrec].
  rewrite Hsame by discriminate. rewrite Hcols. apply Hb, Hrec, Hr0.
Qed.

Lemma lt_bound_true (c : cell) : lt_bound c = Ok true ↔ strictly_below_200 c.
Proof.
  destruct c as [s|z|b|f]; simpl.
  - split; [discriminate | contradiction].
  - rewrite <- Z.ltb_lt. split; congruence.
  - tauto.
  - split; congruence.
Qed.

Lemma assert_targets_spec targets df log u log' :
  assert_targets targets df log = Ok (u, log') → log' = log.
Proof.
  unfold assert_targets. case_match; [|discriminate].
  intros Hr. apply mret_Ok in Hr as [_ ->]. reflexivity.
Qed.

Lemma mask_stage_spec df log out log' :
  mask_stage df log = Ok (out, log') →
  ∃ masked,
    query_mask df = Ok masked ∧
    out = reset_index_drop masked ∧
    log' = log ++ [RemovedMask (len df - len out)].
Proof.
  unfold mask_stage. intros H.
  apply M_bind_Ok in H as (masked & log1 & Hq & H). apply lift_Ok in Hq as [Hq ->].
  apply M_bind_Ok in H as (u & log2 & Hp & H). apply print_Ok in Hp as ->.
  apply M_bind_Ok in H as (masked' & log3 & Hq' & H). apply lift_Ok in Hq' as [Hq' ->].
  apply mret_Ok in H as [-> ->].
  assert (masked' = masked) as -> by congruence.
  exists masked. split; [exact Hq|]. split; [reflexivity|].
  rewrite reset_index_drop_len. reflexivity.
Qed.

(** On a boolean column the mask stage keeps the rows whose mask is true. *)
Lemma mask_stage_bool df log out log' :
  (∀ r, r ∈ rows df → ∃ b, row_get (columns df) "mask" r.2 = Ok (VBool b)) →
  mask_stage df log = Ok (out, log') →
  out = reset_index_drop
    (mkDF (columns df)
       (filter (λ r, row_get (columns df) "mask" r.2 = Ok (VBool true)) (rows df))).
Proof.
  intros Hb H. apply mask_stage_spec in H as (masked & Hq & -> & _).
  apply query_mask_spec in Hq; [|exact Hb]. rewrite Hq. reflexivity.
Qed.

(** The rows that leave the mask stage are rows of the frame. *)
Lemma mask_stage_rows df log out log' :
  mask_stage df log = Ok (out, log') →
  columns out = columns df ∧ ∀ r, r ∈ (rows out).*2 → r ∈ (rows df).*2.
Proof.
  intros H. apply mask_stage_spec in H as (masked & Hq & -> & _).
  apply query_mask_rows in Hq as [Hc Hr]. split; [exact Hc|].
  intros r. rewrite reset_index_drop_cells. intros Hin.
  apply list_elem_of_fmap in Hin as (r0 & -> & Hr0).
  apply list_elem_of_fmap_2, Hr, Hr0.
Qed.

Lemma outlier_stage_spec df log out log' :
  outlier_stage df log = Ok (out, log') →
  out = reset_index_drop
    (mkDF (columns df)
       (filter (λ r, below_bound (columns df) "co2ch4_selectivity" r.2 = true)
          (filter (λ r, below_bound (columns df) "co2n2_selectivity" r.2 = true)
             (rows df)))) ∧
  log' = log ++ [RemovedSelectivity (len df - len out)].
Proof.
  unfold outlier_stage. intros H.
  apply M_bind_Ok in H as (df1 & log1 & H1 & H). apply lift_Ok in H1 as [H1 ->].
  apply M_bind_Ok in H as (df2 & log2 & H2 & H). apply lift_Ok in H2 as [H2 ->].
  apply M_bind_Ok in H as (u & log3 & Hp & H). apply print_Ok in Hp as ->.
  apply mret_Ok in H as [-> ->].
  apply keep_below_bound_spec in H1. subst df1.
  apply keep_below_bound_spec in H2. subst df2. simpl. auto.
Qed.

Lemma getitem_bools_rows {A B : Type} df (f : B → bool) (h : A → B) (l : list A) :
  l ≠ [] → getitem_bools df (map f (map h l)) = bool_index df (map f (map h l)).
Proof. destruct l; [contradiction | reflexivity]. Qed.

Lemma valid_rows_kept mof2ids df (g : list cell → mof) :
  (∀ r, row_mof (columns df) r = Ok (g r)) →
  rows df ≠ [] →
  reset_index_drop
    (getitem_bools df (map (valid_mof mof2ids) (map (λ r, g r.2) (rows df))))
  = kept_by_identity mof2ids df.
Proof.
  intros Hg Hne. rewrite getitem_bools_rows by exact Hne.
  unfold kept_by_identity, bool_index. f_equal. f_equal.
  rewrite map_map, select_map. apply list_filter_iff. intros r.
  unfold has_valid_mof. rewrite Hg. reflexivity.
Qed.

Lemma kept_by_identity_valid mof2ids df r :
  r ∈ (rows (kept_by_identity mof2ids df)).*2 →
  r ∈ (rows df).*2 ∧ ∃ t, row_mof (columns df) r = Ok t ∧ t ∈ dom mof2ids.
Proof.
  unfold kept_by_identity. rewrite reset_index_drop_cells. simpl.
  intros H. apply list_elem_of_fmap in H as (r0 & -> & H).
  apply list_elem_of_filter in H as [Hv Hr].
  split; [apply list_elem_of_fmap_2; assumption|].
  unfold has_valid_mof in Hv. destruct (row_mof (columns df) r0.2) as [t|]; [|discriminate].
  exists t. split; [reflexivity|]. unfold valid_mof in Hv.
  apply bool_decide_eq_true in Hv. exact Hv.
Qed.

Lemma kept_by_identity_nonempty mof2ids df :
  rows (kept_by_identity mof2ids df) ≠ [] ↔
  ∃ r, r ∈ rows df ∧ has_valid_mof mof2ids (columns df) r.2 = true.
Proof.
  unfold kept_by_identity, reset_index_drop. simpl.
  set (l := filter (λ r : Z * list cell, has_valid_mof mof2ids (columns df) r.2 = true)
              (rows df)).
  assert (l ≠ [] ↔ ∃ r, r ∈ rows df ∧ has_valid_mof mof2ids (columns df) r.2 = true) as E.
  { split.
    - intros Hne. destruct l as [|r l'] eqn:El; [contradiction|].
      assert (r ∈ l) as Hr by (rewrite El; left).
      apply list_elem_of_filter in Hr as [Hv Hr]. eauto.
    - intros (r & Hr & Hv) El.
      assert (r ∈ l) as Hin by (apply list_elem_of_filter; auto).
      rewrite El in Hin. apply elem_of_nil in Hin. exact Hin. }
  rewrite <- E. destruct l; simpl; split; congruence.
Qed.

(** After the identity filter every lookup [mof2ids[tuple(x)]] finds its key. *)
Lemma lookup_ids_total mof2ids df (g : list cell → mof) :
  (∀ r, row_mof (columns df) r = Ok (g r)) →
  ∃ ids,
    traverse (lookup_id mof2ids)
      (map (λ r, g r.2) (rows (kept_by_identity mof2ids df))) = Ok ids.
Proof.
  intros Hg. eexists.
  apply (traverse_map _ (λ t, default nan (mof2ids !! t))).
  intros t Ht. apply list_elem_of_fmap in Ht as (r & -> & Hr).
  destruct (kept_by_identity_valid mof2ids df r.2) as (_ & t & Ht & Hd).
  { apply list_elem_of_fmap_2. assumption. }
  rewrite Hg in Ht. injection Ht as <-.
  apply elem_of_dom in Hd as [id Hid]. unfold lookup_id. rewrite Hid. reflexivity.
Qed.

(** A frame without rows does not pass the identity stage: it loses its
    columns at [df[valid_mofs_list]]. *)
Lemma identity_stage_no_rows mof2ids df log :
  rows df = [] →
  identity_stage mof2ids df log = Raise (KeyError_column "metal_node") ∨
  ∃ c, c ∈ ["metal_node"; "organic_core"; "topology"] ∧ (c ∉ columns df) ∧
       identity_stage mof2ids df log = Raise (KeyError_column c).
Proof.
  intros Erows. unfold identity_stage, mbind at 1, M_bind, lift, get_mofs.
  destruct (col_pos "metal_node" (columns df)) eqn:E1;
    [|right; exists "metal_node"; split; [in_list|];
      split; [apply col_pos_None, E1 | reflexivity]].
  destruct (col_pos "organic_core" (columns df)) eqn:E2;
    [|right; exists "organic_core"; split; [in_list|];
      split; [apply col_pos_None, E2 | reflexivity]].
  destruct (col_pos "topology" (columns df)) eqn:E3;
    [|right; exists "topology"; split; [in_list|];
      split; [apply col_pos_None, E3 | reflexivity]].
  left. rewrite Erows. reflexivity.
Qed.

(** What a run of the identity stage that returns has done. *)
Lemma identity_stage_inv mof2ids df log out log' :
  identity_stage mof2ids df log = Ok (out, log') →
  ∃ (g : list cell → mof) ids,
    (∀ r, row_mof (columns df) r = Ok (g r)) ∧
    rows (kept_by_identity mof2ids df) ≠ [] ∧
    traverse (lookup_id mof2ids)
      (map (λ r, g r.2) (rows (kept_by_identity mof2ids df))) = Ok ids ∧
    out = set_col (kept_by_identity mof2ids df) "id2mof" ids ∧
    log' = log ++ [RemovedMof (len df - len (kept_by_identity mof2ids df))].
Proof.
  intros H.
  destruct (decide (rows df = [])) as [Erows|Hne].
  { destruct (identity_stage_no_rows mof2ids df log Erows) as [E|(c & _ & _ & E)];
      congruence. }
  unfold identity_stage in H.
  apply M_bind_Ok in H as (mofs & log1 & Hm & H). apply lift_Ok in Hm as [Hm ->].
  apply get_mofs_spec in Hm as (g & Hg & ->).
  rewrite (valid_rows_kept mof2ids df g Hg Hne) in H.
  apply M_bind_Ok in H as (mofs' & log2 & Hm' & H). apply lift_Ok in Hm' as [Hm' ->].
  apply M_bind_Ok in H as (v & log3 & Hv & H). apply lift_Ok in Hv as [Hv ->].
  apply M_bind_Ok in H as (df' & log4 & Hs & H). apply lift_Ok in Hs as [Hs ->].
  apply M_bind_Ok in H as (u & log5 & Hp & H). apply print_Ok in Hp as ->.
  apply mret_Ok in H as [-> ->].
  apply get_mofs_spec in Hm' as (g' & Hg' & ->).
  assert (∀ r, g' r = g r) as Egg.
  { intros r. specialize (Hg r). specialize (Hg' r). simpl in Hg'. congruence. }
  unfold apply_lookup in Hv.
  destruct (rows (kept_by_identity mof2ids df)) as [|k ks] eqn:Ek.
  { injection Hv as <-. discriminate. }
  rewrite <- Ek in *.
  assert (∃ ids, traverse (lookup_id mof2ids)
                   (map (λ r : Z * list cell, g' r.2) (rows (kept_by_identity mof2ids df)))
                 = Ok ids ∧ v = AppliedColumn ids) as (ids & Hi & ->).
  { rewrite Ek in *. simpl in Hv.
    apply result_bind_Ok in Hv as (ids & Hi & [= <-]). eauto. }
  injection Hs as <-.
  exists g, ids. split; [exact Hg|]. split; [rewrite Ek; discriminate|].
  split; [|split; [reflexivity|]].
  - erewrite (map_ext (λ r : Z * list cell, g r.2)); [exact Hi|].
    intros r. symmetry. apply Egg.
  - do 3 f_equal.
    rewrite (sum_bools_select (rows df)) by (rewrite !length_map; reflexivity).
    rewrite <- (valid_rows_kept mof2ids df g Hg Hne), reset_index_drop_len.
    rewrite getitem_bools_rows by exact Hne. reflexivity.
Qed.

Lemma identity_stage_spec mof2ids df log out log' :
  identity_stage mof2ids df log = Ok (out, log') →
  ∃ ids,
    out = set_col (kept_by_identity mof2ids df) "id2mof" ids ∧
    length ids = length (rows (kept_by_identity mof2ids df)) ∧
    log' = log ++ [RemovedMof (len df - len (kept_by_identity mof2ids df))].
Proof.
  intros H. apply identity_stage_inv in H as (g & ids & _ & _ & Hi & -> & ->).
  exists ids. split; [reflexivity|]. split; [|reflexivity].
  apply traverse_length in Hi. rewrite Hi. apply length_map.
Qed.

(** Given the three identity columns and a row whose tuple is a key of the
    registry, the identity stage goes through. *)
Lemma identity_stage_total mof2ids df log mofs :
  get_mofs df = Ok mofs →
  (∃ r, r ∈ rows df ∧ has_valid_mof mof2ids (columns df) r.2 = true) →
  ∃ out log', identity_stage mof2ids df log = Ok (out, log').
Proof.
  intros Hm Hex. unfold identity_stage.
  assert (rows df ≠ []) as Hne.
  { destruct Hex as (r & Hr & _). intros E. rewrite E in Hr.
    apply elem_of_nil in Hr. exact Hr. }
  apply kept_by_identity_nonempty in Hex.
  destruct (get_mofs_spec _ _ Hm) as (g & Hg & ->).
  unfold mbind at 1, M_bind. rewrite Hm. simpl.
  rewrite (valid_rows_kept mof2ids df g Hg Hne).
  destruct (get_mofs_same_columns df (kept_by_identity mof2ids df) _ eq_refl Hm)
    as [mofs' Hm'].
  unfold mbind at 1, M_bind. rewrite Hm'. simpl.
  destruct (get_mofs_spec _ _ Hm') as (g' & Hg' & ->).
  assert (∀ r, g' r = g r) as Egg.
  { intros r. specialize (Hg r). specialize (Hg' r). simpl in Hg'. congruence. }
  destruct (lookup_ids_total mof2ids df g Hg) as [ids Hids].
  unfold mbind at 1, M_bind, apply_lookup.
  erewrite (map_ext (λ r : Z * list cell, g' r.2)) by (intros; apply Egg).
  destruct (rows (kept_by_identity mof2ids df)) as [|k ks] eqn:Ek; [contradiction|].
  cbn [map] in Hids |- *. rewrite Hids. simpl. eauto.
Qed.

(** ** [get_prop_df]: what the surviving rows satisfy *)

(** C1, amended. Every row of the frame [get_prop_df] returns has an
    identity tuple that is a key of [mof2ids] and both selectivities
    strictly below 200.0; when the mask column of the file holds booleans,
    the mask of the row is true. *)
Theorem get_prop_df_postconditions
    (drawn : list nat) (get_score : cell → cell) (csv_file : csv)
    (targets : list string) (mof2ids : gmap mof cell) (testing : bool)
    (smiles_column : string) (compute_scscore : bool)
    (df : DataFrame) (log : list event) :
  run (get_prop_df drawn get_score csv_file targets mof2ids testing
         smiles_column compute_scscore) = Ok (df, log) →
  ∀ r, r ∈ rows df →
    (∃ t, row_mof (columns df) r.2 = Ok t ∧ t ∈ dom mof2ids) ∧
    ((∀ r0, r0 ∈ records csv_file →
        ∃ b, row_get (header csv_file) "mask" r0 = Ok (VBool b)) →
     row_get (columns df) "mask" r.2 = Ok (VBool true)) ∧
    (∃ x, row_get (columns df) "co2n2_selectivity" r.2 = Ok x ∧ strictly_below_200 x) ∧
    (∃ y, row_get (columns df) "co2ch4_selectivity" r.2 = Ok y ∧ strictly_below_200 y).
Proof.
  unfold run, get_prop_df. intros H r Hr.
  apply M_bind_Ok in H as (df0 & log0 & Hload & H).
  apply M_bind_Ok in H as (df1 & log1 & Hsc & H).
  apply M_bind_Ok in H as (u & log2 & _ & H).
  apply M_bind_Ok in H as (df2 & log3 & Hmask & H).
  apply M_bind_Ok in H as (df3 & log4 & Hid & Hout).
  pose proof (mask_stage_rows _ _ _ _ Hmask) as [Ecols2 _].
  apply identity_stage_spec in Hid as (ids & -> & _ & _).
  apply outlier_stage_spec in Hout as [-> _].
  set (kept := kept_by_identity mof2ids df2) in *.
  set (df3 := set_col kept "id2mof" ids) in *.
  apply (list_elem_of_fmap_2 snd) in Hr. rewrite reset_index_drop_cells in Hr.
  change (columns (reset_index_drop _)) with (columns df3).
  simpl in Hr. apply list_elem_of_fmap in Hr as (r3 & -> & Hr3).
  apply list_elem_of_filter in Hr3 as [Hch4 Hr3].
  apply list_elem_of_filter in Hr3 as [Hn2 Hr3].
  apply below_bound_true in Hch4 as (y & Hy & Hylt), Hn2 as (x & Hx & Hxlt).
  destruct (set_col_cells kept "id2mof" ids r3.2) as (rk & Hrk & Hsame).
  { apply list_elem_of_fmap_2. assumption. }
  fold df3 in Hsame.
  apply kept_by_identity_valid in Hrk as (Hr2 & t & Ht & Hd).
  split; [|split; [|split]].
  - exists t. split; [|assumption].
    rewrite (row_mof_ext _ _ _ _ Hsame). exact Ht.
  - intros Hb. rewrite Hsame by discriminate.
    pose proof (loaded_mask_bool _ _ _ _ _ _ _ _ _ _ _ Hload Hsc Hb) as Hb1.
    rewrite (mask_stage_bool _ _ _ _ Hb1 Hmask) in Hr2.
    rewrite reset_index_drop_cells in Hr2. simpl in Hr2.
    apply list_elem_of_fmap in Hr2 as (r1 & -> & Hr1).
    apply list_elem_of_filter in Hr1 as [Hm _].
    change (columns kept) with (columns df2). rewrite Ecols2. exact Hm.
  - exists x. split; [exact Hx | apply lt_bound_true; exact Hxlt].
  - exists y. split; [exact Hy | apply lt_bound_true; exact Hylt].
Qed.

Example sample_run :
  run (get_prop_df [] (λ x, x) sample_file [] sample_registry false "SMILES" false)
  = Ok (sample_result,
        [Header "Real run"; RemovedMask 1; RemovedMof 1; RemovedSelectivity 1]).
Proof. vm_compute. reflexivity. Qed.

Lemma get_prop_df_postconditions_witness :
  (∃ t, row_mof (columns sample_result)
          [VStr "C"; VStr "Zn"; VStr "c1"; VStr "pcu"; VBool true; VInt 3; VInt 5; VInt 7]
        = Ok t ∧ t ∈ dom sample_registry) ∧
  row_get (columns sample_result) "mask"
    [VStr "C"; VStr "Zn"; VStr "c1"; VStr "pcu"; VBool true; VInt 3; VInt 5; VInt 7]
    = Ok (VBool true) ∧
  (∃ x, row_get (columns sample_result) "co2n2_selectivity"
          [VStr "C"; VStr "Zn"; VStr "c1"; VStr "pcu"; VBool true; VInt 3; VInt 5; VInt 7]
        = Ok x ∧ strictly_below_200 x) ∧
  (∃ y, row_get (columns sample_result) "co2ch4_selectivity"
          [VStr "C"; VStr "Zn"; VStr "c1"; VStr "pcu"; VBool true; VInt 3; VInt 5; VInt 7]
        = Ok y ∧ strictly_below_200 y).
Proof.
  destruct (get_prop_df_postconditions [] (λ x, x) sample_file [] sample_registry
              false "SMILES" false sample_result
              [Header "Real run"; RemovedMask 1; RemovedMof 1; RemovedSelectivity 1]
              ltac:(vm_compute; reflexivity)
              (0, [VStr "C"; VStr "Zn"; VStr "c1"; VStr "pcu"; VBool true; VInt 3; VInt 5;
                   VInt 7])
              ltac:(left)) as (Htuple & Hmask & Hn2 & Hch4).
  split; [exact Htuple|]. split; [|split; assumption].
  apply Hmask. intros r0 Hr0. unfold sample_file in Hr0. simpl in Hr0.
  repeat (apply elem_of_cons in Hr0 as [->|Hr0]; [vm_compute; eauto|]).
  apply elem_of_nil in Hr0. contradiction.
Defined.

(** C1, as stated, fails.  The mask column of [integer_mask_file] holds
    1, 0, 1: [df.query('mask')] reads the values as row labels and returns
    the rows labelled 1, 0 and 1.  The frame returned holds the row whose
    mask is 0 twice, and lacks the third row, whose mask is 1. *)
Lemma get_prop_df_keeps_unmasked_rows :
  run (get_prop_df [] (λ x, x) integer_mask_file [] sample_registry false "SMILES" false)
  = Ok (mkDF ["SMILES"; "metal_node"; "organic_core"; "topology"; "mask";
              "co2n2_selectivity"; "co2ch4_selectivity"; "id2mof"]
          [ (0, [VStr "CC"; VStr "Zn"; VStr "c1"; VStr "pcu"; VInt 0; VInt 3; VInt 5; VInt 7]);
            (1, [VStr "C"; VStr "Zn"; VStr "c1"; VStr "pcu"; VInt 1; VInt 3; VInt 5; VInt 7]);
            (2, [VStr "CC"; VStr "Zn"; VStr "c1"; VStr "pcu"; VInt 0; VInt 3; VInt 5; VInt 7]) ],
        [Header "Real run"; RemovedMask 0; RemovedMof 0; RemovedSelectivity 0]).
Proof. vm_compute. reflexivity. Qed.

(** ** [get_prop_df]: the removal counts *)

Lemma len_filter_le {A : Type} (P : A → Prop) `{∀ x, Decision (P x)} (l : list A) :
  0 ≤ Z.of_nat (length l) - Z.of_nat (length (filter P l)).
Proof. pose proof (length_filter P l). lia. Qed.

(** C3. On every run that returns, the three removal counts printed (mask,
    identity, selectivity) and the number of rows returned add up to the
    number of rows of the frame as loaded, after the sample of test mode
    if any; no count is negative. *)
Theorem get_prop_df_ledger
    (drawn : list nat) (get_score : cell → cell) (csv_file : csv)
    (targets : list string) (mof2ids : gmap mof cell) (testing : bool)
    (smiles_column : string) (compute_scscore : bool)
    (df : DataFrame) (log : list event) :
  run (get_prop_df drawn get_score csv_file targets mof2ids testing
         smiles_column compute_scscore) = Ok (df, log) →
  ∃ loaded title n_mask n_mof n_selectivity,
    run (load_stage csv_file testing drawn) = Ok (loaded, [Header title]) ∧
    log = [Header title; RemovedMask n_mask; RemovedMof n_mof;
           RemovedSelectivity n_selectivity] ∧
    0 ≤ n_mask ∧ 0 ≤ n_mof ∧ 0 ≤ n_selectivity ∧
    n_mask + n_mof + n_selectivity + len df = len loaded.
Proof.
  unfold run, get_prop_df. intros H.
  apply M_bind_Ok in H as (df0 & log0 & Hload & H).
  apply M_bind_Ok in H as (df1 & log1 & Hsc & H).
  apply M_bind_Ok in H as (u & log2 & Has & H).
  apply M_bind_Ok in H as (df2 & log3 & Hmask & H).
  apply M_bind_Ok in H as (df3 & log4 & Hid & Hout).
  pose proof (load_stage_index _ _ _ _ _ _ Hload) as Hnd.
  rewrite <- (scscore_stage_index _ _ _ _ _ _ _ Hsc) in Hnd.
  destruct (load_stage_spec _ _ _ _ _ _ Hload) as [title ->].
  apply scscore_stage_spec in Hsc as [Hlen1 ->].
  apply assert_targets_spec in Has as ->.
  apply mask_stage_spec in Hmask as (masked & Hq & Hdf2 & ->).
  apply identity_stage_spec in Hid as (ids & Hdf3 & Hids & ->).
  apply outlier_stage_spec in Hout as [Hdf ->].
  exists df0, title, (len df1 - len df2),
    (len df2 - len (kept_by_identity mof2ids df2)), (len df3 - len df).
  split; [exact Hload|]. split; [reflexivity|].
  assert (len df3 = len (kept_by_identity mof2ids df2)) as E3
    by (rewrite Hdf3; apply set_col_len; assumption).
  assert (0 ≤ len df1 - len df2) as G1.
  { rewrite Hdf2, reset_index_drop_len.
    pose proof (query_mask_len df1 masked Hnd Hq). lia. }
  assert (0 ≤ len df2 - len (kept_by_identity mof2ids df2)) as G2.
  { unfold kept_by_identity. rewrite reset_index_drop_len. unfold len. simpl.
    apply len_filter_le. }
  assert (0 ≤ len df3 - len df) as G3.
  { rewrite Hdf, reset_index_drop_len. unfold len. simpl.
    pose proof (length_filter
      (λ r : Z * list cell, below_bound (columns df3) "co2ch4_selectivity" r.2 = true)
      (filter (λ r : Z * list cell,
                 below_bound (columns df3) "co2n2_selectivity" r.2 = true) (rows df3))).
    pose proof (length_filter
      (λ r : Z * list cell, below_bound (columns df3) "co2n2_selectivity" r.2 = true)
      (rows df3)).
    lia. }
  repeat split; try assumption. lia.
Qed.

Lemma get_prop_df_ledger_witness :
  ∃ loaded title n_mask n_mof n_selectivity,
    run (load_stage sample_file false []) = Ok (loaded, [Header title]) ∧
    [Header "Real run"; RemovedMask 1; RemovedMof 1; RemovedSelectivity 1] =
      [Header title; RemovedMask n_mask; RemovedMof n_mof;
       RemovedSelectivity n_selectivity] ∧
    0 ≤ n_mask ∧ 0 ≤ n_mof ∧ 0 ≤ n_selectivity ∧
    n_mask + n_mof + n_selectivity + len sample_result = len loaded.
Proof.
  apply (get_prop_df_ledger [] (λ x, x) sample_file [] sample_registry
           false "SMILES" false).
  vm_compute. reflexivity.
Defined.

(** ** [get_prop_df]: the outlier stage *)

(** C4, amended. The outlier stage keeps exactly the rows in which both
    selectivities are strictly below 200.0, in their order and renumbered
    from 0; it drops every row in which one of the two is not, a value
    equal to 200.0 or a NaN included. *)
Theorem outlier_stage_keeps_strictly_below (df out : DataFrame) (log log' : list event) :
  outlier_stage df log = Ok (out, log') →
  columns out = columns df ∧
  index out = map Z.of_nat (seq 0 (length (rows out))) ∧
  (rows out).*2 =
    (filter (λ r, below_bound (columns df) "co2n2_selectivity" r.2 = true ∧
                  below_bound (columns df) "co2ch4_selectivity" r.2 = true)
       (rows df)).*2.
Proof.
  intros H. apply outlier_stage_spec in H as [-> _].
  split; [reflexivity|]. split.
  - apply reset_index_drop_index.
  - rewrite reset_index_drop_cells. simpl. f_equal.
    rewrite list_filter_filter. apply list_filter_iff. intros r. tauto.
Qed.

Lemma outlier_stage_keeps_strictly_below_witness :
  columns (mkDF ["co2n2_selectivity"; "co2ch4_selectivity"] [(0, [VFloat one; VFloat one])])
    = columns boundary_frame ∧
  index (mkDF ["co2n2_selectivity"; "co2ch4_selectivity"] [(0, [VFloat one; VFloat one])])
    = map Z.of_nat (seq 0 1) ∧
  [[VFloat one; VFloat one]] =
    (filter (λ r, below_bound (columns boundary_frame) "co2n2_selectivity" r.2 = true ∧
                  below_bound (columns boundary_frame) "co2ch4_selectivity" r.2 = true)
       (rows boundary_frame)).*2.
Proof.
  apply (outlier_stage_keeps_strictly_below boundary_frame
           (mkDF ["co2n2_selectivity"; "co2ch4_selectivity"] [(0, [VFloat one; VFloat one])])
           [] [RemovedSelectivity 1]).
  vm_compute. reflexivity.
Defined.

(** C4, as stated, fails: in the first row of [boundary_frame] no
    selectivity exceeds 200.0 (both are at most 200.0), yet the outlier
    stage drops the row. *)
Lemma outlier_stage_drops_the_bound :
  SFltb bound bound = false ∧ SFleb bound bound = true ∧
  SFltb bound one = false ∧ SFleb one bound = true ∧
  run (outlier_stage boundary_frame)
  = Ok (mkDF ["co2n2_selectivity"; "co2ch4_selectivity"] [(0, [VFloat one; VFloat one])],
        [RemovedSelectivity 1]).
Proof. vm_compute. repeat split; reflexivity. Qed.

(** ** [get_prop_df]: the lookup of the canonical id *)

Lemma load_stage_Raise csv_file testing drawn log e :
  load_stage csv_file testing drawn log = Raise e → is_dict_error e = false.
Proof.
  unfold load_stage. destruct testing; intros H.
  - apply M_bind_Raise in H as [H|(df & log1 & _ & H)].
    + apply lift_Raise in H. unfold sample in H. case_match; [|discriminate].
      injection H as <-. reflexivity.
    + apply M_bind_Raise in H as [H|(? & ? & _ & H)]; discriminate.
  - apply M_bind_Raise in H as [H|(? & ? & _ & H)]; discriminate.
Qed.

Lemma scscore_stage_Raise get_score smiles_column compute_scscore df log e :
  scscore_stage get_score smiles_column compute_scscore df log = Raise e →
  is_dict_error e = false.
Proof.
  unfold scscore_stage. destruct compute_scscore; intros H; [|discriminate].
  apply M_bind_Raise in H as [H|(? & ? & _ & H)]; [|discriminate].
  apply lift_Raise, getitem_Raise in H. subst. reflexivity.
Qed.

Lemma assert_targets_Raise targets df log e :
  assert_targets targets df log = Raise e → is_dict_error e = false.
Proof.
  unfold assert_targets. case_match; [discriminate|].
  intros [= <-]. reflexivity.
Qed.

Lemma query_mask_Raise df e : query_mask df = Raise e → is_dict_error e = false.
Proof.
  unfold query_mask. destruct (col_pos "mask" (columns df)); [|intros [= <-]; reflexivity].
  case_match; [discriminate|]. case_match; [intros [= <-]; reflexivity|].
  intros Hq. apply result_bind_Raise in Hq as [Hq|(? & _ & Hq)]; [|discriminate].
  apply traverse_Raise in Hq as (c & _ & Hq). unfold row_label in Hq.
  destruct (label_of c); [case_decide; [discriminate|]|]; injection Hq as <-; reflexivity.
Qed.

Lemma mask_stage_Raise df log e : mask_stage df log = Raise e → is_dict_error e = false.
Proof.
  unfold mask_stage. intros H.
  apply M_bind_Raise in H as [H|(? & ? & _ & H)].
  { apply lift_Raise in H. eapply query_mask_Raise; eauto. }
  apply M_bind_Raise in H as [H|(? & ? & _ & H)]; [discriminate|].
  apply M_bind_Raise in H as [H|(? & ? & _ & H)]; [|discriminate].
  apply lift_Raise in H. eapply query_mask_Raise; eauto.
Qed.

Lemma get_mofs_Raise df e : get_mofs df = Raise e → is_dict_error e = false.
Proof.
  unfold get_mofs.
  destruct (col_pos "metal_node" (columns df));
    destruct (col_pos "organic_core" (columns df));
    destruct (col_pos "topology" (columns df)); intros [= <-]; reflexivity.
Qed.

(** A frame none of whose rows has its tuple in the registry does not pass
    the identity stage either: [apply] returns a frame, which cannot be
    stored under one label. *)
Lemma identity_stage_no_valid mof2ids df log mofs :
  get_mofs df = Ok mofs → rows df ≠ [] →
  rows (kept_by_identity mof2ids df) = [] →
  identity_stage mof2ids df log
  = Raise (ValueError "Cannot set a DataFrame with multiple columns to the single column").
Proof.
  intros Hm Hne Hk. unfold identity_stage.
  destruct (get_mofs_spec _ _ Hm) as (g & Hg & ->).
  unfold mbind at 1, M_bind. rewrite Hm. simpl.
  rewrite (valid_rows_kept mof2ids df g Hg Hne).
  destruct (get_mofs_same_columns df (kept_by_identity mof2ids df) _ eq_refl Hm)
    as [mofs' Hm'].
  unfold mbind at 1, M_bind. rewrite Hm'. simpl.
  destruct (get_mofs_spec _ _ Hm') as (g' & Hg' & ->).
  rewrite Hk. reflexivity.
Qed.

Lemma identity_stage_Raise mof2ids df log e :
  identity_stage mof2ids df log = Raise e → is_dict_error e = false.
Proof.
  intros H. destruct (get_mofs df) as [mofs|e'] eqn:Hm.
  - destruct (decide (rows df = [])) as [E|Hne].
    { destruct (identity_stage_no_rows mof2ids df log E) as [E'|(c & _ & _ & E')];
        rewrite E' in H; injection H as <-; reflexivity. }
    destruct (rows (kept_by_identity mof2ids df)) as [|k ks] eqn:Ek.
    + rewrite (identity_stage_no_valid mof2ids df log mofs Hm Hne Ek) in H.
      injection H as <-. reflexivity.
    + destruct (identity_stage_total mof2ids df log mofs Hm) as (out & log' & Hok).
      { apply kept_by_identity_nonempty. rewrite Ek. discriminate. }
      congruence.
  - unfold identity_stage, mbind at 1, M_bind in H. rewrite Hm in H. simpl in H.
    injection H as <-. eapply get_mofs_Raise; eauto.
Qed.

Lemma row_mof_get_mofs df r t :
  row_mof (columns df) r = Ok t → ∃ mofs, get_mofs df = Ok mofs.
Proof.
  unfold row_mof, row_get, get_mofs.
  destruct (col_pos "metal_node" (columns df)); [|discriminate].
  destruct (col_pos "organic_core" (columns df)); [|discriminate].
  destruct (col_pos "topology" (columns df)); [|discriminate].
  eauto.
Qed.

Lemma keep_below_bound_Raise df c e :
  keep_below_bound df c = Raise e → is_dict_error e = false.
Proof.
  unfold keep_below_bound. intros H.
  apply result_bind_Raise in H as [H|(s & _ & H)].
  { apply getitem_Raise in H. subst. reflexivity. }
  apply result_bind_Raise in H as [H|(? & _ & H)]; [|discriminate].
  apply traverse_Raise in H as (x & _ & H).
  destruct (x.2); simpl in H; try discriminate. injection H as <-. reflexivity.
Qed.

Lemma outlier_stage_Raise df log e :
  outlier_stage df log = Raise e → is_dict_error e = false.
Proof.
  unfold outlier_stage. intros H.
  apply M_bind_Raise in H as [H|(? & ? & _ & H)].
  { apply lift_Raise in H. eapply keep_below_bound_Raise; eauto. }
  apply M_bind_Raise in H as [H|(? & ? & _ & H)].
  { apply lift_Raise in H. eapply keep_below_bound_Raise; eauto. }
  apply M_bind_Raise in H as [H|(? & ? & _ & H)]; discriminate.
Qed.

(** C9, amended. No run of [get_prop_df] ends in the missing-key
    [KeyError] of the dictionary, and the stage that attaches [id2mof]
    returns exactly when some row of the frame it is given has its identity
    tuple among the keys of [mof2ids]: the lookup [mof2ids[tuple(x)]] then
    runs over rows that passed the identity filter and finds every key.
    When no row passes, the stage raises instead of returning an empty
    frame. *)
Theorem id2mof_lookup_total
    (drawn : list nat) (get_score : cell → cell) (csv_file : csv)
    (targets : list string) (mof2ids : gmap mof cell) (testing : bool)
    (smiles_column : string) (compute_scscore : bool) :
  (∀ key, run (get_prop_df drawn get_score csv_file targets mof2ids testing
                 smiles_column compute_scscore) ≠ Raise (KeyError_dict key)) ∧
  (∀ df log,
     (∃ out log', identity_stage mof2ids df log = Ok (out, log')) ↔
     (∃ r t, r ∈ rows df ∧ row_mof (columns df) r.2 = Ok t ∧ t ∈ dom mof2ids)).
Proof.
  split.
  - intros key H. unfold run, get_prop_df in H.
    assert (is_dict_error (KeyError_dict key) = false) as E; [|discriminate].
    apply M_bind_Raise in H as [H|(? & ? & _ & H)]; [eapply load_stage_Raise; eauto|].
    apply M_bind_Raise in H as [H|(? & ? & _ & H)]; [eapply scscore_stage_Raise; eauto|].
    apply M_bind_Raise in H as [H|(? & ? & _ & H)]; [eapply assert_targets_Raise; eauto|].
    apply M_bind_Raise in H as [H|(? & ? & _ & H)]; [eapply mask_stage_Raise; eauto|].
    apply M_bind_Raise in H as [H|(? & ? & _ & H)]; [eapply identity_stage_Raise; eauto|].
    eapply outlier_stage_Raise; eauto.
  - intros df log. split.
    + intros (out & log' & H).
      apply identity_stage_inv in H as (g & ids & _ & Hne & _).
      apply kept_by_identity_nonempty in Hne as (r & Hr & Hv).
      unfold has_valid_mof in Hv.
      destruct (row_mof (columns df) r.2) as [t|] eqn:Et; [|discriminate].
      exists r, t. split; [exact Hr|]. split; [exact Et|].
      apply bool_decide_eq_true in Hv. exact Hv.
    + intros (r & t & Hr & Ht & Hd).
      destruct (row_mof_get_mofs df r.2 t Ht) as [mofs Hm].
      apply (identity_stage_total mof2ids df log mofs Hm).
      exists r. split; [exact Hr|]. unfold has_valid_mof. rewrite Ht.
      apply bool_decide_eq_true. exact Hd.
Qed.

Lemma id2mof_lookup_total_witness :
  ∃ out log', identity_stage sample_registry (read_csv sample_file) [] = Ok (out, log').
Proof.
  apply (proj2 (id2mof_lookup_total [] (λ x, x) sample_file [] sample_registry
                  false "SMILES" false) (read_csv sample_file) []).
  exists (0, [VStr "C"; VStr "Zn"; VStr "c1"; VStr "pcu"; VBool true; VInt 3; VInt 5]),
    (VStr "Zn", VStr "c1", VStr "pcu").
  split; [left|]. split; [reflexivity|].
  apply elem_of_dom. exists (VInt 7). vm_compute. reflexivity.
Defined.

(** C9, as stated, fails.  In [unknown_mof_file] no row has its tuple in
    the registry: the identity filter leaves a frame without rows, on which
    [apply] tries the lookup on a row of NaN, swallows its [KeyError] and
    returns a frame; storing it as [id2mof] raises [ValueError].  In
    [masked_out_file] the mask filter leaves no row, [df[[]]] drops every
    column and [df[mof_cols]] raises the [KeyError] of a missing column. *)
Lemma id2mof_attachment_fails :
  run (get_prop_df [] (λ x, x) unknown_mof_file [] sample_registry false "SMILES" false)
  = Raise (ValueError "Cannot set a DataFrame with multiple columns to the single column") ∧
  run (get_prop_df [] (λ x, x) masked_out_file [] sample_registry false "SMILES" false)
  = Raise (KeyError_column "metal_node").
Proof. split; vm_compute; reflexivity. Qed.

(** ** First occurrences, label lookup and sorting *)

Section first_occurrences.
Context {A K : Type} `{EqDecision K} (key : A → K).

Lemma first_occurrences_elem_of seen l x :
  x ∈ first_occurrences key seen l → x ∈ l ∧ key x ∉ seen.
Proof.
  revert seen. induction l as [|y l IH]; intros seen; simpl.
  - intros H. apply elem_of_nil in H. contradiction.
  - case_decide as Hy.
    + intros H. apply IH in H as [H1 H2]. split; [right|]; assumption.
    + intros H. apply elem_of_cons in H as [->|H].
      * split; [left | assumption].
      * apply IH in H as [H1 H2]. split; [right; assumption|].
        intros Hs. apply H2. right. assumption.
Qed.

Lemma first_occurrences_NoDup seen l :
  NoDup (key <$> first_occurrences key seen l).
Proof.
  revert seen. induction l as [|y l IH]; intros seen; simpl.
  - constructor.
  - case_decide as Hy; [apply IH|].
    rewrite fmap_cons. apply NoDup_cons. split; [|apply IH].
    intros H. apply list_elem_of_fmap in H as (x & Hk & Hx).
    apply first_occurrences_elem_of in Hx as [_ Hx].
    apply Hx. rewrite <- Hk. left.
Qed.

Lemma first_occurrences_keys seen l x :
  x ∈ l → key x ∈ seen ∨ key x ∈ key <$> first_occurrences key seen l.
Proof.
  revert seen. induction l as [|y l IH]; intros seen Hx; simpl.
  - apply elem_of_nil in Hx. contradiction.
  - apply elem_of_cons in Hx as [->|Hx].
    + case_decide as Hy; [left; assumption|]. right. rewrite fmap_cons. left.
    + case_decide as Hy; [apply IH; assumption|].
      destruct (IH (key y :: seen) Hx) as [H|H].
      * apply elem_of_cons in H as [H|H]; [|left; assumption].
        right. rewrite fmap_cons, H. left.
      * right. rewrite fmap_cons. right. assumption.
Qed.
End first_occurrences.

Lemma first_occurrences_fmap {A B K : Type} `{EqDecision K}
    (key : B → K) (g : A → B) seen l :
  first_occurrences key seen (g <$> l) = g <$> first_occurrences (key ∘ g) seen l.
Proof.
  revert seen. induction l as [|x l IH]; intros seen; simpl; [reflexivity|].
  case_decide; [apply IH|]. rewrite fmap_cons. f_equal. apply IH.
Qed.

(** The labels [df[c].drop_duplicates().index] are those of the first row
    of every value. *)
Lemma drop_duplicates_index (rs : list (Z * list cell)) (i : nat) :
  (series_drop_duplicates (map (λ r, (r.1, at_pos i r.2)) rs)).*1
  = (first_occurrences (λ r, at_pos i r.2) [] rs).*1.
Proof.
  unfold series_drop_duplicates.
  change (map (λ r : Z * list cell, (r.1, at_pos i r.2)) rs)
    with ((λ r : Z * list cell, (r.1, at_pos i r.2)) <$> rs).
  rewrite first_occurrences_fmap, <- list_fmap_compose. reflexivity.
Qed.

(** With unique labels, [df.loc[labels]] gives back the rows the labels
    were taken from. *)
Lemma loc_of_labels (rs sub : list (Z * list cell)) :
  NoDup rs.*1 → (∀ r, r ∈ sub → r ∈ rs) →
  sub.*1 ≫= (λ l, filter (λ r, r.1 = l) rs) = sub.
Proof.
  intros Hnd. induction sub as [|r sub IH]; intros Hsub; [reflexivity|].
  rewrite fmap_cons, bind_cons.
  rewrite filter_unique_label by (auto; apply Hsub; left).
  simpl. f_equal. apply IH. intros r' Hr'. apply Hsub. right. assumption.
Qed.

Lemma insert_sorted_Permutation {A : Type} (key : A → cell) x l :
  insert_sorted key x l ≡ₚ x :: l.
Proof.
  induction l as [|y l IH]; simpl; [reflexivity|].
  case_match; [reflexivity|]. rewrite IH. apply Permutation_swap.
Qed.

Lemma sort_by_Permutation {A : Type} (key : A → cell) (l : list A) :
  sort_by key l ≡ₚ l.
Proof.
  unfold sort_by. induction l as [|x l IH]; simpl; [reflexivity|].
  rewrite insert_sorted_Permutation, IH. reflexivity.
Qed.

Lemma sort_values_spec df c out :
  sort_values df c = Ok out → columns out = columns df ∧ rows out ≡ₚ rows df.
Proof.
  unfold sort_values. destruct (col_pos c (columns df)); [|discriminate].
  destruct (rows df) as [|r0 rs] eqn:E.
  - intros [= <-]. rewrite E. auto.
  - case_match; [|discriminate]. intros [= <-]. simpl.
    split; [reflexivity|].
    apply (sort_by_Permutation (λ r : Z * list cell, at_pos n r.2) (r0 :: rs)).
Qed.

(** ** [get_mofdict]: the two dictionaries *)

Lemma registry_of_snoc kvs kv :
  registry_of (kvs ++ [kv]) =
  (<[kv.1 := kv.2]> (registry_of kvs).1, <[kv.2 := kv.1]> (registry_of kvs).2).
Proof. unfold registry_of. rewrite foldl_snoc. reflexivity. Qed.

Lemma registry_loop_fold cols acc l acc' :
  registry_loop cols acc l = Ok acc' →
  ∃ kvs,
    Forall2 (λ r kv, row_get cols "id2mof" r.2 = Ok kv.1 ∧ row_mof cols r.2 = Ok kv.2)
      l kvs ∧
    acc' = foldl (λ acc kv, (<[kv.1 := kv.2]> acc.1, <[kv.2 := kv.1]> acc.2)) acc kvs.
Proof.
  revert acc. induction l as [|row l IH]; intros acc; simpl.
  - intros [= <-]. exists []. split; [constructor | reflexivity].
  - intros H. apply result_bind_Ok in H as (acc1 & Hstep & H).
    unfold registry_step in Hstep.
    apply result_bind_Ok in Hstep as (metal & Hmetal & Hstep).
    apply result_bind_Ok in Hstep as (core & Hcore & Hstep).
    apply result_bind_Ok in Hstep as (topo & Htopo & Hstep).
    apply result_bind_Ok in Hstep as (id & Hid & [= <-]).
    apply IH in H as (kvs & Hall & ->).
    exists ((id, (metal, core, topo)) :: kvs). split; [|reflexivity].
    constructor; [|assumption]. simpl. split; [assumption|].
    unfold row_mof. rewrite Hmetal, Hcore, Htopo. reflexivity.
Qed.

Lemma registry_of_ids kvs id t :
  (registry_of kvs).1 !! id = Some t → (id, t) ∈ kvs.
Proof.
  induction kvs as [|[id0 t0] kvs IH] using rev_ind.
  - unfold registry_of. simpl. rewrite lookup_empty. discriminate.
  - rewrite registry_of_snoc. simpl. intros H.
    apply lookup_insert_Some in H as [[<- <-]|[_ H]].
    + apply elem_of_app. right. left.
    + apply elem_of_app. left. apply IH. assumption.
Qed.

Lemma registry_of_mofs kvs id t :
  (registry_of kvs).2 !! t = Some id → (id, t) ∈ kvs.
Proof.
  induction kvs as [|[id0 t0] kvs IH] using rev_ind.
  - unfold registry_of. simpl. rewrite lookup_empty. discriminate.
  - rewrite registry_of_snoc. simpl. intros H.
    apply lookup_insert_Some in H as [[<- <-]|[_ H]].
    + apply elem_of_app. right. left.
    + apply elem_of_app. left. apply IH. assumption.
Qed.

(** With pairwise different ids, tuple → id → tuple comes back. *)
Lemma registry_of_mof_id_mof kvs :
  NoDup kvs.*1 →
  ∀ t id, (registry_of kvs).2 !! t = Some id → (registry_of kvs).1 !! id = Some t.
Proof.
  induction kvs as [|[id0 t0] kvs IH] using rev_ind; intros Hnd t id.
  - unfold registry_of. simpl. rewrite lookup_empty. discriminate.
  - rewrite fmap_app in Hnd. apply NoDup_app in Hnd as (Hnd & Hfresh & _).
    rewrite registry_of_snoc. simpl. intros H.
    apply lookup_insert_Some in H as [[<- <-]|[Hne H]].
    + apply lookup_insert_eq.
    + assert (id ≠ id0) as Hid.
      { intros ->. apply registry_of_mofs in H.
        apply (Hfresh id0); [|left].
        apply (list_elem_of_fmap_2 fst) in H. exact H. }
      rewrite lookup_insert_ne by congruence. apply IH; assumption.
Qed.

(** When a tuple never comes with two ids, id → tuple → id comes back. *)
Lemma registry_of_id_mof_id kvs :
  (∀ id id' t, (id, t) ∈ kvs → (id', t) ∈ kvs → id = id') →
  ∀ id t, (registry_of kvs).1 !! id = Some t → (registry_of kvs).2 !! t = Some id.
Proof.
  induction kvs as [|[id0 t0] kvs IH] using rev_ind; intros Hfun id t.
  - unfold registry_of. simpl. rewrite lookup_empty. discriminate.
  - rewrite registry_of_snoc. simpl. intros H.
    apply lookup_insert_Some in H as [[<- <-]|[Hne H]].
    + apply lookup_insert_eq.
    + assert (t ≠ t0) as Ht.
      { intros ->. apply Hne. apply registry_of_ids in H.
        apply (Hfun id0 id t0); apply elem_of_app; [right; left | left; assumption]. }
      rewrite lookup_insert_ne by congruence. apply IH; [|assumption].
      intros a b c Ha Hb. apply (Hfun a b c); apply elem_of_app; left; assumption.
Qed.

Lemma Forall2_ids cols i (l : list (Z * list cell)) (kvs : list (cell * mof)) :
  col_pos "id2mof" cols = Some i →
  Forall2 (λ r kv, row_get cols "id2mof" r.2 = Ok kv.1 ∧ row_mof cols r.2 = Ok kv.2)
    l kvs →
  kvs.*1 = (λ r, at_pos i r.2) <$> l.
Proof.
  intros Hi. induction 1 as [|r kv l kvs [Hid _] _ IH]; [reflexivity|].
  rewrite !fmap_cons, IH. f_equal.
  rewrite (row_get_at _ _ i) in Hid by assumption. congruence.
Qed.

Lemma Forall2_pair_row cols (l : list (Z * list cell)) (kvs : list (cell * mof)) id t :
  Forall2 (λ r kv, row_get cols "id2mof" r.2 = Ok kv.1 ∧ row_mof cols r.2 = Ok kv.2)
    l kvs →
  (id, t) ∈ kvs →
  ∃ r, r ∈ l ∧ row_get cols "id2mof" r.2 = Ok id ∧ row_mof cols r.2 = Ok t.
Proof.
  induction 1 as [|r kv l kvs [Hid Ht] _ IH]; intros Hin.
  - apply elem_of_nil in Hin. contradiction.
  - apply elem_of_cons in Hin as [<-|Hin].
    + exists r. split; [left | auto].
    + destruct (IH Hin) as (r' & Hr' & H'). exists r'. split; [right|]; assumption.
Qed.

(** What a successful run of [get_mofdict] has computed. *)
Lemma get_mofdict_spec df mof_type ids2mof mof2ids cols log :
  run (get_mofdict df mof_type) = Ok (ids2mof, mof2ids, cols, log) →
  ∃ i sub kvs,
    col_pos "id2mof" (columns df) = Some i ∧
    sub ≡ₚ rows (loc df (first_occurrences (λ r, at_pos i r.2) [] (rows df)).*1) ∧
    Forall2 (λ r kv, row_get (columns df) "id2mof" r.2 = Ok kv.1 ∧
                     row_mof (columns df) r.2 = Ok kv.2) sub kvs ∧
    (ids2mof, mof2ids) = registry_of kvs.
Proof.
  unfold run, get_mofdict. intros H.
  apply M_bind_Ok in H as (mc & log1 & _ & H).
  apply M_bind_Ok in H as (s & log2 & Hs & H). apply lift_Ok in Hs as [Hs ->].
  apply M_bind_Ok in H as (sub_df & log3 & Hsort & H). apply lift_Ok in Hsort as [Hsort ->].
  apply M_bind_Ok in H as ([i2m m2i] & log4 & Hloop & H). apply lift_Ok in Hloop as [Hloop ->].
  apply M_bind_Ok in H as (u & log5 & _ & H). apply mret_Ok in H as [[= -> -> ->] _].
  unfold getitem in Hs.
  destruct (col_pos "id2mof" (columns df)) as [i|] eqn:Ei; [|discriminate].
  injection Hs as <-. rewrite drop_duplicates_index in Hsort.
  apply sort_values_spec in Hsort as [Hcols Hperm].
  apply registry_loop_fold in Hloop as (kvs & Hall & Hreg).
  rewrite Hcols in Hall. simpl in Hall.
  exists i, (rows sub_df), kvs. auto.
Qed.

(** C2, amended. For every key of [mof2ids], tuple → id → tuple comes back
    when the index labels of the reference frame are unique; for every key
    of [ids2mof], id → tuple → id comes back when no identity tuple occurs
    in the frame with two different ids. *)
Theorem get_mofdict_round_trip (df : DataFrame) (mof_type : string)
    (ids2mof : gmap cell mof) (mof2ids : gmap mof cell)
    (mof_columns : list string) (log : list event) :
  run (get_mofdict df mof_type) = Ok (ids2mof, mof2ids, mof_columns, log) →
  (NoDup (index df) →
     ∀ t id, mof2ids !! t = Some id → ids2mof !! id = Some t) ∧
  (triple_determines_id df →
     ∀ id t, ids2mof !! id = Some t → mof2ids !! t = Some id).
Proof.
  intros H. apply get_mofdict_spec in H as (i & sub & kvs & Hi & Hperm & Hall & Hreg).
  assert (ids2mof = (registry_of kvs).1) as -> by (rewrite <- Hreg; reflexivity).
  assert (mof2ids = (registry_of kvs).2) as -> by (rewrite <- Hreg; reflexivity).
  split.
  - intros Hnd. apply registry_of_mof_id_mof.
    rewrite (Forall2_ids _ i _ _ Hi Hall), Hperm.
    unfold loc. simpl. rewrite loc_of_labels.
    + apply first_occurrences_NoDup.
    + exact Hnd.
    + intros r Hr. apply first_occurrences_elem_of in Hr as [Hr _]. exact Hr.
  - intros Hfun. apply registry_of_id_mof_id.
    intros id id' t Hin Hin'.
    destruct (Forall2_pair_row _ _ _ _ _ Hall Hin) as (r & Hr & Hid & Ht).
    destruct (Forall2_pair_row _ _ _ _ _ Hall Hin') as (r' & Hr' & Hid' & Ht').
    rewrite Hperm in Hr, Hr'. apply loc_elem_of in Hr, Hr'.
    exact (Hfun r r' t id id' Hr Hr' Ht Ht' Hid Hid').
Qed.

Lemma sample_reference_functional : triple_determines_id sample_reference.
Proof.
  intros r r' t id id' Hr Hr' Ht Ht' Hid Hid'.
  unfold sample_reference in *. simpl in Hr, Hr'.
  repeat (apply elem_of_cons in Hr as [->|Hr]);
    try (apply elem_of_nil in Hr; contradiction);
    repeat (apply elem_of_cons in Hr' as [->|Hr']);
    try (apply elem_of_nil in Hr'; contradiction);
    vm_compute in Ht, Ht', Hid, Hid'; congruence.
Qed.

Lemma registry_loop_eval cols acc (l : list (Z * list cell)) (kvs : list (cell * mof)) :
  Forall2 (λ r kv, row_get cols "id2mof" r.2 = Ok kv.1 ∧ row_mof cols r.2 = Ok kv.2)
    l kvs →
  registry_loop cols acc l
  = Ok (foldl (λ acc kv, (<[kv.1 := kv.2]> acc.1, <[kv.2 := kv.1]> acc.2)) acc kvs).
Proof.
  intros Hall. revert acc.
  induction Hall as [|r [id [[metal core] topo]] l kvs [Hid Hmof] _ IH]; intros acc;
    [reflexivity|].
  simpl in Hid, Hmof. cbn [registry_loop foldl]. unfold registry_step.
  unfold row_mof in Hmof.
  destruct (row_get cols "metal_node" r.2) as [m|]; [|discriminate].
  destruct (row_get cols "organic_core" r.2) as [c|]; [|discriminate].
  destruct (row_get cols "topology" r.2) as [t|]; [|discriminate].
  simpl in Hmof. injection Hmof as -> -> ->. rewrite Hid. simpl. apply IH.
Qed.

(** A run of [get_mofdict], from the sorted rows it loops over. *)
Lemma get_mofdict_eval df mof_type mof_columns s sub kvs :
  mof_columns_of mof_type = Ok mof_columns →
  getitem df "id2mof" = Ok s →
  sort_values (loc df (series_drop_duplicates s).*1) "id2mof" = Ok sub →
  Forall2 (λ r kv, row_get (columns sub) "id2mof" r.2 = Ok kv.1 ∧
                   row_mof (columns sub) r.2 = Ok kv.2) (rows sub) kvs →
  run (get_mofdict df mof_type)
  = Ok ((registry_of kvs).1, (registry_of kvs).2, mof_columns,
        [FoundMofs (Z.of_nat (size (registry_of kvs).2))]).
Proof.
  intros Hm Hs Hsub Hall. unfold run, get_mofdict, mbind, M_bind.
  rewrite Hm. simpl. rewrite Hs. simpl. rewrite Hsub. simpl.
  rewrite (registry_loop_eval _ _ _ _ Hall). simpl.
  fold (registry_of kvs). destruct (registry_of kvs). reflexivity.
Qed.

Lemma sample_reference_run :
  run (get_mofdict sample_reference "cats")
  = Ok (sample_ids2mof, sample_mof2ids,
        ["metal_node"; "organic_core"; "topology"], [FoundMofs 2]).
Proof.
  rewrite (get_mofdict_eval sample_reference "cats"
             ["metal_node"; "organic_core"; "topology"]
             [(0, VInt 2); (1, VInt 1); (2, VInt 2)]
             (mkDF ["metal_node"; "organic_core"; "topology"; "id2mof"]
                [ (1, [VStr "Cu"; VStr "c1"; VStr "pcu"; VInt 1]);
                  (0, [VStr "Zn"; VStr "c1"; VStr "pcu"; VInt 2]) ])
             [ (VInt 1, (VStr "Cu", VStr "c1", VStr "pcu"));
               (VInt 2, (VStr "Zn", VStr "c1", VStr "pcu")) ]).
  - assert ((registry_of [ (VInt 1, (VStr "Cu", VStr "c1", VStr "pcu"));
                           (VInt 2, (VStr "Zn", VStr "c1", VStr "pcu")) ]).1
            = sample_ids2mof) as ->.
    { unfold registry_of, sample_ids2mof. cbn [foldl fst snd].
      apply insert_insert_ne. discriminate. }
    assert ((registry_of [ (VInt 1, (VStr "Cu", VStr "c1", VStr "pcu"));
                           (VInt 2, (VStr "Zn", VStr "c1", VStr "pcu")) ]).2
            = sample_mof2ids) as ->.
    { unfold registry_of, sample_mof2ids. cbn [foldl fst snd].
      apply insert_insert_ne. discriminate. }
    assert (size sample_mof2ids = 2%nat) as ->.
    { unfold sample_mof2ids.
      rewrite map_size_insert_None
        by (rewrite lookup_insert_ne by discriminate; apply lookup_empty).
      rewrite map_size_insert_None by apply lookup_empty.
      rewrite map_size_empty. reflexivity. }
    reflexivity.
  - reflexivity.
  - reflexivity.
  - vm_compute. reflexivity.
  - repeat constructor.
Qed.

Lemma get_mofdict_round_trip_witness :
  (∀ t id, sample_mof2ids !! t = Some id → sample_ids2mof !! id = Some t) ∧
  (∀ id t, sample_ids2mof !! id = Some t → sample_mof2ids !! t = Some id).
Proof.
  assert (run (get_mofdict sample_reference "cats")
          = Ok (sample_ids2mof, sample_mof2ids,
                ["metal_node"; "organic_core"; "topology"], [FoundMofs 2])) as Hrun
    by exact sample_reference_run.
  destruct (get_mofdict_round_trip _ _ _ _ _ _ Hrun) as [H1 H2].
  split.
  - apply H1. apply (bool_decide_unpack (NoDup (index sample_reference))).
    vm_compute. exact I.
  - apply H2. exact sample_reference_functional.
Defined.

(** C2, as stated, fails on [shared_tuple_reference]: id 1 is a key of
    [ids2mof], its tuple is a key of [mof2ids], and the tuple is mapped
    back to id 2. *)
Lemma get_mofdict_not_inverse :
  match run (get_mofdict shared_tuple_reference "cats") with
  | Ok (ids2mof, mof2ids, _, _) =>
      ids2mof !! VInt 1 = Some (VStr "Zn", VStr "c1", VStr "pcu") ∧
      mof2ids !! (VStr "Zn", VStr "c1", VStr "pcu") = Some (VInt 2)
  | Raise _ => False
  end.
Proof. vm_compute. split; reflexivity. Qed.

(** With a repeated index label [df.loc[index]] brings both rows back, and
    tuple → id → tuple is lost for one of them. *)
Example repeated_label_not_inverse :
  match run (get_mofdict repeated_label_reference "cats") with
  | Ok (ids2mof, mof2ids, _, _) =>
      ∃ t id, mof2ids !! t = Some id ∧ ids2mof !! id ≠ Some t
  | Raise _ => False
  end.
Proof.
  vm_compute. exists (VStr "Zn", VStr "c1", VStr "pcu"), (VInt 1).
  split; [reflexivity | discriminate].
Qed.

(** ** [get_generator_df]: test mode *)


Lemma ensure_smiles_column_rows df smiles_column :
  rows (ensure_smiles_column df smiles_column) = rows df.
Proof. unfold ensure_smiles_column. case_decide; reflexivity. Qed.








(** ** [predict_properties] on concrete collaborators *)

Lemma predict_properties_rows_witness :
  ∃ y_pred y_true,
    predict_properties toy_collate toy_encoder toy_decoder toy_scaler
      [1; 2; 3; 4; 5] 2 = Ok (y_pred, y_true) ∧
    length y_pred = length [1; 2; 3; 4; 5] ∧
    length y_true = length [1; 2; 3; 4; 5] ∧
    (∀ i x, [1; 2; 3; 4; 5] !! i = Some x →
       y_pred !! i = Some (Z.succ (2 * x)) ∧ y_true !! i = Some (Z.succ x)) ∧
    (Z.of_nat (length [1; 2; 3; 4; 5]) mod 2 ≠ 0 →
       ∃ c, last (chunks [1; 2; 3; 4; 5] (Z.to_nat 2)) = Some c ∧
            Z.of_nat (length c) = Z.of_nat (length [1; 2; 3; 4; 5]) mod 2).
Proof.
  apply (predict_properties_rows toy_collate toy_encoder toy_decoder toy_scaler
           (λ x, Z.succ (2 * x)) Z.succ).
  - intros chunk. unfold toy_collate, toy_encoder, toy_decoder, toy_scaler. simpl.
    rewrite map_map. reflexivity.
  - intros chunk. reflexivity.
  - lia.
  - discriminate.
Defined.

(** C5, as stated, fails on the empty input: with the default batch size
    and row-wise collaborators the call raises and returns no arrays. *)
Lemma predict_properties_no_rows_for_empty_input :
  predict_properties toy_collate toy_encoder toy_decoder toy_scaler [] 64
  = Raise (ValueError "need at least one array to stack").
Proof. vm_compute. reflexivity. Qed.

(** * Further properties *)

(** Membership in a list written out. *)
(** ** [get_mofdict] *)

Lemma mof_columns_of_Ok mof_type :
  mof_type ∈ ["id"; "cats"; "all"] → ∃ cols, mof_columns_of mof_type = Ok cols.
Proof.
  intros Hin. destruct (mof_columns_of mof_type) as [cols|e] eqn:E; [eauto|].
  apply mof_columns_of_Raise in E as [Hn _]. contradiction.
Qed.

(** X1. The mode selector has no part in the identity mapping: a call that
    returns with one mode returns, with any other accepted mode, the same
    two dictionaries and the same printed count, and the column list of
    that mode. *)
Theorem get_mofdict_mode_independent (df : DataFrame) (mof_type mof_type' : string)
    (ids2mof : gmap cell mof) (mof2ids : gmap mof cell)
    (mof_columns mof_columns' : list string) (log : list event) :
  run (get_mofdict df mof_type) = Ok (ids2mof, mof2ids, mof_columns, log) →
  mof_columns_of mof_type' = Ok mof_columns' →
  run (get_mofdict df mof_type') = Ok (ids2mof, mof2ids, mof_columns', log).
Proof.
  unfold run, get_mofdict. intros H H'.
  apply M_bind_Ok in H as (mc & log1 & Hmc & H). apply lift_Ok in Hmc as [_ ->].
  unfold mbind at 1, M_bind at 1. rewrite H'. simpl.
  apply M_bind_Ok in H as (s & log2 & Hs & H).
  unfold mbind at 1, M_bind at 1. rewrite Hs.
  apply M_bind_Ok in H as (sub & log3 & Hsub & H).
  unfold mbind at 1, M_bind at 1. rewrite Hsub.
  apply M_bind_Ok in H as ([i2m m2i] & log4 & Hloop & H).
  unfold mbind at 1, M_bind at 1. rewrite Hloop.
  apply M_bind_Ok in H as (u & log5 & Hp & H).
  unfold mbind at 1, M_bind at 1. rewrite Hp.
  apply mret_Ok in H as [[= -> -> ->] ->]. reflexivity.
Qed.

Lemma sample_reference_returns :
  match run (get_mofdict sample_reference "cats") with
  | Ok _ => True
  | Raise _ => False
  end.
Proof. vm_compute. exact I. Qed.

Lemma get_mofdict_mode_independent_witness :
  match run (get_mofdict sample_reference "cats") with
  | Ok (ids2mof, mof2ids, _, log) =>
      run (get_mofdict sample_reference "all")
      = Ok (ids2mof, mof2ids, ["metal_node"; "organic_core"; "topology"; "id2mof"], log)
  | Raise _ => False
  end.
Proof.
  pose proof sample_reference_returns as Hret.
  destruct (run (get_mofdict sample_reference "cats"))
    as [[[[ids2mof mof2ids] cols] log]|e] eqn:E; [|exact Hret].
  apply (get_mofdict_mode_independent sample_reference "cats" "all"
           ids2mof mof2ids cols _ log E).
  reflexivity.
Defined.

(** X2. With an accepted mode and no [id2mof] column the call raises the
    [KeyError] of that column. *)
Theorem get_mofdict_missing_id2mof (df : DataFrame) (mof_type : string) :
  mof_type ∈ ["id"; "cats"; "all"] → "id2mof" ∉ columns df →
  run (get_mofdict df mof_type) = Raise (KeyError_column "id2mof").
Proof.
  intros Hm Hc. apply mof_columns_of_Ok in Hm as [cols Hcols].
  apply col_pos_None in Hc.
  unfold run, get_mofdict, mbind, M_bind, getitem. rewrite Hcols, Hc. reflexivity.
Qed.

Lemma get_mofdict_missing_id2mof_witness :
  run (get_mofdict (mkDF ["metal_node"; "organic_core"; "topology"] []) "id")
  = Raise (KeyError_column "id2mof").
Proof.
  apply (get_mofdict_missing_id2mof (mkDF ["metal_node"; "organic_core"; "topology"] []) "id").
  - left.
  - apply (bool_decide_unpack ("id2mof" ∉ ["metal_node"; "organic_core"; "topology"])).
    vm_compute. exact I.
Defined.

(** X3. On a table without rows the call returns two empty dictionaries
    whether or not the three identity columns are there: they are read
    inside the loop only. *)
Theorem get_mofdict_no_rows (cols : list string) (mof_type : string)
    (mof_columns : list string) :
  "id2mof" ∈ cols → mof_columns_of mof_type = Ok mof_columns →
  run (get_mofdict (mkDF cols []) mof_type) = Ok (∅, ∅, mof_columns, [FoundMofs 0]).
Proof.
  intros Hc Hm. apply col_pos_is_Some in Hc as [i Hi].
  unfold run, get_mofdict, mbind, M_bind, getitem, sort_values, loc. simpl.
  rewrite Hm. simpl. rewrite Hi. simpl. reflexivity.
Qed.

Lemma get_mofdict_no_rows_witness :
  run (get_mofdict (mkDF ["id2mof"] []) "all")
  = Ok (∅, ∅, ["metal_node"; "organic_core"; "topology"; "id2mof"], [FoundMofs 0]).
Proof.
  apply (get_mofdict_no_rows ["id2mof"] "all").
  - left.
  - reflexivity.
Defined.

Lemma registry_step_Raise_label cols acc row e :
  registry_step cols acc row = Raise e →
  ∃ c, c ∈ ["metal_node"; "organic_core"; "topology"; "id2mof"] ∧ e = KeyError_column c.
Proof.
  unfold registry_step. intros H.
  apply result_bind_Raise in H as [H|(? & _ & H)].
  { apply row_get_Raise in H. eexists. split; [|exact H]. in_list. }
  apply result_bind_Raise in H as [H|(? & _ & H)].
  { apply row_get_Raise in H. eexists. split; [|exact H]. in_list. }
  apply result_bind_Raise in H as [H|(? & _ & H)].
  { apply row_get_Raise in H. eexists. split; [|exact H]. in_list. }
  apply result_bind_Raise in H as [H|(? & _ & H)]; [|discriminate].
  apply row_get_Raise in H. eexists. split; [|exact H]. in_list.
Qed.

Lemma registry_loop_Raise_label cols acc l e :
  registry_loop cols acc l = Raise e →
  ∃ c, c ∈ ["metal_node"; "organic_core"; "topology"; "id2mof"] ∧ e = KeyError_column c.
Proof.
  revert acc. induction l as [|row l IH]; intros acc; simpl; [discriminate|].
  intros H. apply result_bind_Raise in H as [H|(acc' & _ & H)].
  - eapply registry_step_Raise_label; eauto.
  - eapply IH; eauto.
Qed.

(** X4. The exceptions of [get_mofdict]: the [ValueError] of a mode that
    is not understood, the [KeyError] of one of the four columns it reads,
    or the [TypeError] of ids that cannot be ordered; nothing else. *)
Theorem get_mofdict_exceptions (df : DataFrame) (mof_type : string) (e : exn) :
  run (get_mofdict df mof_type) = Raise e →
  e = ValueError (mof_type ++ " not understood!")%string ∨
  (∃ c, c ∈ ["metal_node"; "organic_core"; "topology"; "id2mof"] ∧
        e = KeyError_column c) ∨
  (∃ msg, e = TypeError msg).
Proof.
  unfold run, get_mofdict. intros H.
  apply M_bind_Raise in H as [H|(cols & l1 & _ & H)].
  { apply lift_Raise, mof_columns_of_Raise in H as [_ ->]. left. reflexivity. }
  apply M_bind_Raise in H as [H|(s & l2 & _ & H)].
  { apply lift_Raise, getitem_Raise in H. right. left.
    exists "id2mof". split; [in_list | exact H]. }
  apply M_bind_Raise in H as [H|(sub_df & l3 & _ & H)].
  { apply lift_Raise, sort_values_Raise in H as [H|H].
    - right. left. exists "id2mof". split; [in_list | exact H].
    - right. right. exact H. }
  apply M_bind_Raise in H as [H|([i2m m2i] & l4 & _ & H)].
  { apply lift_Raise, registry_loop_Raise_label in H. right. left. exact H. }
  apply M_bind_Raise in H as [H|(? & ? & _ & H)]; discriminate.
Qed.

Lemma get_mofdict_exceptions_witness :
  KeyError_column "metal_node" = ValueError ("cats" ++ " not understood!")%string ∨
  (∃ c, c ∈ ["metal_node"; "organic_core"; "topology"; "id2mof"] ∧
        KeyError_column "metal_node" = KeyError_column c) ∨
  (∃ msg, KeyError_column "metal_node" = TypeError msg).
Proof.
  apply (get_mofdict_exceptions (mkDF ["id2mof"] [(0, [VInt 1])]) "cats").
  vm_compute. reflexivity.
Defined.

Lemma first_occurrences_first {A K : Type} `{EqDecision K}
    (key : A → K) seen l1 r l2 :
  key r ∉ seen → key r ∉ key <$> l1 →
  r ∈ first_occurrences key seen (l1 ++ r :: l2).
Proof.
  revert seen. induction l1 as [|x l1 IH]; intros seen Hs Hl; simpl.
  - case_decide; [contradiction | left].
  - rewrite fmap_cons in Hl. apply not_elem_of_cons in Hl as [Hne Hl].
    case_decide.
    + apply IH; assumption.
    + right. apply IH; [|assumption].
      intros Hin. apply elem_of_cons in Hin as [Hin|Hin]; [congruence | contradiction].
Qed.

Lemma Forall2_row_pair cols (l : list (Z * list cell)) (kvs : list (cell * mof)) r :
  Forall2 (λ r kv, row_get cols "id2mof" r.2 = Ok kv.1 ∧ row_mof cols r.2 = Ok kv.2)
    l kvs →
  r ∈ l →
  ∃ kv, kv ∈ kvs ∧ row_get cols "id2mof" r.2 = Ok kv.1 ∧ row_mof cols r.2 = Ok kv.2.
Proof.
  induction 1 as [|r0 kv l kvs Hr _ IH]; intros Hin.
  - apply elem_of_nil in Hin. contradiction.
  - apply elem_of_cons in Hin as [->|Hin].
    + exists kv. split; [left | exact Hr].
    + destruct (IH Hin) as (kv' & Hkv' & H'). exists kv'. split; [right|]; assumption.
Qed.

Lemma registry_of_ids_NoDup kvs id t :
  NoDup kvs.*1 → (id, t) ∈ kvs → (registry_of kvs).1 !! id = Some t.
Proof.
  induction kvs as [|[id0 t0] kvs IH] using rev_ind; intros Hnd Hin.
  - apply elem_of_nil in Hin. contradiction.
  - rewrite fmap_app in Hnd. apply NoDup_app in Hnd as (Hnd & Hfresh & _).
    rewrite registry_of_snoc. simpl.
    apply elem_of_app in Hin as [Hin|Hin].
    + assert (id ≠ id0) as Hne.
      { intros ->. apply (Hfresh id0); [|left].
        apply (list_elem_of_fmap_2 fst) in Hin. exact Hin. }
      rewrite lookup_insert_ne by congruence. apply IH; assumption.
    + apply list_elem_of_singleton in Hin. injection Hin as -> ->.
      apply lookup_insert_eq.
Qed.

Lemma registry_of_ids_is_Some kvs id t :
  (id, t) ∈ kvs → is_Some ((registry_of kvs).1 !! id).
Proof.
  induction kvs as [|[id0 t0] kvs IH] using rev_ind; intros Hin.
  - apply elem_of_nil in Hin. contradiction.
  - rewrite registry_of_snoc. simpl.
    destruct (decide (id0 = id)) as [->|Hne].
    + rewrite lookup_insert_eq. eauto.
    + rewrite lookup_insert_ne by assumption. apply IH.
      apply elem_of_app in Hin as [Hin|Hin]; [assumption|].
      apply list_elem_of_singleton in Hin. congruence.
Qed.

(** The rows [df.loc[index]] brings back include the first row of every id. *)
Lemma first_rows_in_loc df i r :
  r ∈ first_occurrences (λ r : Z * list cell, at_pos i r.2) [] (rows df) →
  r ∈ rows (loc df (first_occurrences (λ r : Z * list cell, at_pos i r.2) [] (rows df)).*1).
Proof.
  intros Hr. unfold loc. simpl. apply list_elem_of_bind.
  exists r.1. split.
  - apply list_elem_of_filter. split; [reflexivity|].
    apply first_occurrences_elem_of in Hr as [Hr _]. exact Hr.
  - apply list_elem_of_fmap_2. exact Hr.
Qed.

(** X5. The first row of an id decides its tuple: when the index labels
    are unique and the call returns, [ids2mof] maps the id of a row that no
    earlier row shares to the identity tuple of that very row. *)
Theorem get_mofdict_first_occurrence (df : DataFrame) (mof_type : string)
    (ids2mof : gmap cell mof) (mof2ids : gmap mof cell)
    (mof_columns : list string) (log : list event)
    (before after : list (Z * list cell)) (r : Z * list cell) (id : cell) :
  run (get_mofdict df mof_type) = Ok (ids2mof, mof2ids, mof_columns, log) →
  NoDup (index df) →
  rows df = before ++ r :: after →
  row_get (columns df) "id2mof" r.2 = Ok id →
  (∀ r', r' ∈ before → row_get (columns df) "id2mof" r'.2 ≠ Ok id) →
  ∃ t, row_mof (columns df) r.2 = Ok t ∧ ids2mof !! id = Some t.
Proof.
  intros H Hnd Hrows Hid Hbefore.
  apply get_mofdict_spec in H as (i & sub & kvs & Hi & Hperm & Hall & Hreg).
  assert (ids2mof = (registry_of kvs).1) as -> by (rewrite <- Hreg; reflexivity).
  set (key := λ r : Z * list cell, at_pos i r.2) in *.
  assert (key r = id) as Hkey.
  { rewrite (row_get_at _ _ i) in Hid by assumption. unfold key. congruence. }
  assert (r ∈ first_occurrences key [] (rows df)) as Hfirst.
  { rewrite Hrows. apply first_occurrences_first; [apply not_elem_of_nil|].
    intros Hin. apply list_elem_of_fmap in Hin as (r' & Hk & Hr').
    apply (Hbefore r' Hr'). rewrite (row_get_at _ _ i) by assumption.
    rewrite <- Hkey, Hk. reflexivity. }
  apply first_rows_in_loc in Hfirst.
  change (r ∈ rows (loc df (first_occurrences key [] (rows df)).*1)) in Hfirst.
  rewrite <- Hperm in Hfirst.
  destruct (Forall2_row_pair _ _ _ _ Hall Hfirst) as ([id' t] & Hkv & Hid' & Ht).
  simpl in Hid', Ht. assert (id' = id) as -> by congruence.
  exists t. split; [exact Ht|]. apply registry_of_ids_NoDup; [|exact Hkv].
  rewrite (Forall2_ids _ i _ _ Hi Hall), Hperm.
  unfold loc. simpl. rewrite loc_of_labels.
  - apply first_occurrences_NoDup.
  - exact Hnd.
  - intros x Hx. apply first_occurrences_elem_of in Hx as [Hx _]. exact Hx.
Qed.

Lemma get_mofdict_first_occurrence_witness :
  match run (get_mofdict sample_reference "cats") with
  | Ok (ids2mof, _, _, _) =>
      ∃ t, row_mof (columns sample_reference)
             [VStr "Zn"; VStr "c1"; VStr "pcu"; VInt 2] = Ok t ∧
           ids2mof !! VInt 2 = Some t
  | Raise _ => False
  end.
Proof.
  pose proof sample_reference_returns as Hret.
  destruct (run (get_mofdict sample_reference "cats"))
    as [[[[ids2mof mof2ids] cols] log]|e] eqn:E; [|exact Hret].
  apply (get_mofdict_first_occurrence sample_reference "cats"
           ids2mof mof2ids cols log
           []
           [ (1, [VStr "Cu"; VStr "c1"; VStr "pcu"; VInt 1]);
             (2, [VStr "Zn"; VStr "c1"; VStr "pcu"; VInt 2]) ]
           (0, [VStr "Zn"; VStr "c1"; VStr "pcu"; VInt 2]) (VInt 2)).
  - exact E.
  - apply (bool_decide_unpack (NoDup (index sample_reference))). vm_compute. exact I.
  - reflexivity.
  - reflexivity.
  - intros r' Hr'. apply elem_of_nil in Hr'. contradiction.
Defined.

(** X6. The keys of the two dictionaries come from the table and from
    nowhere else: an id is a key of [ids2mof] exactly when some row carries
    it, and every key of [mof2ids] is the identity tuple of some row. *)
Theorem get_mofdict_keys (df : DataFrame) (mof_type : string)
    (ids2mof : gmap cell mof) (mof2ids : gmap mof cell)
    (mof_columns : list string) (log : list event) :
  run (get_mofdict df mof_type) = Ok (ids2mof, mof2ids, mof_columns, log) →
  (∀ id, is_Some (ids2mof !! id) ↔
         ∃ r, r ∈ rows df ∧ row_get (columns df) "id2mof" r.2 = Ok id) ∧
  (∀ t, is_Some (mof2ids !! t) →
        ∃ r, r ∈ rows df ∧ row_mof (columns df) r.2 = Ok t).
Proof.
  intros H.
  apply get_mofdict_spec in H as (i & sub & kvs & Hi & Hperm & Hall & Hreg).
  assert (ids2mof = (registry_of kvs).1) as -> by (rewrite <- Hreg; reflexivity).
  assert (mof2ids = (registry_of kvs).2) as -> by (rewrite <- Hreg; reflexivity).
  set (key := λ r : Z * list cell, at_pos i r.2) in *.
  split; [intros id; split|].
  - intros [t Ht]. apply registry_of_ids in Ht.
    destruct (Forall2_pair_row _ _ _ _ _ Hall Ht) as (r & Hr & Hid & _).
    exists r. split; [|exact Hid]. rewrite Hperm in Hr. eapply loc_elem_of; eauto.
  - intros (r & Hr & Hid).
    destruct (first_occurrences_keys key [] (rows df) r Hr) as [Hn|Hin].
    { apply elem_of_nil in Hn. contradiction. }
    apply list_elem_of_fmap in Hin as (r' & Hk & Hr').
    apply first_rows_in_loc in Hr'.
    change (r' ∈ rows (loc df (first_occurrences key [] (rows df)).*1)) in Hr'.
    rewrite <- Hperm in Hr'.
    destruct (Forall2_row_pair _ _ _ _ Hall Hr') as ([id' t] & Hkv & Hid' & _).
    simpl in Hid'. rewrite (row_get_at _ _ i) in Hid, Hid' by assumption.
    assert (id' = id) as -> by (unfold key in Hk; congruence).
    eapply registry_of_ids_is_Some; eauto.
  - intros t [id Ht]. apply registry_of_mofs in Ht.
    destruct (Forall2_pair_row _ _ _ _ _ Hall Ht) as (r & Hr & _ & Hmof).
    exists r. split; [|exact Hmof]. rewrite Hperm in Hr. eapply loc_elem_of; eauto.
Qed.

Lemma get_mofdict_keys_witness :
  match run (get_mofdict sample_reference "cats") with
  | Ok (ids2mof, mof2ids, _, _) =>
      (∀ id, is_Some (ids2mof !! id) ↔
             ∃ r, r ∈ rows sample_reference ∧
                  row_get (columns sample_reference) "id2mof" r.2 = Ok id) ∧
      (∀ t, is_Some (mof2ids !! t) →
            ∃ r, r ∈ rows sample_reference ∧
                 row_mof (columns sample_reference) r.2 = Ok t)
  | Raise _ => False
  end.
Proof.
  pose proof sample_reference_returns as Hret.
  destruct (run (get_mofdict sample_reference "cats"))
    as [[[[ids2mof mof2ids] cols] log]|e] eqn:E; [|exact Hret].
  apply (get_mofdict_keys sample_reference "cats" ids2mof mof2ids cols log E).
Defined.

(** ** [get_generator_df] *)

Lemma first_occurrences_sublist {A K : Type} `{EqDecision K} (key : A → K) seen l :
  first_occurrences key seen l `sublist_of` l.
Proof.
  revert seen. induction l as [|x l IH]; intros seen; simpl; [constructor|].
  case_decide; [apply sublist_cons | apply sublist_skip]; apply IH.
Qed.

Lemma series_values (rs : list (Z * list cell)) (i : nat) :
  (map (λ r, (r.1, at_pos i r.2)) rs).*2 = (λ r, at_pos i r.2) <$> rs.
Proof. induction rs as [|r l IH]; [reflexivity|]. simpl. f_equal. exact IH. Qed.

(** X7. When duplicates are not wanted, a real run returns rows of the
    file, in their order and under their labels, in which no SMILES string
    occurs twice and every SMILES string of the file occurs. *)
Theorem get_generator_df_unique_smiles (csv_file : csv) (smiles_column : string)
    (out : DataFrame) (log : list event) :
  run (get_generator_df csv_file smiles_column false false) = Ok (out, log) →
  ∃ s_in s_out,
    getitem (ensure_smiles_column (read_csv csv_file) smiles_column) smiles_column
      = Ok s_in ∧
    getitem out smiles_column = Ok s_out ∧
    NoDup s_out.*2 ∧
    (∀ v, v ∈ s_out.*2 ↔ v ∈ s_in.*2) ∧
    rows out `sublist_of` rows (read_csv csv_file).
Proof.
  unfold run, get_generator_df. intros H.
  apply M_bind_Ok in H as (df & log1 & Hload & H). apply lift_Ok in Hload as [Hload ->].
  apply M_bind_Ok in H as (df' & log2 & Hreal & H).
  apply M_bind_Ok in H as (u1 & log3 & _ & H).
  apply M_bind_Ok in H as (u2 & log4 & _ & H).
  apply mret_Ok in H as [-> _].
  apply M_bind_Ok in Hreal as (u3 & log5 & _ & Hreal).
  apply mret_Ok in Hreal as [-> _].
  unfold load_generator_df, drop_duplicates in Hload.
  set (df0 := ensure_smiles_column (read_csv csv_file) smiles_column) in *.
  destruct (col_pos smiles_column (columns df0)) as [i|] eqn:Ei; [|discriminate].
  injection Hload as <-.
  unfold getitem. simpl. rewrite Ei.
  eexists _, _. split; [reflexivity|]. split; [reflexivity|].
  rewrite !series_values. split; [|split].
  - apply first_occurrences_NoDup.
  - intros v. split.
    + intros Hv. apply list_elem_of_fmap in Hv as (r & -> & Hr).
      apply first_occurrences_elem_of in Hr as [Hr _].
      apply (list_elem_of_fmap_2 (λ r0 : Z * list cell, at_pos i r0.2)). exact Hr.
    + intros Hv. apply list_elem_of_fmap in Hv as (r & -> & Hr).
      destruct (first_occurrences_keys (λ r : Z * list cell, at_pos i r.2) []
                  (rows df0) r Hr) as [Hn|Hin]; [|exact Hin].
      apply elem_of_nil in Hn. contradiction.
  - change (imap _ (records csv_file)) with (rows (read_csv csv_file)).
    rewrite <- (ensure_smiles_column_rows (read_csv csv_file) smiles_column).
    apply first_occurrences_sublist.
Qed.

Lemma get_generator_df_unique_smiles_witness :
  ∃ s_in s_out,
    getitem (ensure_smiles_column (read_csv shared_smiles_file) "smiles") "smiles"
      = Ok s_in ∧
    getitem (mkDF ["smiles"; "id2mof"]
               [ (0, [VStr "C"; VInt 1]); (2, [VStr "CC"; VInt 1]) ]) "smiles"
      = Ok s_out ∧
    NoDup s_out.*2 ∧
    (∀ v, v ∈ s_out.*2 ↔ v ∈ s_in.*2) ∧
    rows (mkDF ["smiles"; "id2mof"]
            [ (0, [VStr "C"; VInt 1]); (2, [VStr "CC"; VInt 1]) ])
      `sublist_of` rows (read_csv shared_smiles_file).
Proof.
  apply (get_generator_df_unique_smiles shared_smiles_file "smiles"
           (mkDF ["smiles"; "id2mof"]
              [ (0, [VStr "C"; VInt 1]); (2, [VStr "CC"; VInt 1]) ])
           [Header "Real run"; Shape 2 2; Columns ["smiles"; "id2mof"]]).
  vm_compute. reflexivity.
Defined.

(** X8. A file that has neither the requested SMILES label nor ['SMILES']
    does not get past the load when duplicates are to be dropped: the call
    raises the [KeyError] of the requested label, in test mode or not. *)
Theorem get_generator_df_no_smiles (csv_file : csv) (smiles_column : string)
    (testing : bool) :
  smiles_column ∉ header csv_file → "SMILES" ∉ header csv_file →
  run (get_generator_df csv_file smiles_column false testing)
  = Raise (KeyError_column smiles_column).
Proof.
  intros Hs HS. unfold run, get_generator_df, load_generator_df, ensure_smiles_column.
  simpl. case_decide; [contradiction|].
  rewrite rename_absent by assumption.
  unfold drop_duplicates. simpl.
  apply col_pos_None in Hs. rewrite Hs. reflexivity.
Qed.

Lemma get_generator_df_no_smiles_witness :
  run (get_generator_df (mkCsv ["id2mof"] [[VInt 1]]) "smiles" false true)
  = Raise (KeyError_column "smiles").
Proof.
  apply (get_generator_df_no_smiles (mkCsv ["id2mof"] [[VInt 1]]) "smiles" true).
  - apply (bool_decide_unpack ("smiles" ∉ ["id2mof"])). vm_compute. exact I.
  - apply (bool_decide_unpack ("SMILES" ∉ ["id2mof"])). vm_compute. exact I.
Defined.

Lemma ensure_smiles_column_columns df smiles_column c :
  c ∈ columns (ensure_smiles_column df smiles_column) →
  c ∈ columns df ∨ c = smiles_column.
Proof.
  unfold ensure_smiles_column. case_decide; [auto|]. simpl.
  intros Hc. apply list_elem_of_fmap in Hc as (c0 & -> & Hc0).
  case_decide; [right; reflexivity | left; assumption].
Qed.

(** X9. Test mode needs the [id2mof] column: when the file has none and
    the SMILES column is not asked to go by that name, the call raises a
    [KeyError], of [id2mof] or, when the load already fails, of the
    requested SMILES label. *)
Theorem get_generator_df_testing_needs_id2mof (csv_file : csv)
    (smiles_column : string) (use_duplicates : bool) :
  "id2mof" ∉ header csv_file → smiles_column ≠ "id2mof" →
  ∃ c, c ∈ [smiles_column; "id2mof"] ∧
       run (get_generator_df csv_file smiles_column use_duplicates true)
       = Raise (KeyError_column c).
Proof.
  intros Hid Hne.
  set (df0 := ensure_smiles_column (read_csv csv_file) smiles_column).
  assert ("id2mof" ∉ columns df0) as Hcols.
  { intros Hin. apply ensure_smiles_column_columns in Hin as [Hin|Hin];
      [contradiction | congruence]. }
  apply col_pos_None in Hcols.
  unfold run, get_generator_df, load_generator_df. fold df0.
  destruct use_duplicates.
  - exists "id2mof". split; [in_list|].
    unfold mbind, M_bind, getitem. simpl. rewrite Hcols. reflexivity.
  - unfold drop_duplicates.
    destruct (col_pos smiles_column (columns df0)) as [i|] eqn:Ei.
    + exists "id2mof". split; [in_list|].
      unfold mbind, M_bind, getitem. simpl. rewrite Hcols. reflexivity.
    + exists smiles_column. split; [in_list|]. reflexivity.
Qed.

Lemma get_generator_df_testing_needs_id2mof_witness :
  ∃ c, c ∈ ["SMILES"; "id2mof"] ∧
       run (get_generator_df (mkCsv ["SMILES"] [[VStr "C"]]) "SMILES" true true)
       = Raise (KeyError_column c).
Proof.
  apply (get_generator_df_testing_needs_id2mof (mkCsv ["SMILES"] [[VStr "C"]]) "SMILES" true).
  - apply (bool_decide_unpack ("id2mof" ∉ ["SMILES"])). vm_compute. exact I.
  - discriminate.
Defined.



(** ** [get_prop_df] *)

(** Two lists filtered by predicates that agree on related elements stay
    related. *)
Lemma Forall2_filter {A B : Type} (R : A → B → Prop)
    (P : A → Prop) (Q : B → Prop) `{∀ x, Decision (P x)} `{∀ y, Decision (Q y)} l k :
  Forall2 R l k → (∀ x y, R x y → (P x ↔ Q y)) →
  Forall2 R (filter P l) (filter Q k).
Proof.
  intros Hall Hiff. induction Hall as [|x y l k Hxy _ IH]; [constructor|].
  destruct (decide (P x)) as [Hp|Hp].
  - rewrite filter_cons_True by assumption.
    rewrite (filter_cons_True Q) by (apply (Hiff x y Hxy); assumption).
    constructor; assumption.
  - rewrite filter_cons_False by assumption.
    rewrite (filter_cons_False Q) by (intros Hq; apply Hp, (Hiff x y Hxy); assumption).
    assumption.
Qed.

Lemma Forall2_relabel {A : Type} (g : nat → A) (l : list (A * list cell)) :
  Forall2 (λ a b, a.2 = b.2) l (imap (λ i r, (g i, r.2)) l).
Proof.
  revert g. induction l as [|r l IH]; intros g; [constructor|].
  rewrite imap_cons. constructor; [reflexivity | apply (IH (g ∘ S))].
Qed.

Lemma Forall2_compose {A B C : Type} (R : A → B → Prop) (S : B → C → Prop)
    (T : A → C → Prop) l k m :
  (∀ x y z, R x y → S y z → T x z) →
  Forall2 R l k → Forall2 S k m → Forall2 T l m.
Proof.
  intros Hc Hlk. revert m. induction Hlk as [|x y l k Hxy _ IH]; intros m Hkm.
  - inversion Hkm. constructor.
  - inversion Hkm as [|? z ? m' Hyz Hkm']; subst.
    constructor; [eapply Hc; eauto | apply IH; assumption].
Qed.

Lemma col_pos_app_new c cols : c ∉ cols → col_pos c (cols ++ [c]) = Some (length cols).
Proof.
  induction cols as [|d cols IH]; intros Hn; simpl.
  - case_decide; [reflexivity | contradiction].
  - apply not_elem_of_cons in Hn as [Hne Hn].
    case_decide; [contradiction|]. rewrite IH by assumption. reflexivity.
Qed.

(** [df[c] = values], row by row: the new cell is the value, the other
    cells and the label stay. *)
Lemma set_col_Forall2 (T : Z * list cell → cell → Prop) df c values :
  Forall2 T (rows df) values →
  Forall2 (λ r r',
             ∃ v, T r v ∧
                  row_get (columns (set_col df c values)) c r'.2 = Ok v ∧
                  ∀ c', c' ≠ c →
                    row_get (columns (set_col df c values)) c' r'.2
                    = row_get (columns df) c' r.2)
    (rows df) (rows (set_col df c values)).
Proof.
  unfold set_col. destruct (col_pos c (columns df)) as [i|] eqn:Ei; simpl.
  - induction 1 as [|r v l vs Hrv _ IH]; simpl; constructor; [|exact IH].
    exists v. split; [exact Hrv|]. simpl. split.
    + rewrite (row_get_at _ _ i) by assumption. f_equal. unfold at_pos.
      rewrite list_lookup_insert_eq; [reflexivity|].
      rewrite length_fit. eapply col_pos_lt; eauto.
    + intros c' Hne. unfold row_get.
      destruct (col_pos c' (columns df)) as [j|] eqn:Ej; [|reflexivity].
      f_equal. assert (i ≠ j) as Hij.
      { intros ->. apply col_pos_Some in Ei, Ej. congruence. }
      unfold at_pos at 1. rewrite list_lookup_insert_ne by assumption.
      apply at_pos_fit. eapply col_pos_lt; eauto.
  - apply col_pos_None in Ei.
    induction 1 as [|r v l vs Hrv _ IH]; simpl; constructor; [|exact IH].
    exists v. split; [exact Hrv|]. simpl. split.
    + rewrite (row_get_at _ _ (length (columns df))) by (apply col_pos_app_new; exact Ei).
      f_equal. unfold at_pos.
      rewrite lookup_app_r by (rewrite length_fit; lia).
      rewrite length_fit, Nat.sub_diag. reflexivity.
    + intros c' Hne. unfold row_get. rewrite col_pos_app_ne by assumption.
      destruct (col_pos c' (columns df)) as [j|] eqn:Ej; [|reflexivity].
      f_equal. apply col_pos_lt in Ej.
      unfold at_pos at 1. rewrite lookup_app_l by (rewrite length_fit; assumption).
      apply at_pos_fit. assumption.
Qed.

(** The ids the identity stage attaches. *)
Lemma identity_stage_ids mof2ids df log out log' :
  identity_stage mof2ids df log = Ok (out, log') →
  ∃ ids,
    out = set_col (kept_by_identity mof2ids df) "id2mof" ids ∧
    Forall2 (λ r id, ∃ t, row_mof (columns df) r.2 = Ok t ∧ mof2ids !! t = Some id)
      (rows (kept_by_identity mof2ids df)) ids.
Proof.
  intros H. apply identity_stage_inv in H as (g & ids & Hg & _ & Hi & -> & _).
  exists ids. split; [reflexivity|].
  apply traverse_Forall2 in Hi. apply Forall2_fmap_l in Hi.
  eapply Forall2_impl; [exact Hi|]. intros r id Hl. simpl in Hl.
  exists (g r.2). split; [apply Hg|].
  unfold lookup_id in Hl. destruct (mof2ids !! g r.2); congruence.
Qed.

Lemma survives_true mof2ids cols r :
  survives mof2ids cols r = true ↔
  ((row_get cols "mask" r = Ok (VBool true) ∧ has_valid_mof mof2ids cols r = true) ∧
   below_bound cols "co2n2_selectivity" r = true) ∧
  below_bound cols "co2ch4_selectivity" r = true.
Proof.
  unfold survives. rewrite !andb_true_iff, bool_decide_eq_true. reflexivity.
Qed.

Lemma below_bound_ext cols cols' c r r' :
  row_get cols' c r' = row_get cols c r → below_bound cols' c r' = below_bound cols c r.
Proof. unfold below_bound. intros ->. reflexivity. Qed.

(** The identity and the outlier stage as one pass over the rows that left
    the mask stage: the rows returned are the rows with a known tuple and
    both selectivities below the bound, in their order, every cell kept but
    for [id2mof], which holds the id of the row's tuple. *)
Lemma later_stages_rows mof2ids df2 log2 df3 log3 out log4 :
  identity_stage mof2ids df2 log2 = Ok (df3, log3) →
  outlier_stage df3 log3 = Ok (out, log4) →
  Forall2 (λ r0 r,
             ∃ id, (∃ t, row_mof (columns df2) r0.2 = Ok t ∧ mof2ids !! t = Some id) ∧
                   row_get (columns out) "id2mof" r.2 = Ok id ∧
                   ∀ c, c ≠ "id2mof" →
                     row_get (columns out) c r.2 = row_get (columns df2) c r0.2)
    (filter (λ r, below_bound (columns df2) "co2ch4_selectivity" r.2 = true)
       (filter (λ r, below_bound (columns df2) "co2n2_selectivity" r.2 = true)
          (filter (λ r, has_valid_mof mof2ids (columns df2) r.2 = true) (rows df2))))
    (rows out).
Proof.
  intros Hid Hout.
  apply identity_stage_ids in Hid as (ids & -> & Hids).
  apply outlier_stage_spec in Hout as [-> _].
  set (cols := columns df2) in *.
  set (Pv := λ r : Z * list cell, has_valid_mof mof2ids cols r.2 = true).
  set (kept := kept_by_identity mof2ids df2) in *.
  set (df3 := set_col kept "id2mof" ids) in *.
  change (columns (reset_index_drop _)) with (columns df3).
  pose proof (set_col_Forall2 _ kept "id2mof" ids Hids) as H4. fold df3 in H4.
  assert (Forall2 (λ a b : Z * list cell, a.2 = b.2) (filter Pv (rows df2)) (rows kept))
    as H3 by apply (Forall2_relabel Z.of_nat).
  set (S := λ r0 r : Z * list cell,
              ∃ id, (∃ t, row_mof cols r0.2 = Ok t ∧ mof2ids !! t = Some id) ∧
                    row_get (columns df3) "id2mof" r.2 = Ok id ∧
                    ∀ c, c ≠ "id2mof" →
                      row_get (columns df3) c r.2 = row_get cols c r0.2).
  assert (Forall2 S (filter Pv (rows df2)) (rows df3)) as H5.
  { eapply Forall2_compose; [|exact H3|exact H4].
    intros x y z Hxy (v & Hv & Hget & Hother). exists v.
    rewrite Hxy. auto. }
  assert (Forall2 S
            (filter (λ r : Z * list cell, below_bound cols "co2ch4_selectivity" r.2 = true)
               (filter (λ r : Z * list cell,
                          below_bound cols "co2n2_selectivity" r.2 = true)
                  (filter Pv (rows df2))))
            (filter (λ r : Z * list cell,
                       below_bound (columns df3) "co2ch4_selectivity" r.2 = true)
               (filter (λ r : Z * list cell,
                          below_bound (columns df3) "co2n2_selectivity" r.2 = true)
                  (rows df3)))) as H6.
  { apply Forall2_filter; [apply Forall2_filter; [exact H5|]|];
      intros x y (v & _ & _ & Hother);
      rewrite (below_bound_ext cols (columns df3) _ x.2 y.2)
        by (apply Hother; discriminate); reflexivity. }
  eapply Forall2_compose; [|exact H6|apply (Forall2_relabel Z.of_nat)].
  intros x y z Hxy Hyz. unfold S in *. simpl in Hyz. rewrite <- Hyz. exact Hxy.
Qed.

(** Every row returned is a row that entered the mask stage, with its
    cells, and carries the id of its own tuple. *)
Lemma returned_row mof2ids df1 log1 df2 log2 df3 log3 out log4 r :
  mask_stage df1 log1 = Ok (df2, log2) →
  identity_stage mof2ids df2 log2 = Ok (df3, log3) →
  outlier_stage df3 log3 = Ok (out, log4) →
  r ∈ rows out →
  ∃ r0 id,
    r0 ∈ (rows df1).*2 ∧
    (∃ t, row_mof (columns df1) r0 = Ok t ∧ mof2ids !! t = Some id) ∧
    row_get (columns out) "id2mof" r.2 = Ok id ∧
    ∀ c, c ≠ "id2mof" → row_get (columns out) c r.2 = row_get (columns df1) c r0.
Proof.
  intros Hmask Hid Hout Hr.
  apply mask_stage_rows in Hmask as [Ecols Hrows].
  pose proof (later_stages_rows _ _ _ _ _ _ _ Hid Hout) as Hall.
  destruct (Forall2_elem_of_r _ _ _ _ Hall Hr) as (r2 & Hr2 & id & Ht & Hget & Hother).
  do 3 apply list_elem_of_filter in Hr2 as [_ Hr2].
  rewrite Ecols in Ht, Hother.
  exists r2.2, id. split; [apply Hrows, list_elem_of_fmap_2, Hr2 | auto].
Qed.

(** On a boolean mask column the three filters are one pass over the
    loaded rows. *)
Lemma filter_stages_rows mof2ids df1 log1 df2 log2 df3 log3 out log4 :
  (∀ r, r ∈ rows df1 → ∃ b, row_get (columns df1) "mask" r.2 = Ok (VBool b)) →
  mask_stage df1 log1 = Ok (df2, log2) →
  identity_stage mof2ids df2 log2 = Ok (df3, log3) →
  outlier_stage df3 log3 = Ok (out, log4) →
  Forall2 (λ r0 r,
             ∃ id, (∃ t, row_mof (columns df1) r0.2 = Ok t ∧ mof2ids !! t = Some id) ∧
                   row_get (columns out) "id2mof" r.2 = Ok id ∧
                   ∀ c, c ≠ "id2mof" →
                     row_get (columns out) c r.2 = row_get (columns df1) c r0.2)
    (filter (λ r, survives mof2ids (columns df1) r.2 = true) (rows df1))
    (rows out).
Proof.
  intros Hb Hmask Hid Hout.
  pose proof (later_stages_rows _ _ _ _ _ _ _ Hid Hout) as Hall.
  apply (mask_stage_bool _ _ _ _ Hb) in Hmask. subst df2.
  set (cols := columns df1) in *.
  change (columns (reset_index_drop _)) with cols in Hall.
  set (Pm := λ r : Z * list cell, row_get cols "mask" r.2 = Ok (VBool true)) in *.
  set (df2 := reset_index_drop (mkDF cols (filter Pm (rows df1)))) in *.
  assert (filter (λ r, survives mof2ids cols r.2 = true) (rows df1)
          = filter (λ r : Z * list cell, below_bound cols "co2ch4_selectivity" r.2 = true)
              (filter (λ r : Z * list cell,
                         below_bound cols "co2n2_selectivity" r.2 = true)
                 (filter (λ r : Z * list cell, has_valid_mof mof2ids cols r.2 = true)
                    (filter Pm (rows df1))))) as ->.
  { rewrite !list_filter_filter. apply list_filter_iff. intros r.
    rewrite survives_true. unfold Pm. tauto. }
  refine (Forall2_compose (λ a b : Z * list cell, a.2 = b.2) _ _ _ _ _ _ _ Hall).
  - intros x y z Hxy Hyz. simpl in *. rewrite Hxy. exact Hyz.
  - repeat (apply Forall2_filter; [|intros x y Hxy; rewrite Hxy; reflexivity]).
    apply (Forall2_relabel Z.of_nat).
Qed.

Lemma Forall2_map_eq {A B C : Type} (f : A → C) (g : B → C) l k :
  Forall2 (λ x y, g y = f x) l k → map g k = map f l.
Proof. induction 1 as [|x y l k Hxy _ IH]; [reflexivity|]. simpl. congruence. Qed.

Lemma get_prop_df_split drawn get_score csv_file targets mof2ids testing
    smiles_column compute_scscore out log :
  run (get_prop_df drawn get_score csv_file targets mof2ids testing
         smiles_column compute_scscore) = Ok (out, log) →
  ∃ df1 log1 df2 log2 df3 log3,
    run (loaded_frame drawn get_score csv_file testing smiles_column compute_scscore)
      = Ok (df1, log1) ∧
    mask_stage df1 log1 = Ok (df2, log2) ∧
    identity_stage mof2ids df2 log2 = Ok (df3, log3) ∧
    outlier_stage df3 log3 = Ok (out, log).
Proof.
  unfold run, get_prop_df, loaded_frame. intros H.
  apply M_bind_Ok in H as (df0 & log0 & Hload & H).
  apply M_bind_Ok in H as (df1 & log1 & Hsc & H).
  apply M_bind_Ok in H as (u & log2 & Has & H).
  apply M_bind_Ok in H as (df2 & log3 & Hmask & H).
  apply M_bind_Ok in H as (df3 & log4 & Hid & Hout).
  apply assert_targets_spec in Has as ->.
  exists df1, log1, df2, log3, df3, log4.
  split; [|auto]. unfold mbind, M_bind. rewrite Hload. exact Hsc.
Qed.

(** X11. On a file whose mask column holds booleans, [get_prop_df] is one
    order-preserving filter: under every label but [id2mof], the column of
    the returned frame is the column of the loaded frame restricted to the
    rows that pass the three filters (true mask, tuple in the registry,
    both selectivities below the bound), in the same order; the rows
    returned are labelled 0, 1, 2, ... *)
Theorem get_prop_df_filters_in_order
    (drawn : list nat) (get_score : cell → cell) (csv_file : csv)
    (targets : list string) (mof2ids : gmap mof cell) (testing : bool)
    (smiles_column : string) (compute_scscore : bool)
    (out : DataFrame) (log : list event) :
  (∀ r0, r0 ∈ records csv_file →
     ∃ b, row_get (header csv_file) "mask" r0 = Ok (VBool b)) →
  run (get_prop_df drawn get_score csv_file targets mof2ids testing
         smiles_column compute_scscore) = Ok (out, log) →
  ∃ loaded log1,
    run (loaded_frame drawn get_score csv_file testing smiles_column compute_scscore)
      = Ok (loaded, log1) ∧
    index out = map Z.of_nat (seq 0 (length (rows out))) ∧
    ∀ c, c ≠ "id2mof" →
      map (λ r, row_get (columns out) c r.2) (rows out)
      = map (λ r, row_get (columns loaded) c r.2)
          (filter (λ r, survives mof2ids (columns loaded) r.2 = true) (rows loaded)).
Proof.
  intros Hb H.
  apply get_prop_df_split in H
    as (df1 & log1 & df2 & log2 & df3 & log3 & Hload & Hmask & Hid & Hout).
  exists df1, log1. split; [exact Hload|]. split.
  - apply outlier_stage_spec in Hout as [-> _]. apply reset_index_drop_index.
  - intros c Hc.
    unfold run, loaded_frame in Hload.
    apply M_bind_Ok in Hload as (df0 & log0 & Hl & Hsc).
    pose proof (loaded_mask_bool _ _ _ _ _ _ _ _ _ _ _ Hl Hsc Hb) as Hb1.
    pose proof (filter_stages_rows _ _ _ _ _ _ _ _ _ Hb1 Hmask Hid Hout) as Hrows.
    apply Forall2_map_eq. eapply Forall2_impl; [exact Hrows|].
    intros r0 r (id & _ & _ & Hother). apply Hother. exact Hc.
Qed.

Lemma get_prop_df_filters_in_order_witness :
  ∃ loaded log1,
    run (loaded_frame [] (λ x, x) sample_file false "SMILES" false) = Ok (loaded, log1) ∧
    index sample_result = map Z.of_nat (seq 0 (length (rows sample_result))) ∧
    ∀ c, c ≠ "id2mof" →
      map (λ r, row_get (columns sample_result) c r.2) (rows sample_result)
      = map (λ r, row_get (columns loaded) c r.2)
          (filter (λ r, survives sample_registry (columns loaded) r.2 = true)
             (rows loaded)).
Proof.
  apply (get_prop_df_filters_in_order [] (λ x, x) sample_file [] sample_registry
           false "SMILES" false sample_result
           [Header "Real run"; RemovedMask 1; RemovedMof 1; RemovedSelectivity 1]).
  - intros r0 Hr0. unfold sample_file in Hr0. simpl in Hr0.
    repeat (apply elem_of_cons in Hr0 as [->|Hr0]; [vm_compute; eauto|]).
    apply elem_of_nil in Hr0. contradiction.
  - vm_compute. reflexivity.
Defined.

(** X12. The [id2mof] column of the returned frame holds, in every row,
    the id the registry gives for the row's own identity tuple. *)
Theorem get_prop_df_attaches_ids
    (drawn : list nat) (get_score : cell → cell) (csv_file : csv)
    (targets : list string) (mof2ids : gmap mof cell) (testing : bool)
    (smiles_column : string) (compute_scscore : bool)
    (out : DataFrame) (log : list event) (r : Z * list cell) :
  run (get_prop_df drawn get_score csv_file targets mof2ids testing
         smiles_column compute_scscore) = Ok (out, log) →
  r ∈ rows out →
  ∃ t id,
    row_mof (columns out) r.2 = Ok t ∧
    mof2ids !! t = Some id ∧
    row_get (columns out) "id2mof" r.2 = Ok id.
Proof.
  intros H Hr.
  apply get_prop_df_split in H
    as (df1 & log1 & df2 & log2 & df3 & log3 & Hload & Hmask & Hid & Hout).
  destruct (returned_row _ _ _ _ _ _ _ _ _ r Hmask Hid Hout Hr)
    as (r0 & id & _ & (t & Ht & Hl) & Hget & Hother).
  exists t, id. split; [|split; assumption].
  rewrite (row_mof_ext (columns df1) (columns out) r0 r.2 Hother). exact Ht.
Qed.

Lemma get_prop_df_attaches_ids_witness :
  ∃ t id,
    row_mof (columns sample_result)
      [VStr "C"; VStr "Zn"; VStr "c1"; VStr "pcu"; VBool true; VInt 3; VInt 5; VInt 7]
      = Ok t ∧
    sample_registry !! t = Some id ∧
    row_get (columns sample_result) "id2mof"
      [VStr "C"; VStr "Zn"; VStr "c1"; VStr "pcu"; VBool true; VInt 3; VInt 5; VInt 7]
      = Ok id.
Proof.
  apply (get_prop_df_attaches_ids [] (λ x, x) sample_file [] sample_registry
           false "SMILES" false sample_result
           [Header "Real run"; RemovedMask 1; RemovedMof 1; RemovedSelectivity 1]
           (0, [VStr "C"; VStr "Zn"; VStr "c1"; VStr "pcu"; VBool true; VInt 3; VInt 5;
                VInt 7])).
  - vm_compute. reflexivity.
  - left.
Defined.

Lemma read_csv_len f : len (read_csv f) = Z.of_nat (length (records f)).
Proof. unfold len, read_csv. simpl. rewrite length_imap. reflexivity. Qed.

(** X13. Test mode needs at least 1000 rows: on a shorter file the sample
    cannot be drawn and the call raises [ValueError], whatever the other
    arguments. *)
Theorem get_prop_df_testing_needs_1000_rows
    (drawn : list nat) (get_score : cell → cell) (csv_file : csv)
    (targets : list string) (mof2ids : gmap mof cell)
    (smiles_column : string) (compute_scscore : bool) :
  (length (records csv_file) < 1000)%nat →
  run (get_prop_df drawn get_score csv_file targets mof2ids true
         smiles_column compute_scscore)
  = Raise (ValueError "Cannot take a larger sample than population when 'replace=False'").
Proof.
  intros Hlen. unfold run, get_prop_df, load_stage, sample.
  rewrite read_csv_len.
  assert ((Z.of_nat (length (records csv_file)) <? 1000) = true) as E
    by (apply Z.ltb_lt; lia).
  unfold mbind, M_bind. simpl. rewrite E. reflexivity.
Qed.

Lemma get_prop_df_testing_needs_1000_rows_witness :
  run (get_prop_df [0%nat] (λ x, x) sample_file [] sample_registry true "SMILES" false)
  = Raise (ValueError "Cannot take a larger sample than population when 'replace=False'").
Proof.
  apply (get_prop_df_testing_needs_1000_rows [0%nat] (λ x, x) sample_file []
           sample_registry "SMILES" false).
  simpl. lia.
Defined.

Lemma forallb_columns (targets cols : list string) :
  forallb (λ t, bool_decide (t ∈ cols)) targets = true ↔ ∀ t, t ∈ targets → t ∈ cols.
Proof.
  rewrite forallb_forall. split.
  - intros H t Ht. apply list_elem_of_In in Ht. apply H in Ht.
    apply bool_decide_eq_true in Ht. exact Ht.
  - intros H t Ht. apply list_elem_of_In in Ht. apply bool_decide_eq_true. auto.
Qed.

(** X14. A target that is no column of the file stops a real run without
    scoring at the assertion, before any filter. *)
Theorem get_prop_df_missing_target
    (drawn : list nat) (get_score : cell → cell) (csv_file : csv)
    (targets : list string) (mof2ids : gmap mof cell)
    (smiles_column : string) (t : string) :
  t ∈ targets → t ∉ header csv_file →
  run (get_prop_df drawn get_score csv_file targets mof2ids false smiles_column false)
  = Raise (AssertionError "targets not in df!").
Proof.
  intros Ht Hn. unfold run, get_prop_df, load_stage, scscore_stage, assert_targets.
  unfold mbind, M_bind. simpl.
  destruct (forallb (λ t0, bool_decide (t0 ∈ header csv_file)) targets) eqn:E;
    [|reflexivity].
  exfalso. apply Hn. apply (proj1 (forallb_columns targets (header csv_file)) E t Ht).
Qed.

Lemma get_prop_df_missing_target_witness :
  run (get_prop_df [] (λ x, x) sample_file ["logP"] sample_registry false "SMILES" false)
  = Raise (AssertionError "targets not in df!").
Proof.
  apply (get_prop_df_missing_target [] (λ x, x) sample_file ["logP"] sample_registry
           "SMILES" "logP").
  - left.
  - apply (bool_decide_unpack ("logP" ∉ header sample_file)). vm_compute. exact I.
Defined.

(** X15. Without a [mask] column a real run without scoring whose targets
    are all there fails in [df.query('mask')], where [mask] is then an
    undefined name. *)
Theorem get_prop_df_missing_mask
    (drawn : list nat) (get_score : cell → cell) (csv_file : csv)
    (targets : list string) (mof2ids : gmap mof cell) (smiles_column : string) :
  (∀ t, t ∈ targets → t ∈ header csv_file) → "mask" ∉ header csv_file →
  run (get_prop_df drawn get_score csv_file targets mof2ids false smiles_column false)
  = Raise (UndefinedVariableError "mask").
Proof.
  intros Ht Hn. unfold run, get_prop_df, load_stage, scscore_stage, assert_targets.
  unfold mbind, M_bind. simpl.
  rewrite (proj2 (forallb_columns targets (header csv_file)) Ht). simpl.
  unfold mask_stage, mbind, M_bind, query_mask. simpl.
  apply col_pos_None in Hn. rewrite Hn. reflexivity.
Qed.

Lemma get_prop_df_missing_mask_witness :
  run (get_prop_df [] (λ x, x) (mkCsv ["SMILES"] [[VStr "C"]]) ["SMILES"]
         sample_registry false "SMILES" false)
  = Raise (UndefinedVariableError "mask").
Proof.
  apply (get_prop_df_missing_mask [] (λ x, x) (mkCsv ["SMILES"] [[VStr "C"]]) ["SMILES"]
           sample_registry "SMILES").
  - intros t Ht. exact Ht.
  - apply (bool_decide_unpack ("mask" ∉ ["SMILES"])). vm_compute. exact I.
Defined.

Lemma scscore_stage_rows get_score smiles_column df log out log' r :
  scscore_stage get_score smiles_column true df log = Ok (out, log') →
  smiles_column ≠ "scscore" →
  r ∈ rows out →
  ∃ s, row_get (columns out) smiles_column r.2 = Ok s ∧
       row_get (columns out) "scscore" r.2 = Ok (get_score s).
Proof.
  unfold scscore_stage. intros H Hne Hr.
  apply M_bind_Ok in H as (s & log1 & Hs & H). apply lift_Ok in Hs as [Hs ->].
  apply mret_Ok in H as [-> ->].
  unfold getitem in Hs.
  destruct (col_pos smiles_column (columns df)) as [i|] eqn:Ei; [|discriminate].
  injection Hs as <-.
  assert (Forall2 (λ (r : Z * list cell) v, v = get_score (at_pos i r.2)) (rows df)
            (map (λ x : Z * cell, get_score x.2)
               (map (λ r : Z * list cell, (r.1, at_pos i r.2)) (rows df)))) as Hall.
  { generalize (rows df). intros l.
    induction l as [|x l IH]; simpl; constructor; [reflexivity | exact IH]. }
  apply (set_col_Forall2 _ df "scscore") in Hall.
  destruct (Forall2_elem_of_r _ _ _ _ Hall Hr) as (r0 & _ & v & -> & Hget & Hother).
  exists (at_pos i r0.2). split; [|exact Hget].
  rewrite Hother by assumption. apply row_get_at. exact Ei.
Qed.

(** X16. With [compute_scscore] on, every row returned holds under
    [scscore] the score of the SMILES string it holds under the SMILES
    label (a label other than [scscore] and [id2mof], which the function
    overwrites). *)
Theorem get_prop_df_scores_smiles
    (drawn : list nat) (get_score : cell → cell) (csv_file : csv)
    (targets : list string) (mof2ids : gmap mof cell) (testing : bool)
    (smiles_column : string) (out : DataFrame) (log : list event)
    (r : Z * list cell) :
  run (get_prop_df drawn get_score csv_file targets mof2ids testing
         smiles_column true) = Ok (out, log) →
  smiles_column ≠ "scscore" → smiles_column ≠ "id2mof" →
  r ∈ rows out →
  ∃ s, row_get (columns out) smiles_column r.2 = Ok s ∧
       row_get (columns out) "scscore" r.2 = Ok (get_score s).
Proof.
  intros H Hsc Hid Hr.
  apply get_prop_df_split in H
    as (df1 & log1 & df2 & log2 & df3 & log3 & Hload & Hmask & Hident & Hout).
  unfold run, loaded_frame in Hload.
  apply M_bind_Ok in Hload as (df0 & log0 & _ & Hscore).
  destruct (returned_row _ _ _ _ _ _ _ _ _ r Hmask Hident Hout Hr)
    as (r0 & id & Hr0 & _ & _ & Hother).
  apply list_elem_of_fmap in Hr0 as (r1 & -> & Hr1).
  destruct (scscore_stage_rows _ _ _ _ _ _ r1 Hscore Hsc Hr1) as (s & Hs & Hscr).
  exists s. rewrite !Hother by (assumption || discriminate). auto.
Qed.

Lemma get_prop_df_scores_smiles_witness :
  ∃ s, row_get
         ["SMILES"; "metal_node"; "organic_core"; "topology"; "mask";
          "co2n2_selectivity"; "co2ch4_selectivity"; "scscore"; "id2mof"]
         "SMILES"
         [VStr "C"; VStr "Zn"; VStr "c1"; VStr "pcu"; VBool true; VInt 3; VInt 5;
          VInt 1; VInt 7] = Ok s ∧
       row_get
         ["SMILES"; "metal_node"; "organic_core"; "topology"; "mask";
          "co2n2_selectivity"; "co2ch4_selectivity"; "scscore"; "id2mof"]
         "scscore"
         [VStr "C"; VStr "Zn"; VStr "c1"; VStr "pcu"; VBool true; VInt 3; VInt 5;
          VInt 1; VInt 7]
       = Ok ((λ x, match x with VStr s => VInt (Z.of_nat (String.length s)) | _ => nan end) s).
Proof.
  apply (get_prop_df_scores_smiles []
           (λ x, match x with VStr s => VInt (Z.of_nat (String.length s)) | _ => nan end)
           sample_file [] sample_registry false "SMILES"
           (mkDF ["SMILES"; "metal_node"; "organic_core"; "topology"; "mask";
                  "co2n2_selectivity"; "co2ch4_selectivity"; "scscore"; "id2mof"]
              [ (0, [VStr "C"; VStr "Zn"; VStr "c1"; VStr "pcu"; VBool true; VInt 3;
                     VInt 5; VInt 1; VInt 7]) ])
           [Header "Real run"; RemovedMask 1; RemovedMof 1; RemovedSelectivity 1]
           (0, [VStr "C"; VStr "Zn"; VStr "c1"; VStr "pcu"; VBool true; VInt 3;
                VInt 5; VInt 1; VInt 7])).
  - vm_compute. reflexivity.
  - discriminate.
  - discriminate.
  - left.
Defined.

Lemma traverse_total {A B : Type} (f : A → result B) l :
  (∀ x, x ∈ l → ∃ y, f x = Ok y) → ∃ k, traverse f l = Ok k.
Proof.
  induction l as [|x l IH]; intros H; simpl; [eauto|].
  destruct (H x) as [y Hy]; [left|]. rewrite Hy. simpl.
  destruct IH as [k Hk]; [intros z Hz; apply H; right; exact Hz|].
  rewrite Hk. simpl. eauto.
Qed.

Lemma query_mask_total df :
  "mask" ∈ columns df →
  (∀ r, r ∈ rows df → ∃ b, row_get (columns df) "mask" r.2 = Ok (VBool b)) →
  ∃ masked, query_mask df = Ok masked.
Proof.
  intros Hc Hb. apply col_pos_is_Some in Hc as [i Hi].
  unfold query_mask. rewrite Hi, (boolean_column df i Hi Hb). eauto.
Qed.

Lemma mask_stage_total df log :
  "mask" ∈ columns df →
  (∀ r, r ∈ rows df → ∃ b, row_get (columns df) "mask" r.2 = Ok (VBool b)) →
  ∃ out log', mask_stage df log = Ok (out, log').
Proof.
  intros Hc Hb. destruct (query_mask_total df Hc Hb) as [masked Hq].
  unfold mask_stage, mbind, M_bind. rewrite Hq. simpl. eauto.
Qed.

Lemma keep_below_bound_total df c :
  c ∈ columns df →
  (∀ r s, r ∈ rows df → row_get (columns df) c r.2 ≠ Ok (VStr s)) →
  ∃ out, keep_below_bound df c = Ok out.
Proof.
  intros Hc Hn. apply col_pos_is_Some in Hc as [i Hi].
  unfold keep_below_bound, getitem. rewrite Hi. simpl.
  destruct (traverse_total (λ x : Z * cell, lt_bound x.2)
              (map (λ r : Z * list cell, (r.1, at_pos i r.2)) (rows df))) as [m Hm].
  { intros x Hx. apply list_elem_of_fmap in Hx as (r & -> & Hr). simpl.
    specialize (Hn r). rewrite (row_get_at _ _ i) in Hn by assumption.
    destruct (at_pos i r.2) as [s| | |]; simpl; eauto.
    exfalso. apply (Hn s Hr). reflexivity. }
  rewrite Hm. simpl. eauto.
Qed.

Lemma outlier_stage_total df log :
  "co2n2_selectivity" ∈ columns df → "co2ch4_selectivity" ∈ columns df →
  (∀ r c s, r ∈ rows df → c ∈ ["co2n2_selectivity"; "co2ch4_selectivity"] →
            row_get (columns df) c r.2 ≠ Ok (VStr s)) →
  ∃ out log', outlier_stage df log = Ok (out, log').
Proof.
  intros H1 H2 Hn.
  destruct (keep_below_bound_total df "co2n2_selectivity" H1) as [df1 Hdf1].
  { intros r s Hr. apply Hn; [exact Hr | in_list]. }
  pose proof (keep_below_bound_spec _ _ _ Hdf1) as E1.
  destruct (keep_below_bound_total df1 "co2ch4_selectivity") as [df2 Hdf2].
  { rewrite E1. exact H2. }
  { intros r s Hr. rewrite E1 in Hr |- *. simpl in *.
    apply list_elem_of_filter in Hr as [_ Hr]. apply Hn; [exact Hr | in_list]. }
  unfold outlier_stage, mbind, M_bind. rewrite Hdf1. simpl. rewrite Hdf2. simpl. eauto.
Qed.

Lemma set_col_columns df c values c' :
  c' ∈ columns df → c' ∈ columns (set_col df c values).
Proof.
  intros Hin. unfold set_col. destruct (col_pos c (columns df)); simpl; [exact Hin|].
  apply elem_of_app. left. exact Hin.
Qed.

(** X17. What a file must offer for a real run without scoring to return:
    the targets and the six columns the filters read are columns of the
    file, every mask is a boolean, no selectivity is a string, and some row
    passes the mask and the identity filter (a frame emptied by one of
    these two filters makes the call raise).  Then no exception is
    raised. *)
Theorem get_prop_df_returns
    (drawn : list nat) (get_score : cell → cell) (csv_file : csv)
    (targets : list string) (mof2ids : gmap mof cell) (smiles_column : string) :
  (∀ t, t ∈ targets → t ∈ header csv_file) →
  (∀ c, c ∈ ["mask"; "metal_node"; "organic_core"; "topology";
              "co2n2_selectivity"; "co2ch4_selectivity"] → c ∈ header csv_file) →
  (∀ r, r ∈ records csv_file → ∃ b, row_get (header csv_file) "mask" r = Ok (VBool b)) →
  (∀ r c s, r ∈ records csv_file →
            c ∈ ["co2n2_selectivity"; "co2ch4_selectivity"] →
            row_get (header csv_file) c r ≠ Ok (VStr s)) →
  (∃ r, r ∈ records csv_file ∧
        row_get (header csv_file) "mask" r = Ok (VBool true) ∧
        has_valid_mof mof2ids (header csv_file) r = true) →
  ∃ out log,
    run (get_prop_df drawn get_score csv_file targets mof2ids false smiles_column false)
    = Ok (out, log).
Proof.
  intros Ht Hc Hb Hs (rv & Hrv & Hmv & Hvv).
  set (df1 := read_csv csv_file).
  assert (∀ r, r ∈ rows df1 → r.2 ∈ records csv_file) as Hrec.
  { intros r Hr. rewrite <- read_csv_cells. apply list_elem_of_fmap_2. exact Hr. }
  assert (∀ r, r ∈ rows df1 → ∃ b, row_get (columns df1) "mask" r.2 = Ok (VBool b))
    as Hb1 by (intros r Hr; apply Hb, Hrec, Hr).
  destruct (mask_stage_total df1 [Header "Real run"]) as (df2 & log2 & Hmask);
    [apply Hc; in_list | exact Hb1 |].
  pose proof (mask_stage_bool _ _ _ _ Hb1 Hmask) as E2.
  assert (∀ r, r ∈ (rows df2).*2 → r ∈ records csv_file) as Hrec2.
  { intros r Hr. rewrite E2, reset_index_drop_cells in Hr. simpl in Hr.
    apply list_elem_of_fmap in Hr as (r0 & -> & Hr0).
    apply list_elem_of_filter in Hr0 as [_ Hr0]. apply Hrec, Hr0. }
  assert (columns df2 = header csv_file) as Ecols2 by (rewrite E2; reflexivity).
  assert (∃ mofs, get_mofs df2 = Ok mofs) as [mofs Hmofs].
  { unfold get_mofs. rewrite Ecols2.
    destruct (col_pos_is_Some "metal_node" (header csv_file)) as [i ->];
      [apply Hc; in_list|].
    destruct (col_pos_is_Some "organic_core" (header csv_file)) as [j ->];
      [apply Hc; in_list|].
    destruct (col_pos_is_Some "topology" (header csv_file)) as [k ->];
      [apply Hc; in_list|].
    eauto. }
  destruct (identity_stage_total mof2ids df2 log2 mofs Hmofs) as (df3 & log3 & Hid).
  { assert (rv ∈ (rows df2).*2) as Hin.
    { rewrite E2, reset_index_drop_cells. simpl.
      rewrite <- read_csv_cells in Hrv. fold df1 in Hrv.
      apply list_elem_of_fmap in Hrv as (r1 & -> & Hr1).
      apply list_elem_of_fmap_2, list_elem_of_filter. split; [exact Hmv | exact Hr1]. }
    apply list_elem_of_fmap in Hin as (r2 & -> & Hr2).
    exists r2. split; [exact Hr2|]. rewrite Ecols2. exact Hvv. }
  pose proof (identity_stage_spec _ _ _ _ _ Hid) as (ids & E3 & _ & _).
  destruct (outlier_stage_total df3 log3) as (out & log4 & Hout).
  { rewrite E3. apply set_col_columns.
    change (columns (kept_by_identity mof2ids df2)) with (columns df2).
    rewrite Ecols2. apply Hc. in_list. }
  { rewrite E3. apply set_col_columns.
    change (columns (kept_by_identity mof2ids df2)) with (columns df2).
    rewrite Ecols2. apply Hc. in_list. }
  { intros r c s Hr Hin. rewrite E3 in Hr |- *.
    destruct (set_col_cells (kept_by_identity mof2ids df2) "id2mof" ids r.2)
      as (rk & Hrk & Hsame); [apply list_elem_of_fmap_2; exact Hr|].
    rewrite Hsame
      by (intros ->;
          repeat (apply elem_of_cons in Hin as [Hin|Hin]; [discriminate|]);
          apply elem_of_nil in Hin; exact Hin).
    apply kept_by_identity_valid in Hrk as [Hrk _].
    change (columns (kept_by_identity mof2ids df2)) with (columns df2).
    rewrite Ecols2. apply Hs; [apply Hrec2, Hrk | exact Hin]. }
  exists out, log4.
  unfold run, get_prop_df, load_stage, scscore_stage, assert_targets.
  unfold mbind at 1 2 3 4, M_bind. simpl.
  rewrite (proj2 (forallb_columns targets (header csv_file)) Ht). simpl.
  fold df1. unfold mbind at 1, M_bind. rewrite Hmask.
  unfold mbind, M_bind. rewrite Hid. exact Hout.
Qed.

Lemma get_prop_df_returns_witness :
  ∃ out log,
    run (get_prop_df [] (λ x, x) sample_file [] sample_registry false "SMILES" false)
    = Ok (out, log).
Proof.
  apply (get_prop_df_returns [] (λ x, x) sample_file [] sample_registry "SMILES").
  - intros t Ht. apply elem_of_nil in Ht. contradiction.
  - intros c Hc. unfold sample_file. simpl.
    repeat (apply elem_of_cons in Hc as [->|Hc]; [in_list|]).
    apply elem_of_nil in Hc. contradiction.
  - intros r Hr. unfold sample_file in *. simpl in Hr.
    repeat (apply elem_of_cons in Hr as [->|Hr]; [vm_compute; eauto|]).
    apply elem_of_nil in Hr. contradiction.
  - intros r c s Hr Hc. unfold sample_file in *. simpl in Hr.
    repeat (apply elem_of_cons in Hc as [->|Hc]);
      try (apply elem_of_nil in Hc; contradiction);
      repeat (apply elem_of_cons in Hr as [->|Hr]; [vm_compute; discriminate|]);
      apply elem_of_nil in Hr; contradiction.
  - exists [VStr "C"; VStr "Zn"; VStr "c1"; VStr "pcu"; VBool true; VInt 3; VInt 5].
    split; [left|]. split; vm_compute; reflexivity.
Defined.

(** ** [predict_properties] and [get_y_true] *)

Section predict_more.
Context {Example XT MT ZT Row : Type}.
Variable collate_fn : list Example → XT * MT * list Row.
Variable forward_encoder : XT → MT → ZT.
Variable z_to_y : ZT → list Row.
Variable inverse_transform : list Row → list Row.

Lemma chunks_not_positive {A : Type} (l : list A) (n : Z) :
  n ≤ 0 → chunks l (Z.to_nat n) = [].
Proof.
  intros Hn. unfold chunks. replace (Z.to_nat n) with 0%nat by lia. reflexivity.
Qed.

Section batch_size.
Variable pred_row true_row : Example → Row.
Hypothesis pred_rowwise : ∀ chunk,
  inverse_transform
    (z_to_y (forward_encoder (collate_fn chunk).1.1 (collate_fn chunk).1.2))
  = map pred_row chunk.
Hypothesis true_rowwise : ∀ chunk,
  inverse_transform (collate_fn chunk).2 = map true_row chunk.

(** X18. With collaborators that work row by row, the batch size has no
    part in the result: two positive batch sizes give the same two arrays
    (or the same exception, on an empty input). *)
Theorem predict_properties_batch_size (data : list Example) (b1 b2 : Z) :
  0 < b1 → 0 < b2 →
  predict_properties collate_fn forward_encoder z_to_y inverse_transform data b1
  = predict_properties collate_fn forward_encoder z_to_y inverse_transform data b2.
Proof.
  intros H1 H2. unfold predict_properties.
  repeat case_decide; try lia.
  rewrite !(predict_loop collate_fn forward_encoder z_to_y inverse_transform
              pred_row true_row pred_rowwise true_rowwise).
  rewrite !concat_chunks by lia. reflexivity.
Qed.
End batch_size.

Section targets.
(** The component [t[2]] of an example, and the scaling of one row. *)
Variable item2 : Example → Row.
Variable scale : Row → Row.
Hypothesis collate_targets : ∀ chunk, (collate_fn chunk).2 = map item2 chunk.
Hypothesis scaler_rowwise : ∀ l, inverse_transform l = map scale l.

Lemma predict_loop_true (cs : list (list Example)) (y_true y_pred : list Row) :
  (foldl (predict_step collate_fn forward_encoder z_to_y inverse_transform)
         (y_true, y_pred) cs).1
  = y_true ++ map scale (map item2 (concat cs)).
Proof.
  revert y_true y_pred. induction cs as [|c cs IH]; intros y_true y_pred.
  - simpl. rewrite app_nil_r. reflexivity.
  - cbn [foldl]. unfold predict_step at 2.
    pose proof (collate_targets c) as Hc.
    destruct (collate_fn c) as [[x m] y]. simpl in Hc. subst y.
    rewrite IH, scaler_rowwise. cbn [concat].
    rewrite !map_app, app_assoc. reflexivity.
Qed.

(** X19. The ground truth [predict_properties] returns is the one
    [get_y_true] computes from the examples alone: when the collate
    function stacks the component [t[2]] of the examples and the scaler
    works row by row, every successful call of [predict_properties] returns
    as its second array the result of [get_y_true]. *)
Theorem predict_properties_y_true (data : list Example) (batch_size : Z)
    (y_pred y_true : list Row) :
  predict_properties collate_fn forward_encoder z_to_y inverse_transform
    data batch_size = Ok (y_pred, y_true) →
  get_y_true item2 inverse_transform data = Ok y_true.
Proof.
  unfold predict_properties. case_decide as Hb; [discriminate|].
  pose proof (predict_loop_true (chunks data (Z.to_nat batch_size)) [] []) as Hloop.
  destruct (foldl _ _ _) as [yt yp]. simpl in Hloop.
  intros H. apply result_bind_Ok in H as (yp' & Hyp & H).
  apply result_bind_Ok in H as (yt' & Hyt & [= <- <-]).
  assert (yt' = yt) as -> by (destruct yt; [discriminate | injection Hyt as <-; reflexivity]).
  assert (0 < batch_size) as Hpos.
  { destruct (decide (0 < batch_size)) as [|Hn]; [assumption|].
    rewrite chunks_not_positive in Hloop by lia. simpl in Hloop. subst yt. discriminate. }
  rewrite concat_chunks in Hloop by lia.
  unfold get_y_true. subst yt.
  destruct data as [|x data]; [discriminate|].
  simpl. rewrite scaler_rowwise. reflexivity.
Qed.
End targets.
End predict_more.

Lemma predict_properties_batch_size_witness :
  predict_properties toy_collate toy_encoder toy_decoder toy_scaler [1; 2; 3; 4; 5] 2
  = predict_properties toy_collate toy_encoder toy_decoder toy_scaler [1; 2; 3; 4; 5] 64.
Proof.
  apply (predict_properties_batch_size toy_collate toy_encoder toy_decoder toy_scaler
           (λ x, Z.succ (2 * x)) Z.succ).
  - intros chunk. unfold toy_collate, toy_encoder, toy_decoder, toy_scaler. simpl.
    rewrite map_map. reflexivity.
  - intros chunk. reflexivity.
  - lia.
  - lia.
Defined.

Lemma predict_properties_y_true_witness :
  get_y_true (λ x : Z, x) toy_scaler [1; 2; 3; 4; 5] = Ok [2; 3; 4; 5; 6].
Proof.
  apply (predict_properties_y_true toy_collate toy_encoder toy_decoder toy_scaler
           (λ x, x) Z.succ (λ chunk, eq_sym (map_id chunk)) (λ l, eq_refl)
           [1; 2; 3; 4; 5] 2 [3; 5; 7; 9; 11] [2; 3; 4; 5; 6]).
  vm_compute. reflexivity.
Defined.

(** ** [regression_statistics] *)

Lemma append_inv_head (p a b : string) : (p ++ a)%string = (p ++ b)%string → a = b.
Proof. induction p as [|c p IH]; simpl; [auto|]. intros [= H]. auto. Qed.

Lemma stat_key_not_label (p suffix : string) :
  suffix ∈ ["R2"; "MAE"; "RMSE"] → (p ++ suffix)%string ≠ "label".
Proof.
  intros Hs H.
  repeat (apply elem_of_cons in Hs as [->|Hs]);
    try (apply elem_of_nil in Hs; contradiction);
    do 6 (destruct p as [|? p]; simpl in H; try discriminate; injection H as _ H).
Qed.

Section regression_facts.
Variable r2_score mean_absolute_error mean_squared_error :
  list spec_float → list spec_float → spec_float.

Lemma statistics_of_Some y_true y_pred prefix index col t p :
  y_true !! index = Some t → y_pred !! index = Some p →
  statistics_of r2_score mean_absolute_error mean_squared_error
    y_true y_pred prefix index col
  = Some (statistics_row r2_score mean_absolute_error mean_squared_error t p prefix col).
Proof.
  intros Ht Hp. unfold statistics_of. rewrite Ht, Hp. simpl.
  pose proof (stat_key_not_label prefix "R2" ltac:(in_list)).
  pose proof (stat_key_not_label prefix "MAE" ltac:(in_list)).
  pose proof (stat_key_not_label prefix "RMSE" ltac:(in_list)).
  repeat (cbn [od_set]; case_decide;
          [first [contradiction
                 | match goal with
                   | E : (_ ++ _)%string = (_ ++ _)%string |- _ =>
                       apply append_inv_head in E; discriminate
                   end]|]).
  reflexivity.
Qed.

Lemma statistics_of_is_Some y_true y_pred prefix index col :
  is_Some (statistics_of r2_score mean_absolute_error mean_squared_error
             y_true y_pred prefix index col)
  ↔ (index < length y_true ∧ index < length y_pred)%nat.
Proof.
  split.
  - intros [d Hd]. unfold statistics_of in Hd.
    destruct (y_true !! index) as [t|] eqn:Et; [|discriminate].
    destruct (y_pred !! index) as [p|] eqn:Ep; [|discriminate].
    split; eapply lookup_lt_Some; eauto.
  - intros [Ht Hp].
    apply lookup_lt_is_Some in Ht as [t Ht]. apply lookup_lt_is_Some in Hp as [p Hp].
    rewrite (statistics_of_Some _ _ _ _ _ t p Ht Hp). eauto.
Qed.
End regression_facts.

Lemma first_occurrences_seen {A K : Type} `{EqDecision K} (key : A → K) seen l :
  (∀ x, x ∈ l → key x ∈ seen) → first_occurrences key seen l = [].
Proof.
  induction l as [|x l IH]; intros H; simpl; [reflexivity|].
  case_decide as Hx; [|exfalso; apply Hx, H; left].
  apply IH. intros y Hy. apply H. right. exact Hy.
Qed.

(** Keys met for the first time come out in their order; later repeats add
    nothing. *)
Lemma first_occurrences_prefix (ks seen tail : list string) :
  NoDup ks → (∀ k, k ∈ ks → k ∉ seen) →
  (∀ x, x ∈ tail → x ∈ ks ∨ x ∈ seen) →
  first_occurrences (λ k : string, k) seen (ks ++ tail) = ks.
Proof.
  revert seen. induction ks as [|k ks IH]; intros seen Hnd Hfresh Htail.
  - simpl. apply first_occurrences_seen. intros x Hx.
    destruct (Htail x Hx) as [H|H]; [apply elem_of_nil in H; contradiction | exact H].
  - apply NoDup_cons in Hnd as [Hk Hnd]. simpl.
    case_decide as Hs; [exfalso; apply (Hfresh k); [left | exact Hs]|].
    f_equal. apply IH; [exact Hnd| |].
    + intros k' Hk' Hin. apply elem_of_cons in Hin as [->|Hin]; [contradiction|].
      apply (Hfresh k'); [right; exact Hk' | exact Hin].
    + intros x Hx. destruct (Htail x Hx) as [H|H].
      * apply elem_of_cons in H as [->|H]; [right; left | left; exact H].
      * right. right. exact H.
Qed.

Lemma records_columns (ks : list string) (records : list (list (string * cell))) :
  NoDup ks → records ≠ [] → (∀ d, d ∈ records → d.*1 = ks) →
  first_occurrences (λ k : string, k) [] (records ≫= (λ d, d.*1)) = ks.
Proof.
  intros Hnd Hne Hks. destruct records as [|d rest]; [contradiction|].
  rewrite bind_cons, (Hks d) by left.
  apply first_occurrences_prefix; [exact Hnd| |].
  - intros k _. apply not_elem_of_nil.
  - intros x Hx. left. apply list_elem_of_bind in Hx as (d' & Hx & Hd').
    rewrite (Hks d') in Hx by (right; exact Hd'). exact Hx.
Qed.

Section regression_frame.
Variable r2_score mean_absolute_error mean_squared_error :
  list spec_float → list spec_float → spec_float.

Lemma stat_keys_NoDup (prefix : string) :
  NoDup ["label"; (prefix ++ "R2")%string; (prefix ++ "MAE")%string;
         (prefix ++ "RMSE")%string].
Proof.
  pose proof (stat_key_not_label prefix "R2" ltac:(in_list)).
  pose proof (stat_key_not_label prefix "MAE" ltac:(in_list)).
  pose proof (stat_key_not_label prefix "RMSE" ltac:(in_list)).
  repeat (apply NoDup_cons; split); [| | | |apply NoDup_nil_2];
    rewrite ?not_elem_of_cons; repeat split;
    try apply not_elem_of_nil; try congruence;
    intros E; apply append_inv_head in E; discriminate.
Qed.

Lemma statistics_row_cells (t p : list spec_float) (prefix col : string) :
  map (λ c, default nan
              (od_get c (statistics_row r2_score mean_absolute_error
                           mean_squared_error t p prefix col)))
    ["label"; (prefix ++ "R2")%string; (prefix ++ "MAE")%string;
     (prefix ++ "RMSE")%string]
  = [ VStr col; VFloat (r2_score t p); VFloat (mean_absolute_error t p);
      VFloat (SFsqrt 53 1024 (mean_squared_error t p)) ].
Proof.
  pose proof (stat_key_not_label prefix "R2" ltac:(in_list)).
  pose proof (stat_key_not_label prefix "MAE" ltac:(in_list)).
  pose proof (stat_key_not_label prefix "RMSE" ltac:(in_list)).
  unfold statistics_row. cbn [map od_get].
  repeat (case_decide;
          try contradiction;
          try match goal with
              | E : (_ ++ _)%string = (_ ++ _)%string |- _ =>
                  apply append_inv_head in E; discriminate
              end).
  reflexivity.
Qed.

(** The dictionaries the loop collects, when it goes through. *)
Lemma regression_results y_true y_pred targets prefix results :
  mapM (λ ic : nat * string,
          statistics_of r2_score mean_absolute_error mean_squared_error
            y_true y_pred prefix ic.1 ic.2)
       (imap (λ index col, (index, col)) targets) = Some results →
  results = imap (λ index col,
                    statistics_row r2_score mean_absolute_error mean_squared_error
                      (default [] (y_true !! index)) (default [] (y_pred !! index))
                      prefix col) targets.
Proof.
  intros H. apply mapM_Some in H.
  pose proof (Forall2_length _ _ _ H) as Hlen. rewrite length_imap in Hlen.
  apply list_eq. intros k. rewrite list_lookup_imap.
  destruct (targets !! k) as [col|] eqn:Ek; simpl.
  - destruct (Forall2_lookup_l _ _ _ k (k, col) H) as (d & Hd & Hstat).
    { rewrite list_lookup_imap, Ek. reflexivity. }
    rewrite Hd. f_equal. simpl in Hstat.
    assert (is_Some (statistics_of r2_score mean_absolute_error mean_squared_error
                       y_true y_pred prefix k col)) as Hs by eauto.
    apply statistics_of_is_Some in Hs as [Ht Hp].
    apply lookup_lt_is_Some in Ht as [t Ht]. apply lookup_lt_is_Some in Hp as [p Hp].
    rewrite (statistics_of_Some _ _ _ _ _ _ _ _ t p Ht Hp) in Hstat.
    rewrite Ht, Hp. simpl. congruence.
  - apply lookup_ge_None. apply lookup_ge_None in Ek. lia.
Qed.

(** X20. [regression_statistics] goes through exactly when both arrays
    have a column for every target: one target more than columns and the
    column lookup fails. *)
Theorem regression_statistics_is_Some
    (y_true y_pred : list (list spec_float)) (targets : list string) (prefix : string) :
  is_Some (regression_statistics r2_score mean_absolute_error mean_squared_error
             y_true y_pred targets prefix)
  ↔ (length targets ≤ length y_true ∧ length targets ≤ length y_pred)%nat.
Proof.
  unfold regression_statistics.
  set (f := λ ic : nat * string,
              statistics_of r2_score mean_absolute_error mean_squared_error
                y_true y_pred prefix ic.1 ic.2).
  assert (is_Some (mapM f (imap (λ index col, (index, col)) targets))
          ↔ (length targets ≤ length y_true ∧ length targets ≤ length y_pred)%nat) as Hm.
  { rewrite mapM_is_Some, Forall_lookup. split.
    - intros H. destruct targets as [|c0 targets'] eqn:Et using rev_ind; [simpl; lia|].
      clear IHtargets'. rewrite length_app. simpl.
      specialize (H (length targets') (length targets', c0)).
      rewrite list_lookup_imap, lookup_app_r, Nat.sub_diag in H by lia.
      specialize (H eq_refl). apply statistics_of_is_Some in H. simpl in H. lia.
    - intros [Ht Hp] k [k' c] Hk. rewrite list_lookup_imap in Hk.
      destruct (targets !! k) as [c'|] eqn:Ek; [|discriminate].
      injection Hk as <- <-. apply statistics_of_is_Some. simpl.
      apply lookup_lt_Some in Ek. lia. }
  rewrite <- Hm. split.
  - intros [df H]. destruct (mapM f _) as [results|]; [eauto | discriminate].
  - intros [results ->]. simpl. eauto.
Qed.

(** X21. The table [regression_statistics] returns: one row per target, in
    the order of [targets] and labelled 0, 1, 2, ..., holding the target's
    name and the three metrics of column [index] of the two arrays; the
    columns are [label] and the three metric names with the prefix, which
    never collide with [label] or with one another. *)
Theorem regression_statistics_table
    (y_true y_pred : list (list spec_float)) (targets : list string)
    (prefix : string) (df : DataFrame) :
  regression_statistics r2_score mean_absolute_error mean_squared_error
    y_true y_pred targets prefix = Some df →
  columns df =
    match targets with
    | [] => []
    | _ => ["label"; (prefix ++ "R2")%string; (prefix ++ "MAE")%string;
            (prefix ++ "RMSE")%string]
    end ∧
  rows df =
    imap (λ index col,
            (Z.of_nat index,
             [ VStr col;
               VFloat (r2_score (default [] (y_true !! index))
                         (default [] (y_pred !! index)));
               VFloat (mean_absolute_error (default [] (y_true !! index))
                         (default [] (y_pred !! index)));
               VFloat (SFsqrt 53 1024
                         (mean_squared_error (default [] (y_true !! index))
                            (default [] (y_pred !! index)))) ]))
      targets.
Proof.
  unfold regression_statistics. intros H.
  destruct (mapM _ _) as [results|] eqn:Hm; [|discriminate].
  injection H as <-. apply regression_results in Hm. subst results.
  destruct targets as [|c0 targets']; [split; reflexivity|].
  set (targets := c0 :: targets').
  set (ks := ["label"; (prefix ++ "R2")%string; (prefix ++ "MAE")%string;
              (prefix ++ "RMSE")%string]).
  set (row := λ index col,
                statistics_row r2_score mean_absolute_error mean_squared_error
                  (default [] (y_true !! index)) (default [] (y_pred !! index))
                  prefix col).
  assert (first_occurrences (λ k : string, k) [] (imap row targets ≫= (λ d, d.*1)) = ks)
    as Hcols.
  { apply records_columns; [apply stat_keys_NoDup|discriminate|].
    intros d Hd. apply list_elem_of_lookup in Hd as [k Hd].
    rewrite list_lookup_imap in Hd.
    destruct (targets !! k); [|discriminate]. injection Hd as <-. reflexivity. }
  unfold frame_of_records. cbn [columns rows]. fold row. rewrite Hcols.
  split; [reflexivity|].
  apply list_eq. intros k. rewrite !list_lookup_imap.
  destruct (targets !! k) as [col|]; [|reflexivity]. simpl. f_equal. f_equal.
  apply statistics_row_cells.
Qed.
End regression_frame.

Lemma regression_statistics_table_witness :
  columns (mkDF ["label"; "test_R2"; "test_MAE"; "test_RMSE"]
             [ (0, [VStr "logP"; VFloat one; VFloat one; VFloat one]) ])
  = ["label"; ("test_" ++ "R2")%string; ("test_" ++ "MAE")%string;
     ("test_" ++ "RMSE")%string] ∧
  rows (mkDF ["label"; "test_R2"; "test_MAE"; "test_RMSE"]
          [ (0, [VStr "logP"; VFloat one; VFloat one; VFloat one]) ])
  = imap (λ index col,
            (Z.of_nat index,
             [ VStr col;
               VFloat (toy_metric (default [] ([[one; bound]] !! index))
                         (default [] ([[bound; one]] !! index)));
               VFloat (toy_metric (default [] ([[one; bound]] !! index))
                         (default [] ([[bound; one]] !! index)));
               VFloat (SFsqrt 53 1024
                         (toy_metric (default [] ([[one; bound]] !! index))
                            (default [] ([[bound; one]] !! index)))) ]))
      ["logP"].
Proof.
  apply (regression_statistics_table toy_metric toy_metric toy_metric
           [[one; bound]] [[bound; one]] ["logP"] "test_"
           (mkDF ["label"; "test_R2"; "test_MAE"; "test_RMSE"]
              [ (0, [VStr "logP"; VFloat one; VFloat one; VFloat one]) ])).
  vm_compute. reflexivity.
Defined.
